(** * NX Projects Tracker: the Presenter's filter / sort / paginate engine

    A shallow embedding of the browser-side application class
    [NXProjectsTracker] and of [NumberUtils.format] (webapp/js/utils.js).
    The repository holds the class in two copies: one with pagination
    ([Module Paged]) and one without ([Module Unpaged]); [loadProjects],
    [filterProjects], [updateStats] and [formatNumber] are the same in
    both.

    JavaScript values are modelled as follows.
    - Strings are [string]; counts (stars, forks, lengths, page numbers) are
      [Z], which is exact for the safe integers the JSON artifact carries.
    - A field that may be absent or [null] is an [option].
    - Arrays are [list]s; the in-place [sort] and the array copies made by
      the spread operator and by [filter] are modelled over a store of
      arrays in [Module Store], where the aliasing matters.
    - The engine's locale- and table-driven builtins ([toLowerCase],
      [localeCompare], [Date] parsing) are the fields of the class
      [Platform]; every theorem holds for every platform, and
      [AsciiPlatform] is the instance the examples run on.
    - Methods run in a monad of the object's fields, a normal or abrupt
      completion, and a trace of DOM updates and console output. *)

From Stdlib Require Import ZArith List String Ascii Bool Lia.
From Stdlib Require Import Sorting.Permutation Sorting.Sorted.
From Stdlib Require Import Floats.
From Stdlib Require DecimalString.
From stdpp Require Import base option gmap.
Import ListNotations.

Local Open Scope string_scope.
Local Open Scope Z_scope.

(** ** JavaScript builtins *)

Module Js.

(** A string is truthy when it is not empty. *)
Definition truthy (s : string) : bool :=
  match s with EmptyString => false | String _ _ => true end.

(** [String.prototype.includes]: [includes s t] is [s.includes(t)]. *)
Fixpoint includes (s t : string) : bool :=
  if String.prefix t s then true
  else match s with
       | EmptyString => false
       | String _ s' => includes s' t
       end.

(** [Array.prototype.sort(cmp)]: a stable sort; [cmp a b <= 0] keeps [a]
    in front of [b], a positive result moves [b] in front.  Every stable
    sort returns the same array for a consistent comparator; insertion
    into the sorted tail is the one run here. *)
Section Sort.
Context {A : Type} (cmp : A -> A -> Z).

Fixpoint insert (a : A) (l : list A) : list A :=
  match l with
  | [] => [a]
  | b :: l' => if cmp a b <=? 0 then a :: b :: l' else b :: insert a l'
  end.

Definition sort (l : list A) : list A := fold_right insert [] l.
End Sort.

(** The default order of [Array.prototype.sort()] on strings: by code
    unit. *)
Definition codeUnitCompare (a b : string) : Z :=
  match String.compare a b with
  | Lt => -1
  | Eq => 0
  | Gt => 1
  end.

(** [Array.prototype.slice(start, end)], with the relative indexing of
    negative arguments and the clamping to the array's length. *)
Definition clampIndex (len i : Z) : Z :=
  if i <? 0 then Z.max (len + i) 0 else Z.min i len.

Definition slice {A : Type} (l : list A) (start stop : Z) : list A :=
  let len := Z.of_nat (length l) in
  let k := clampIndex len start in
  let final := clampIndex len stop in
  take (Z.to_nat (final - k)) (drop (Z.to_nat k) l).

(** [Math.ceil(a / b)] for a count [a] and a positive count [b]. *)
Definition ceilDiv (a b : Z) : Z := (a + b - 1) / b.

(** [[...new Set(xs)]]: the distinct elements, in order of first
    occurrence. *)
Fixpoint distinct (xs : list string) : list string :=
  match xs with
  | [] => []
  | x :: xs' =>
      x :: List.filter (fun y => negb (String.eqb x y)) (distinct xs')
  end.

End Js.

(** The builtins whose result depends on the engine's Unicode and locale
    data.  [dateParse] is the time value of [new Date(s)], [None] for an
    invalid date. *)
Class Platform := {
  toLowerCase : string -> string;
  localeCompare : string -> string -> Z;
  dateParse : string -> option Z
}.

(** The platform on ASCII text: letters [A]-[Z] are lowered, strings are
    compared by code unit, a date is a plain count of milliseconds. *)
Module Ascii7.

Definition lowerChar (c : ascii) : ascii :=
  let n := N_of_ascii c in
  if ((65 <=? n) && (n <=? 90))%N then ascii_of_N (n + 32) else c.

Fixpoint lower (s : string) : string :=
  match s with
  | EmptyString => EmptyString
  | String c s' => String (lowerChar c) (lower s')
  end.

Fixpoint digits (s : string) (acc : Z) : option Z :=
  match s with
  | EmptyString => Some acc
  | String c s' =>
      let n := N_of_ascii c in
      if ((48 <=? n) && (n <=? 57))%N
      then digits s' (10 * acc + Z.of_N (n - 48))
      else None
  end.

Definition millis (s : string) : option Z :=
  match s with
  | EmptyString => None
  | _ => digits s 0
  end.

End Ascii7.

Definition AsciiPlatform : Platform :=
  {| toLowerCase := Ascii7.lower;
     localeCompare := Js.codeUnitCompare;
     dateParse := Ascii7.millis |}.

(** ** Data model *)

(** One entry of the [projects] array of [projects.json]. *)
Record Project := {
  name : string;
  author : string;
  authorAvatar : string;
  authorUrl : string;
  projectUrl : string;
  projectFullUrl : string;
  description : option string;
  language : option string;
  stars : Z;
  forks : Z;
  lastUpdated : string;
  createdAt : string;
  latestVersion : option string;
  latestReleaseUrl : option string;
  latestReleaseDate : option string;
  requiredFirmware : string
}.

(** [this.currentFilters]. *)
Module Filters.
Record t := mk {
  search : string;
  language : string;
  sortBy : string
}.
End Filters.

(** ** Number formatting *)

(** Numbers are IEEE doubles: the division of [formatNumber] is the
    primitive float division and [toFixed] rounds the exact binary value
    of its receiver, ties going to the larger candidate. *)
Module Number.

(** The double nearest to an integer of magnitude below [2^63]; the
    conversion is exact up to [2^53]. *)
Definition ofZ (z : Z) : float :=
  match z with
  | Z0 => PrimFloat.of_uint63 (Uint63.of_Z 0)
  | Zpos _ => PrimFloat.of_uint63 (Uint63.of_Z z)
  | Zneg p => PrimFloat.opp (PrimFloat.of_uint63 (Uint63.of_Z (Zpos p)))
  end.

(** [Number.prototype.toString] of an integer below [10^21]. *)
Definition toString (z : Z) : string :=
  DecimalString.NilZero.string_of_int (Z.to_int z).

(** The integer [n] for which [n / 10^f] is closest to [m * 2^e]; of two
    such integers, the larger. *)
Definition nearestScaled (m : positive) (e : Z) (f : nat) : Z :=
  let scaled := Zpos m * 10 ^ Z.of_nat f in
  if 0 <=? e then scaled * 2 ^ e
  else (2 * scaled + 2 ^ (- e)) / (2 * 2 ^ (- e)).

Fixpoint zeros (k : nat) : string :=
  match k with
  | O => EmptyString
  | S k' => String "0" (zeros k')
  end.

(** The digits of [n] with a point in front of the last [f] of them,
    padded with zeros up to [f + 1] digits. *)
Definition pointed (n : Z) (f : nat) : string :=
  let m := toString n in
  match f with
  | O => m
  | S _ =>
      let k := String.length m in
      let m' := if (k <=? f)%nat then String.append (zeros (f + 1 - k)) m else m in
      let k' := String.length m' in
      String.append (String.substring 0 (k' - f) m')
        (String "." (String.substring (k' - f) f m'))
  end.

(** [Number.prototype.toFixed(f)].  Magnitudes from [10^21] on, which the
    engine prints in exponent notation, do not arise from the counts
    formatted here and are printed in full. *)
Definition toFixed (x : float) (f : nat) : string :=
  match Prim2SF x with
  | S754_nan => "NaN"
  | S754_infinity false => "Infinity"
  | S754_infinity true => "-Infinity"
  | S754_zero _ => pointed 0 f
  | S754_finite s m e =>
      String.append (if s then "-" else "") (pointed (nearestScaled m e f) f)
  end.

End Number.

(** [NXProjectsTracker.formatNumber(num)], for an integer count. *)
Definition formatNumber (num : Z) : string :=
  if 1000000 <=? num then
    String.append (Number.toFixed (Number.ofZ num / Number.ofZ 1000000)%float 1) "M"
  else if 1000 <=? num then
    String.append (Number.toFixed (Number.ofZ num / Number.ofZ 1000)%float 1) "K"
  else Number.toString num.

Module NumberUtils.

(** [NumberUtils.format(num, decimals)]; [None] is [null] or
    [undefined], and the caller that omits [decimals] passes [1]. *)
Definition format (num : option Z) (decimals : nat) : string :=
  match num with
  | None => "0"
  | Some num =>
      if 1000000000 <=? num then
        String.append
          (Number.toFixed (Number.ofZ num / Number.ofZ 1000000000)%float decimals) "B"
      else if 1000000 <=? num then
        String.append
          (Number.toFixed (Number.ofZ num / Number.ofZ 1000000)%float decimals) "M"
      else if 1000 <=? num then
        String.append
          (Number.toFixed (Number.ofZ num / Number.ofZ 1000)%float decimals) "K"
      else Number.toString num
  end.

End NumberUtils.

(** ** Filtering and sorting: the body of [filterProjects] on array values *)

Section Filtering.
Context `{Platform}.

(** The arrow function of the search filter; [searchTerm] is already
    lowered.  A description takes part only when it is truthy. *)
Definition matchesSearch (searchTerm : string) (project : Project) : bool :=
  Js.includes (toLowerCase (name project)) searchTerm
  || Js.includes (toLowerCase (author project)) searchTerm
  || match description project with
     | Some d => Js.truthy d && Js.includes (toLowerCase d) searchTerm
     | None => false
     end.

(** [project.language === this.currentFilters.language]. *)
Definition matchesLanguage (selected : string) (project : Project) : bool :=
  match language project with
  | Some l => String.eqb l selected
  | None => false
  end.

(** [new Date(b) - new Date(a)]; the difference is [NaN] when either date
    is invalid, and [sort] reads a [NaN] result as [0]. *)
Definition dateDiff (b a : string) : Z :=
  match dateParse b, dateParse a with
  | Some tb, Some ta => tb - ta
  | _, _ => 0
  end.

(** The comparator handed to [sort]: the [switch] on [sortBy]. *)
Definition compareProjects (sortBy : string) (a b : Project) : Z :=
  if String.eqb sortBy "stars" then stars b - stars a
  else if String.eqb sortBy "forks" then forks b - forks a
  else if String.eqb sortBy "name" then localeCompare (name a) (name b)
  else if String.eqb sortBy "author" then localeCompare (author a) (author b)
  else if String.eqb sortBy "latest" then dateDiff (lastUpdated b) (lastUpdated a)
  else if String.eqb sortBy "created" then dateDiff (createdAt b) (createdAt a)
  else stars b - stars a.

(** The search step: skipped when the search string is empty. *)
Definition searchStep (search : string) (filtered : list Project) : list Project :=
  if Js.truthy search
  then List.filter (matchesSearch (toLowerCase search)) filtered
  else filtered.

(** The language step: skipped when the selection is ["all"]. *)
Definition languageStep (selected : string) (filtered : list Project) : list Project :=
  if negb (String.eqb selected "all")
  then List.filter (matchesLanguage selected) filtered
  else filtered.

(** The array [filterProjects] stores in [this.filteredProjects], from the
    contents of [this.projects] and [this.currentFilters]. *)
Definition filterSort (projects : list Project) (f : Filters.t) : list Project :=
  let filtered := projects in
  let filtered := searchStep (Filters.search f) filtered in
  let filtered := languageStep (Filters.language f) filtered in
  Js.sort (compareProjects (Filters.sortBy f)) filtered.

End Filtering.

(** ** The application object, its effects and the method monad *)

(** The fields of an [NXProjectsTracker] instance.  The copy of the class
    without pagination has no page fields; its methods leave them alone. *)
Record App := mkApp {
  projects : list Project;
  filteredProjects : list Project;
  currentFilters : Filters.t;
  currentPage : Z;
  itemsPerPage : Z;
  totalPages : Z
}.

Definition setProjects (v : list Project) (this : App) : App :=
  mkApp v (filteredProjects this) (currentFilters this)
        (currentPage this) (itemsPerPage this) (totalPages this).

Definition setFilteredProjects (v : list Project) (this : App) : App :=
  mkApp (projects this) v (currentFilters this)
        (currentPage this) (itemsPerPage this) (totalPages this).

Definition setCurrentFilters (v : Filters.t) (this : App) : App :=
  mkApp (projects this) (filteredProjects this) v
        (currentPage this) (itemsPerPage this) (totalPages this).

Definition setCurrentPage (v : Z) (this : App) : App :=
  mkApp (projects this) (filteredProjects this) (currentFilters this)
        v (itemsPerPage this) (totalPages this).

Definition setTotalPages (v : Z) (this : App) : App :=
  mkApp (projects this) (filteredProjects this) (currentFilters this)
        (currentPage this) (itemsPerPage this) v.

(** The message shown in the [no-results] element by the copy without
    pagination. *)
Inductive NoResultsMessage := NoProjectData | NoProjectsFound.

(** One entry of the page-number strip. *)
Inductive PageItem :=
| PageButton (page : Z) (active : bool)
| Ellipsis.

(** What a method does to the page and to the console, in the order it
    does it.  A grid of cards is recorded as the projects the cards are
    made from. *)
Inductive Effect :=
| GridHtml (cards : list Project)
| NoResultsDisplay (shown : bool)
| NoResultsHtml (message : NoResultsMessage)
| ErrorStateDisplay (shown : bool)
| ErrorMessageText (message : string)
| LoadingScreenDisplay (shown : bool)
| LoadingScreenHidden
| MainDisplay (shown : bool)
| TotalProjectsText (text : string)
| TotalStarsText (text : string)
| TotalForksText (text : string)
| TotalLanguagesText (count : Z)
| LanguageFilterOptions (languages : list string)
| ClearSearchDisplay (shown : bool)
| SearchInputValue (value : string)
| LastUpdatedText
| PaginationDisplay (shown : bool)
| PaginationInfoText (startItem endItem total : Z)
| PrevDisabled (disabled : bool)
| NextDisabled (disabled : bool)
| PaginationPagesHtml (items : list PageItem)
| ScrollToTop
| CreateIcons
| ConsoleWarn (message : string)
| ConsoleError (message : string)
| ConsoleLog (totalProjects filtered pages : Z).

(** How a call ends: normally with a value, or by throwing. *)
Inductive Completion (A : Type) : Type :=
| Normal (a : A)
| Throw (error : string).
Arguments Normal {A} a.
Arguments Throw {A} error.

(** A method run: from the object's fields to the way the call ends, the
    fields afterwards and the effects performed. *)
Definition M (A : Type) : Type := App -> Completion A * App * list Effect.

#[global] Instance M_ret : MRet M :=
  fun A (a : A) (this : App) => (Normal a, this, []).

#[global] Instance M_bind : MBind M :=
  fun A B (k : A -> M B) (m : M A) (this : App) =>
    match m this with
    | (Normal a, this', w) =>
        match k a this' with
        | (r, this'', w') => (r, this'', (w ++ w')%list)
        end
    | (Throw e, this', w) => (Throw e, this', w)
    end.

Definition get : M App := fun this => (Normal this, this, []).

Definition modify (f : App -> App) : M unit := fun this => (Normal tt, f this, []).

Definition tell (w : list Effect) : M unit := fun this => (Normal tt, this, w).

Definition throw {A : Type} (error : string) : M A := fun this => (Throw error, this, []).

(** [try { m } catch (error) { handler(error) }]. *)
Definition tryCatch {A : Type} (m : M A) (handler : string -> M A) : M A :=
  fun this =>
    match m this with
    | (Normal a, this', w) => (Normal a, this', w)
    | (Throw e, this', w) =>
        match handler e this' with
        | (r, this'', w') => (r, this'', (w ++ w')%list)
        end
    end.

Definition outcome {A : Type} (r : Completion A * App * list Effect) : Completion A := r.1.1.
Definition after {A : Type} (r : Completion A * App * list Effect) : App := r.1.2.
Definition effects {A : Type} (r : Completion A * App * list Effect) : list Effect := r.2.

(** The object the constructor builds, before [init] runs. *)
Definition constructed : App :=
  mkApp [] [] (Filters.mk "" "all" "stars") 1 12 1.

(** ** Loading the JSON artifact *)

(** A parsed document: [null], or a value whose [projects] property is
    absent (or falsy) or an array of records. *)
Inductive JsonDoc :=
| JsonNull
| JsonValue (projectsField : option (list Project)).

Inductive Body :=
| Malformed
| Parsed (doc : JsonDoc).

(** What [fetch('./data/projects.json')] comes back with. *)
Inductive FetchOutcome :=
| NetworkFailure
| HttpResponse (ok : bool) (body : Body).

(** [await fetch(...)]: rejects when the request cannot be made. *)
Definition fetchResponse (out : FetchOutcome) : M (bool * Body) :=
  match out with
  | NetworkFailure => throw "TypeError: Failed to fetch"
  | HttpResponse ok body => mret (ok, body)
  end.

(** [await response.json()]: rejects on text that is not JSON. *)
Definition responseJson (body : Body) : M JsonDoc :=
  match body with
  | Malformed => throw "SyntaxError: Unexpected token"
  | Parsed doc => mret doc
  end.

(** [data.projects]: a property read, which throws on [null]. *)
Definition projectsProperty (data : JsonDoc) : M (option (list Project)) :=
  match data with
  | JsonNull => throw "TypeError: Cannot read properties of null"
  | JsonValue field => mret field
  end.

(** [loadProjects()].  The [try] block yields [true] when it ends in its
    [return] and [false] when control falls out of it. *)
Definition loadProjects (out : FetchOutcome) : M unit :=
  returned ← tryCatch
    ('(ok, body) ← fetchResponse out;
     if ok : bool then
       data ← responseJson body;
       field ← projectsProperty data;
       modify (setProjects (default [] field));;
       mret true
     else mret false)
    (fun _ =>
       tell [ConsoleWarn "Could not load from ./data/projects.json"];;
       mret false);
  if returned : bool then mret tt
  else
    modify (setProjects []);;
    tell [ConsoleWarn "No project data available. Please ensure ./data/projects.json exists."].

(** ** Methods shared by both copies of the class *)

(** [xs.filter(Boolean)] on language values: absent and empty ones go. *)
Fixpoint truthyStrings (xs : list (option string)) : list string :=
  match xs with
  | [] => []
  | Some s :: xs' => if Js.truthy s then s :: truthyStrings xs' else truthyStrings xs'
  | None :: xs' => truthyStrings xs'
  end.

(** [[...new Set(projects.map(p => p.language).filter(Boolean))]]. *)
Definition languagesOf (ps : list Project) : list string :=
  Js.distinct (truthyStrings (map language ps)).

Definition totalStarsOf (ps : list Project) : Z :=
  fold_left (fun sum project => sum + stars project) ps 0.

Definition totalForksOf (ps : list Project) : Z :=
  fold_left (fun sum project => sum + forks project) ps 0.

(** The four writes of [updateStats] for a collection. *)
Definition statsEffects (ps : list Project) : list Effect :=
  [ TotalProjectsText (formatNumber (Z.of_nat (length ps)));
    TotalStarsText (formatNumber (totalStarsOf ps));
    TotalForksText (formatNumber (totalForksOf ps));
    TotalLanguagesText (Z.of_nat (length (languagesOf ps))) ].

(** [updateStats()]. *)
Definition updateStats : M unit :=
  this ← get;
  tell (statsEffects (projects this)).

(** [updateLanguageFilter()]. *)
Definition updateLanguageFilter : M unit :=
  this ← get;
  tell [LanguageFilterOptions (Js.sort Js.codeUnitCompare (languagesOf (projects this)))].

(** [updateClearSearchButton()]. *)
Definition updateClearSearchButton : M unit :=
  this ← get;
  tell [ClearSearchDisplay (Js.truthy (Filters.search (currentFilters this)))].

(** [hideLoadingScreen()]. *)
Definition hideLoadingScreen : M unit := tell [LoadingScreenHidden].

(** [showError(message)]. *)
Definition showError (message : string) : M unit :=
  tell [ErrorMessageText message; LoadingScreenDisplay false;
        MainDisplay false; ErrorStateDisplay true].

Section FilterProjects.
Context `{Platform}.

(** [filterProjects()]: recomputes [this.filteredProjects] from
    [this.projects] and [this.currentFilters]. *)
Definition filterProjects : M unit :=
  this ← get;
  modify (setFilteredProjects (filterSort (projects this) (currentFilters this))).

End FilterProjects.

Definition withSearch (v : string) (f : Filters.t) : Filters.t :=
  Filters.mk v (Filters.language f) (Filters.sortBy f).

Definition withLanguage (v : string) (f : Filters.t) : Filters.t :=
  Filters.mk (Filters.search f) v (Filters.sortBy f).

Definition withSortBy (v : string) (f : Filters.t) : Filters.t :=
  Filters.mk (Filters.search f) (Filters.language f) v.

Definition updateFilters (g : Filters.t -> Filters.t) : M unit :=
  modify (fun this => setCurrentFilters (g (currentFilters this)) this).

(** ** The class with pagination *)

Module Paged.

(** [renderProjects()]: the two empty states return early; otherwise the
    cards of the current page are written and the statistics updated. *)
Definition renderProjects : M unit :=
  this ← get;
  if Z.of_nat (length (projects this)) =? 0 then
    tell [GridHtml []; NoResultsDisplay false; ErrorStateDisplay true]
  else if Z.of_nat (length (filteredProjects this)) =? 0 then
    tell [GridHtml []; NoResultsDisplay true; ErrorStateDisplay false]
  else
    tell [NoResultsDisplay false; ErrorStateDisplay false];;
    let startIndex := (currentPage this - 1) * itemsPerPage this in
    let endIndex := startIndex + itemsPerPage this in
    let projectsToShow := Js.slice (filteredProjects this) startIndex endIndex in
    tell [GridHtml projectsToShow; CreateIcons];;
    updateStats.

(** [createPageNumber(pageNum)]. *)
Definition createPageNumber (this : App) (pageNum : Z) : PageItem :=
  PageButton pageNum (pageNum =? currentPage this).

(** The values of [i] in [for (let i = lo; i <= hi; i++)]. *)
Definition pageRange (lo hi : Z) : list Z :=
  map (fun i => lo + Z.of_nat i) (seq 0 (Z.to_nat (hi - lo + 1))).

(** [generatePageNumbers()]. *)
Definition generatePageNumbers (this : App) : list PageItem :=
  let maxVisiblePages := 5 in
  if totalPages this <=? 1 then [createPageNumber this 1]
  else if totalPages this <=? maxVisiblePages then
    map (createPageNumber this) (pageRange 1 (totalPages this))
  else if currentPage this <=? 3 then
    (map (createPageNumber this) (pageRange 1 3)
     ++ [Ellipsis; createPageNumber this (totalPages this)])%list
  else if totalPages this - 2 <=? currentPage this then
    ([createPageNumber this 1; Ellipsis]
     ++ map (createPageNumber this) (pageRange (totalPages this - 2) (totalPages this)))%list
  else
    ([createPageNumber this 1; Ellipsis]
     ++ map (createPageNumber this) (pageRange (currentPage this - 1) (currentPage this + 1))
     ++ [Ellipsis; createPageNumber this (totalPages this)])%list.

(** [renderPagination()]: with nothing to show the bar is hidden and the
    method returns; otherwise the page count is recomputed and the bar
    redrawn. *)
Definition renderPagination : M unit :=
  this ← get;
  let total := Z.of_nat (length (filteredProjects this)) in
  if total =? 0 then tell [PaginationDisplay false]
  else
    modify (setTotalPages (Js.ceilDiv total (itemsPerPage this)));;
    this ← get;
    tell [PaginationDisplay true];;
    let startItem := (currentPage this - 1) * itemsPerPage this + 1 in
    let endItem := Z.min (currentPage this * itemsPerPage this) total in
    tell [PaginationInfoText startItem endItem total;
          PrevDisabled (currentPage this =? 1);
          NextDisabled (currentPage this =? totalPages this);
          PaginationPagesHtml (generatePageNumbers this)].

(** [goToPage(page)]. *)
Definition goToPage (page : Z) : M unit :=
  modify (setCurrentPage page);;
  renderProjects;;
  renderPagination;;
  tell [ScrollToTop].

(** What the user can do on the page; [RetryClick] carries what the new
    fetch will come back with. *)
Inductive Event :=
| SearchInput (value : string)
| ClearSearchClick
| LanguageChange (value : string)
| SortChange (value : string)
| RetryClick (out : FetchOutcome)
| PrevClick
| NextClick
| PageClick (page : Z).

Section Methods.
Context `{Platform}.

(** [filterAndRender()]. *)
Definition filterAndRender : M unit :=
  filterProjects;;
  modify (setCurrentPage 1);;
  renderProjects;;
  renderPagination.

(** [init()]; [setupEventListeners()] leaves the listeners of [handle]
    behind and stamps the page with the current time. *)
Definition init (out : FetchOutcome) : M unit :=
  tryCatch
    (tell [CreateIcons];;
     loadProjects out;;
     tell [LastUpdatedText];;
     updateStats;;
     updateLanguageFilter;;
     filterProjects;;
     renderProjects;;
     renderPagination;;
     this ← get;
     tell [ConsoleLog (Z.of_nat (length (projects this)))
                      (Z.of_nat (length (filteredProjects this)))
                      (totalPages this);
           CreateIcons];;
     hideLoadingScreen)
    (fun _ =>
       tell [ConsoleError "Failed to initialize app:"];;
       showError "Failed to load projects. Please try again.").

(** [retry()]. *)
Definition retry (out : FetchOutcome) : M unit :=
  tell [ErrorStateDisplay false; LoadingScreenDisplay true; MainDisplay true];;
  tryCatch
    (loadProjects out;;
     updateStats;;
     updateLanguageFilter;;
     filterAndRender;;
     hideLoadingScreen)
    (fun _ => showError "Failed to load projects. Please try again.").

(** The listeners registered by [setupEventListeners()] and
    [setupPaginationEventListeners()]. *)
Definition handle (e : Event) : M unit :=
  match e with
  | SearchInput value =>
      updateFilters (withSearch value);;
      updateClearSearchButton;;
      filterAndRender
  | ClearSearchClick =>
      tell [SearchInputValue ""];;
      updateFilters (withSearch "");;
      updateClearSearchButton;;
      filterAndRender
  | LanguageChange value =>
      updateFilters (withLanguage value);;
      filterAndRender
  | SortChange value =>
      updateFilters (withSortBy value);;
      filterAndRender
  | RetryClick out => retry out
  | PrevClick =>
      this ← get;
      if 1 <? currentPage this then goToPage (currentPage this - 1) else mret tt
  | NextClick =>
      this ← get;
      if currentPage this <? totalPages this then goToPage (currentPage this + 1)
      else mret tt
  | PageClick page => goToPage page
  end.

End Methods.

End Paged.

(** ** The class without pagination *)

Module Unpaged.

(** [renderProjects()]: all filtered projects are drawn at once. *)
Definition renderProjects : M unit :=
  this ← get;
  if Z.of_nat (length (projects this)) =? 0 then
    tell [GridHtml []; NoResultsDisplay true; NoResultsHtml NoProjectData; CreateIcons]
  else if Z.of_nat (length (filteredProjects this)) =? 0 then
    tell [GridHtml []; NoResultsDisplay true; NoResultsHtml NoProjectsFound; CreateIcons]
  else
    tell [NoResultsDisplay false; GridHtml (filteredProjects this); CreateIcons].

Inductive Event :=
| SearchInput (value : string)
| ClearSearchClick
| LanguageChange (value : string)
| SortChange (value : string)
| RetryClick (out : FetchOutcome).

Section Methods.
Context `{Platform}.

(** [filterAndRender()]. *)
Definition filterAndRender : M unit :=
  filterProjects;;
  renderProjects.

(** [init()]. *)
Definition init (out : FetchOutcome) : M unit :=
  tryCatch
    (tell [CreateIcons];;
     loadProjects out;;
     tell [LastUpdatedText];;
     updateStats;;
     updateLanguageFilter;;
     filterProjects;;
     renderProjects;;
     tell [CreateIcons];;
     hideLoadingScreen)
    (fun _ =>
       tell [ConsoleError "Failed to initialize app:"];;
       showError "Failed to load projects. Please try again.").

(** [retry()]. *)
Definition retry (out : FetchOutcome) : M unit :=
  tell [ErrorStateDisplay false; LoadingScreenDisplay true; MainDisplay true];;
  tryCatch
    (loadProjects out;;
     updateStats;;
     updateLanguageFilter;;
     filterAndRender;;
     hideLoadingScreen)
    (fun _ => showError "Failed to load projects. Please try again.").

Definition handle (e : Event) : M unit :=
  match e with
  | SearchInput value =>
      updateFilters (withSearch value);;
      updateClearSearchButton;;
      filterAndRender
  | ClearSearchClick =>
      tell [SearchInputValue ""];;
      updateFilters (withSearch "");;
      updateClearSearchButton;;
      filterAndRender
  | LanguageChange value =>
      updateFilters (withLanguage value);;
      filterAndRender
  | SortChange value =>
      updateFilters (withSortBy value);;
      filterAndRender
  | RetryClick out => retry out
  end.

End Methods.

End Unpaged.

(** ** [filterProjects] over a store of arrays

    Arrays are objects: [this.projects] and [this.filteredProjects] hold
    references, the spread and [filter] allocate a new array each, and
    [sort] rewrites the array it is called on. *)

Module Store.

Abbreviation heap := (gmap nat (list Project)).

(** The fields of the object, as references. *)
Record Obj := mkObj {
  projectsRef : nat;
  filteredProjectsRef : nat;
  filters : Filters.t
}.

(** A new array object with the given contents. *)
Definition alloc (arr : list Project) (h : heap) : nat * heap :=
  let r := fresh (dom h) in (r, <[r := arr]> h).

(** [[...a]]. *)
Definition spread (a : nat) (h : heap) : option (nat * heap) :=
  arr ← h !! a; Some (alloc arr h).

(** [a.filter(pred)]. *)
Definition arrayFilter (pred : Project -> bool) (a : nat) (h : heap)
  : option (nat * heap) :=
  arr ← h !! a; Some (alloc (List.filter pred arr) h).

(** [a.sort(cmp)]: in place. *)
Definition arraySort (cmp : Project -> Project -> Z) (a : nat) (h : heap)
  : option heap :=
  arr ← h !! a; Some (<[a := Js.sort cmp arr]> h).

Section Methods.
Context `{Platform}.

(** [filterProjects()], statement by statement; [None] only when a
    reference dangles. *)
Definition filterProjects (this : Obj) (h : heap) : option (Obj * heap) :=
  let f := filters this in
  '(filtered, h) ← spread (projectsRef this) h;
  '(filtered, h) ←
    (if Js.truthy (Filters.search f)
     then arrayFilter (matchesSearch (toLowerCase (Filters.search f))) filtered h
     else Some (filtered, h));
  '(filtered, h) ←
    (if negb (String.eqb (Filters.language f) "all")
     then arrayFilter (matchesLanguage (Filters.language f)) filtered h
     else Some (filtered, h));
  h ← arraySort (compareProjects (Filters.sortBy f)) filtered h;
  Some (mkObj (projectsRef this) filtered (filters this), h).

End Methods.

End Store.

(** ** Sample data *)

Definition sampleProject (n a : string) (d l : option string) (s f : Z) : Project :=
  {| name := n; author := a; authorAvatar := ""; authorUrl := "";
     projectUrl := String.append a (String "/" n); projectFullUrl := "";
     description := d; language := l; stars := s; forks := f;
     lastUpdated := "0"; createdAt := "0";
     latestVersion := None; latestReleaseUrl := None; latestReleaseDate := None;
     requiredFirmware := "20.2.0" |}.

Definition atmosphere : Project :=
  sampleProject "Core" "SciresM" (Some "atmosphere firmware") (Some "C++") 5 2.

Definition hekate : Project :=
  sampleProject "hekate" "CTCaer" (Some "bootloader") (Some "C") 50 7.

Definition tinfoil : Project :=
  sampleProject "Tinfoil" "Adubbz" None None 1 0.

Definition sampleProjects : list Project := [atmosphere; hekate; tinfoil].

Definition noFilters : Filters.t := Filters.mk "" "all" "stars".

(** Twenty-five records, with 100, 99, ..., 76 stars. *)
Definition manyProjects : list Project :=
  map (fun i => sampleProject "project" "author" None (Some "C") (100 - Z.of_nat i) 0)
      (seq 0 25).

(** A document with the three sample records, and the object after [init]
    has loaded it. *)
Definition sampleDocument : FetchOutcome :=
  HttpResponse true (Parsed (JsonValue (Some sampleProjects))).

Definition loadedApp : App :=
  after (Paged.init (H := AsciiPlatform) sampleDocument constructed).

(** The object after [init] has loaded the twenty-five records, in the
    class with pagination and in the class without. *)
Definition manyDocument : FetchOutcome :=
  HttpResponse true (Parsed (JsonValue (Some manyProjects))).

Definition manyLoadedApp : App :=
  after (Paged.init (H := AsciiPlatform) manyDocument constructed).

Definition manyLoadedUnpagedApp : App :=
  after (Unpaged.init (H := AsciiPlatform) manyDocument constructed).

(** ** The claims' own words *)

(** [Substring t s]: [t] occurs in [s]. *)
Definition Substring (t s : string) : Prop :=
  exists a b, s = String.append a (String.append t b).

(** [a] may stand in front of [b] when sorting by [key], largest first. *)
Definition descending {A : Type} (key : A -> Z) (a b : A) : Prop := key b <= key a.

(** The search predicate as the specification words it: the lowered
    search string occurs in the lowered name, or in the lowered author, or
    in the lowered description when there is a non-empty one. *)
Definition SearchMatch `{Platform} (search : string) (p : Project) : Prop :=
  Substring (toLowerCase search) (toLowerCase (name p))
  \/ Substring (toLowerCase search) (toLowerCase (author p))
  \/ exists d, description p = Some d /\ d <> ""
               /\ Substring (toLowerCase search) (toLowerCase d).

(** The sum of a numeric field over a collection. *)
Definition sumOf (key : Project -> Z) (ps : list Project) : Z :=
  fold_right (fun p acc => key p + acc) 0 ps.

(** The language predicate: no selection, or exactly the selected one. *)
Definition LanguageMatch (selected : string) (p : Project) : Prop :=
  selected = "all" \/ language p = Some selected.

(** ** Reading a trace *)

(** The cards in the grid after a trace: what its last [GridHtml] wrote. *)
Fixpoint shownCards (w : list Effect) : option (list Project) :=
  match w with
  | [] => None
  | e :: w' =>
      match shownCards w' with
      | Some cards => Some cards
      | None => match e with GridHtml cards => Some cards | _ => None end
      end
  end.

Definition isStatsEffect (e : Effect) : bool :=
  match e with
  | TotalProjectsText _ | TotalStarsText _ | TotalForksText _
  | TotalLanguagesText _ => true
  | _ => false
  end.

(** The writes to the four statistics elements in a trace. *)
Definition statsWrites (w : list Effect) : list Effect := List.filter isStatsEffect w.

Definition isConsoleEffect (e : Effect) : bool :=
  match e with
  | ConsoleWarn _ | ConsoleError _ | ConsoleLog _ _ _ => true
  | _ => false
  end.

(** What a trace does to the page: everything but console output. *)
Definition pageEffects (w : list Effect) : list Effect :=
  List.filter (fun e => negb (isConsoleEffect e)) w.

(** Page [p] of a list, [perPage] items a page: the items at indices
    [(p - 1) * perPage] up to, not including, [p * perPage]. *)
Definition pageSlice {A : Type} (l : list A) (perPage p : Z) : list A :=
  take (Z.to_nat perPage) (drop (Z.to_nat ((p - 1) * perPage)) l).

(** The ways of not obtaining the JSON artifact: the request fails, the
    response is not OK, or its text is not JSON. *)
Inductive Unobtainable : FetchOutcome -> Prop :=
| Unobtainable_network : Unobtainable NetworkFailure
| Unobtainable_status (body : Body) : Unobtainable (HttpResponse false body)
| Unobtainable_malformed : Unobtainable (HttpResponse true Malformed).

(** ** Sessions of the paginated class *)

(** What [loadProjects] stores for an outcome of the fetch. *)
Definition loadedProjects (out : FetchOutcome) : list Project :=
  match out with
  | HttpResponse true (Parsed (JsonValue field)) => default [] field
  | _ => []
  end.

(** A page button the user can click: the bar is shown and the button is
    one of those drawn for the current state. *)
Definition clickable (this : App) (page : Z) : Prop :=
  filteredProjects this <> []
  /\ exists active, In (PageButton page active) (Paged.generatePageNumbers this).

Definition enabled (e : Paged.Event) (this : App) : Prop :=
  match e with
  | Paged.PageClick page => clickable this page
  | _ => True
  end.

Section Sessions.
Context `{Platform}.

(** The states a session passes through, each with the trace so far:
    [init] on the constructed object, then one listener per event. *)
Inductive reachable : App -> list Effect -> Prop :=
| reachable_init (out : FetchOutcome) :
    reachable (after (Paged.init out constructed))
              (effects (Paged.init out constructed))
| reachable_event (this : App) (w : list Effect) (e : Paged.Event) :
    reachable this w ->
    enabled e this ->
    reachable (after (Paged.handle e this))
              (w ++ effects (Paged.handle e this))%list.

(** What holds of every such state: the page size is the constructor's,
    the page number is positive, the stored list is the filter of the
    collection, the page count is current whenever the bar is shown, and
    the last statistics written are those of the collection. *)
Definition consistent (this : App) (w : list Effect) : Prop :=
  itemsPerPage this = 12
  /\ 1 <= currentPage this
  /\ filteredProjects this = filterSort (projects this) (currentFilters this)
  /\ (filteredProjects this <> [] ->
      totalPages this
      = Js.ceilDiv (Z.of_nat (length (filteredProjects this))) (itemsPerPage this)
      /\ currentPage this <= totalPages this)
  /\ exists earlier,
      statsWrites w = (earlier ++ statsEffects (projects this))%list.

End Sessions.

(** ** Reading the page-number strip *)

(** The button drawn as the current page. *)
Definition isActive (item : PageItem) : bool :=
  match item with
  | PageButton _ active => active
  | Ellipsis => false
  end.

(** The page numbers on the buttons of a strip, left to right. *)
Fixpoint buttonPages (items : list PageItem) : list Z :=
  match items with
  | [] => []
  | PageButton page _ :: items' => page :: buttonPages items'
  | Ellipsis :: items' => buttonPages items'
  end.

(** ** Reading a trace for the failure screen *)

(** The write of [showError] to the [error-message] element. *)
Definition isErrorMessage (e : Effect) : bool :=
  match e with
  | ErrorMessageText _ => true
  | _ => false
  end.

(** ** Orders on the sorted list *)

(** [a] may stand in front of [b] when sorting by a string key, smallest
    first in the platform's collation. *)
Definition ascending `{Platform} (key : Project -> string) (a b : Project) : Prop :=
  localeCompare (key a) (key b) <= 0.

(** [a] may stand in front of [b] when sorting by a date key, newest
    first: both dates are valid and [a]'s is not the earlier one. *)
Definition newestFirst `{Platform} (key : Project -> string) (a b : Project) : Prop :=
  exists ta tb,
    dateParse (key a) = Some ta /\ dateParse (key b) = Some tb /\ tb <= ta.

(** Strictly increasing by code unit. *)
Definition codeUnitLess (a b : string) : Prop := String.compare a b = Lt.

(** ** More sample data *)

(** A sample record with the given dates, as counts of milliseconds. *)
Definition dated (p : Project) (updated created : string) : Project :=
  {| name := name p; author := author p; authorAvatar := authorAvatar p;
     authorUrl := authorUrl p; projectUrl := projectUrl p;
     projectFullUrl := projectFullUrl p; description := description p;
     language := language p; stars := stars p; forks := forks p;
     lastUpdated := updated; createdAt := created;
     latestVersion := latestVersion p; latestReleaseUrl := latestReleaseUrl p;
     latestReleaseDate := latestReleaseDate p;
     requiredFirmware := requiredFirmware p |}.

Definition datedProjects : list Project :=
  [dated atmosphere "1000" "30"; dated hekate "3000" "10"; dated tinfoil "2000" "20"].

(** ** Dates

    A [Date] is its time value, a whole number of milliseconds of
    magnitude at most 8.64e15, or invalid ([None], the time value [NaN]).
    Differences of time values are exact in doubles, and for such a
    difference [Math.ceil] of its quotient by a day, an hour or a minute is
    the ceiling of the exact quotient. *)

Inductive DateStyle :=
| ShortDate  (* year numeric, month short, day numeric *)
| LongDate.  (* weekday long, year numeric, month long, day numeric *)

(** [Date.prototype.toLocaleDateString('en-US', options)] on a valid
    date: the engine's calendar and locale data. *)
Class DateLocale := {
  toLocaleDateString : DateStyle -> Z -> string
}.

(** The locale that prints the time value itself. *)
Definition PlainDateLocale : DateLocale :=
  {| toLocaleDateString := fun _ t => Number.toString t |}.

Section Dates.
Context `{Platform} `{DateLocale}.

(** [toLocaleDateString] on any date; an invalid one prints as
    ["Invalid Date"]. *)
Definition localeDate (style : DateStyle) (date : option Z) : string :=
  match date with
  | Some t => toLocaleDateString style t
  | None => "Invalid Date"
  end.

(** [`${weeks} week${weeks > 1 ? 's' : ''} ago`] and its likes. *)
Definition agoText (count : Z) (unit : string) : string :=
  String.append (Number.toString count)
    (String.append " "
       (String.append unit
          (String.append (if 1 <? count then "s" else "") " ago"))).

(** [NXProjectsTracker.formatDate(dateString)] at the time [now].  On an
    invalid date every comparison with [diffDays] is false and the last
    branch is taken. *)
Definition formatDate (now : Z) (dateString : option string) : string :=
  match dateString with
  | None => "N/A"
  | Some s =>
      if negb (Js.truthy s) then "N/A"
      else
        match dateParse s with
        | None => localeDate ShortDate None
        | Some date =>
            let diffTime := Z.abs (now - date) in
            let diffDays := Js.ceilDiv diffTime (1000 * 60 * 60 * 24) in
            if diffDays =? 1 then "Today"
            else if diffDays =? 2 then "Yesterday"
            else if diffDays <=? 7 then
              String.append (Number.toString (diffDays - 1)) " days ago"
            else if diffDays <=? 30 then
              let weeks := diffDays / 7 in
              agoText weeks "week"
            else localeDate ShortDate (Some date)
        end
  end.

End Dates.

Module DateUtils.
Section DateUtils.
Context `{Platform} `{DateLocale}.

(** [DateUtils.getRelativeTime(date, now)].  On an invalid date every
    comparison is false and the last branch prints [NaN] years. *)
Definition getRelativeTime (date : option Z) (now : Z) : string :=
  match date with
  | None => "NaN year ago"
  | Some date =>
      let diffTime := Z.abs (now - date) in
      let diffDays := Js.ceilDiv diffTime (1000 * 60 * 60 * 24) in
      let diffHours := Js.ceilDiv diffTime (1000 * 60 * 60) in
      let diffMinutes := Js.ceilDiv diffTime (1000 * 60) in
      if diffMinutes <? 60 then
        if diffMinutes =? 1 then "1 minute ago"
        else String.append (Number.toString diffMinutes) " minutes ago"
      else if diffHours <? 24 then
        if diffHours =? 1 then "1 hour ago"
        else String.append (Number.toString diffHours) " hours ago"
      else if diffDays =? 1 then "Yesterday"
      else if diffDays =? 2 then "2 days ago"
      else if diffDays <=? 7 then
        String.append (Number.toString (diffDays - 1)) " days ago"
      else if diffDays <=? 30 then
        let weeks := diffDays / 7 in
        agoText weeks "week"
      else if diffDays <=? 365 then
        let months := diffDays / 30 in
        agoText months "month"
      else
        let years := diffDays / 365 in
        agoText years "year"
  end.

(** [DateUtils.getShortDate(date)] and [DateUtils.getLongDate(date)]. *)
Definition getShortDate (date : option Z) : string := localeDate ShortDate date.

Definition getLongDate (date : option Z) : string := localeDate LongDate date.

(** [DateUtils.format(dateString, format)] at the time [now]; the caller
    that omits [format] passes ["relative"]. *)
Definition format (now : Z) (dateString : option string) (format : string) : string :=
  match dateString with
  | None => "N/A"
  | Some s =>
      if negb (Js.truthy s) then "N/A"
      else
        let date := dateParse s in
        if String.eqb format "relative" then getRelativeTime date now
        else if String.eqb format "short" then getShortDate date
        else if String.eqb format "long" then getLongDate date
        else getRelativeTime date now
  end.

End DateUtils.
End DateUtils.

(** The last character of a string. *)
Fixpoint lastChar (s : string) : option ascii :=
  match s with
  | EmptyString => None
  | String c EmptyString => Some c
  | String _ s' => lastChar s'
  end.

(** ** Strings and regular expressions

    A string is a sequence of code units below 256.  The character
    classes of the regular expressions are given by the code unit: [\w] is
    [[A-Za-z0-9_]], and [\s] holds the white space and line terminators of
    that range, the code units 9 to 13, 32 and 160. *)

Module JsString.

(** [String.prototype.substring(start, end)]: both indices are clamped to
    the string, and swapped when [start] is the larger. *)
Definition substring (s : string) (start stop : Z) : string :=
  let len := Z.of_nat (String.length s) in
  let a := Z.max 0 (Z.min start len) in
  let b := Z.max 0 (Z.min stop len) in
  String.substring (Z.to_nat (Z.min a b)) (Z.to_nat (Z.max a b - Z.min a b)) s.

Definition isDigit (c : ascii) : bool :=
  let n := N_of_ascii c in ((48 <=? n) && (n <=? 57))%N.

(** [\w]. *)
Definition isWordChar (c : ascii) : bool :=
  let n := N_of_ascii c in
  (isDigit c || ((65 <=? n) && (n <=? 90)) || ((97 <=? n) && (n <=? 122))
   || (n =? 95))%N.

(** [\s]. *)
Definition isWhiteSpace (c : ascii) : bool :=
  let n := N_of_ascii c in
  (((9 <=? n) && (n <=? 13)) || (n =? 32) || (n =? 160))%N.

Definition isDash (c : ascii) : bool := (N_of_ascii c =? 45)%N.

(** [s.replace(/[class]/g, '')]: the characters of the class are
    removed. *)
Fixpoint removeAll (class : ascii -> bool) (s : string) : string :=
  match s with
  | EmptyString => EmptyString
  | String c s' =>
      if class c then removeAll class s' else String c (removeAll class s')
  end.

(** [s.replace(/[class]+/g, by)]: every maximal run of characters of the
    class is replaced by one [by]; [inRun] tells that the character before
    belonged to the class. *)
Fixpoint replaceRuns (class : ascii -> bool) (by_ : ascii) (inRun : bool) (s : string)
  : string :=
  match s with
  | EmptyString => EmptyString
  | String c s' =>
      if class c then
        if inRun then replaceRuns class by_ true s'
        else String by_ (replaceRuns class by_ true s')
      else String c (replaceRuns class by_ false s')
  end.

(** [s.replace(/^[class]+/, '')]. *)
Fixpoint removeLeading (class : ascii -> bool) (s : string) : string :=
  match s with
  | EmptyString => EmptyString
  | String c s' => if class c then removeLeading class s' else s
  end.

(** [s.replace(/[class]+$/, '')]. *)
Fixpoint removeTrailing (class : ascii -> bool) (s : string) : string :=
  match s with
  | EmptyString => EmptyString
  | String c s' =>
      match removeTrailing class s' with
      | EmptyString => if class c then EmptyString else String c EmptyString
      | rest => String c rest
      end
  end.

(** Every character of the string satisfies the test. *)
Fixpoint all (test : ascii -> bool) (s : string) : bool :=
  match s with
  | EmptyString => true
  | String c s' => test c && all test s'
  end.

(** Two characters of the class stand next to each other. *)
Fixpoint adjacent (class : ascii -> bool) (s : string) : bool :=
  match s with
  | String c ((String d _) as s') => (class c && class d) || adjacent class s'
  | _ => false
  end.

(** The string with a function applied to every character. *)
Fixpoint mapChars (f : ascii -> ascii) (s : string) : string :=
  match s with
  | EmptyString => EmptyString
  | String c s' => String (f c) (mapChars f s')
  end.

Definition firstChar (s : string) : option ascii :=
  match s with
  | EmptyString => None
  | String c _ => Some c
  end.

End JsString.

Module StringUtils.

(** [StringUtils.truncate(text, maxLength, suffix)]; [None] is [null] or
    [undefined], and the caller that omits [suffix] passes ["..."]. *)
Definition truncate (text : option string) (maxLength : Z) (suffix : string)
  : option string :=
  match text with
  | None => None
  | Some t =>
      if negb (Js.truthy t) || (Z.of_nat (String.length t) <=? maxLength) then Some t
      else
        Some (String.append
                (JsString.substring t 0 (maxLength - Z.of_nat (String.length suffix)))
                suffix)
  end.

Section Slugify.
Context `{Platform}.

(** [StringUtils.slugify(text)]. *)
Definition slugify (text : option string) : string :=
  match text with
  | None => ""
  | Some t =>
      if negb (Js.truthy t) then ""
      else
        let t := toLowerCase t in
        (* .replace(/[^\w\s-]/g, '') *)
        let t :=
          JsString.removeAll
            (fun c => negb (JsString.isWordChar c || JsString.isWhiteSpace c
                            || JsString.isDash c)) t in
        (* .replace(/[\s_-]+/g, '-') *)
        let t :=
          JsString.replaceRuns
            (fun c => JsString.isWhiteSpace c || (N_of_ascii c =? 95)%N
                      || JsString.isDash c) "-" false t in
        (* .replace(/^-+|-+$/g, '') *)
        JsString.removeTrailing JsString.isDash
          (JsString.removeLeading JsString.isDash t)
  end.

End Slugify.

End StringUtils.

(** The characters a slug is made of: letters and digits, and the dash. *)
Definition isSlugChar (c : ascii) : bool :=
  (JsString.isWordChar c && negb (N_of_ascii c =? 95)%N) || JsString.isDash c.

(** The three character classes of [slugify]: what the first
    replacement keeps, what the second collapses. *)
Definition slugKept (c : ascii) : bool :=
  JsString.isWordChar c || JsString.isWhiteSpace c || JsString.isDash c.

Definition slugSeparator (c : ascii) : bool :=
  JsString.isWhiteSpace c || (N_of_ascii c =? 95)%N || JsString.isDash c.

(** ** Colours

    [colors[language]] reads a property of an object literal: an own
    property when the table has the key, otherwise what [Object.prototype]
    holds under that name, a function or object and never a string,
    otherwise [undefined]. *)

Module JsObject.

(** The property names of [Object.prototype]. *)
Definition prototypeKeys : list string :=
  ["constructor"; "hasOwnProperty"; "isPrototypeOf"; "propertyIsEnumerable";
   "toLocaleString"; "toString"; "valueOf"; "__proto__";
   "__defineGetter__"; "__defineSetter__"; "__lookupGetter__"; "__lookupSetter__"].

Inductive Read :=
| Own (value : string)
| Inherited (key : string)
| Undefined.

(** The own property of that name; of two entries with one key the later
    one counts. *)
Fixpoint own (entries : list (string * string)) (key : string) : option string :=
  match entries with
  | [] => None
  | (k, v) :: entries' =>
      match own entries' key with
      | Some v' => Some v'
      | None => if String.eqb k key then Some v else None
      end
  end.

Definition read (entries : list (string * string)) (key : string) : Read :=
  match own entries key with
  | Some v => Own v
  | None =>
      if existsb (String.eqb key) prototypeKeys then Inherited key else Undefined
  end.

(** [o[key] || fallback] for a string-valued table. *)
Definition readOr (entries : list (string * string)) (key fallback : string) : Read :=
  match read entries key with
  | Own v => if Js.truthy v then Own v else Own fallback
  | Inherited k => Inherited k
  | Undefined => Own fallback
  end.

End JsObject.

(** The table of [NXProjectsTracker.getLanguageColor]. *)
Definition appLanguageColors : list (string * string) :=
  [
    ("JavaScript", "#f1e05a");
    ("TypeScript", "#2b7489");
    ("Python", "#3572A5");
    ("Java", "#b07219");
    ("C++", "#f34b7d");
    ("C", "#555555");
    ("C#", "#178600");
    ("PHP", "#4F5D95");
    ("Ruby", "#701516");
    ("Go", "#00ADD8");
    ("Rust", "#dea584");
    ("Swift", "#ffac45");
    ("Kotlin", "#F18E33");
    ("Scala", "#c22d40");
    ("HTML", "#e34c26");
    ("CSS", "#563d7c");
    ("Shell", "#89e051");
    ("Makefile", "#427819");
    ("Objective-C", "#438eff")
  ].

(** [NXProjectsTracker.getLanguageColor(language)]. *)
Definition getLanguageColor (language : string) : JsObject.Read :=
  JsObject.readOr appLanguageColors language "#6c757d".

Module ColorUtils.

(** The table of [ColorUtils.getLanguageColor]. *)
Definition languageColors : list (string * string) :=
  [
    ("JavaScript", "#f1e05a");
    ("TypeScript", "#2b7489");
    ("Python", "#3572A5");
    ("Java", "#b07219");
    ("C++", "#f34b7d");
    ("C", "#555555");
    ("C#", "#178600");
    ("PHP", "#4F5D95");
    ("Ruby", "#701516");
    ("Go", "#00ADD8");
    ("Rust", "#dea584");
    ("Swift", "#ffac45");
    ("Kotlin", "#F18E33");
    ("Scala", "#c22d40");
    ("HTML", "#e34c26");
    ("CSS", "#563d7c");
    ("Shell", "#89e051");
    ("Makefile", "#427819");
    ("Objective-C", "#438eff");
    ("Assembly", "#6E4C13");
    ("Dockerfile", "#384d54");
    ("Vue", "#41b883");
    ("React", "#61dafb");
    ("Angular", "#dd0031");
    ("Node.js", "#339933");
    ("R", "#198ce7");
    ("MATLAB", "#e16737");
    ("Perl", "#0298c3");
    ("Lua", "#000080");
    ("Haskell", "#5e5086");
    ("Clojure", "#db5855");
    ("Elixir", "#6e4a7e");
    ("Erlang", "#b83998");
    ("F#", "#b845fc");
    ("OCaml", "#3be133");
    ("Racket", "#3c5caa");
    ("Scheme", "#1e4aec");
    ("Common Lisp", "#3fb68b");
    ("D", "#ba595e");
    ("Nim", "#37775b");
    ("Zig", "#ec915c");
    ("V", "#4f87c4");
    ("Crystal", "#000100");
    ("Julia", "#a270ba");
    ("Fortran", "#4d41b1");
    ("COBOL", "#ff6d6d");
    ("Pascal", "#e3f171");
    ("Ada", "#02f88c");
    ("Lisp", "#3fb68b");
    ("Prolog", "#74283c");
    ("Smalltalk", "#596706");
    ("Logo", "#6b8e23");
    ("BASIC", "#ff6600");
    ("ALGOL", "#cc0000");
    ("APL", "#5a8164");
    ("J", "#9eef40");
    ("K", "#28430a");
    ("Q", "#4b32c3");
    ("M", "#ff6db6");
    ("B", "#ff6db6");
    ("BCPL", "#ff6db6");
    ("Befunge", "#ff6db6");
    ("Brainfuck", "#ff6db6");
    ("Whitespace", "#ff6db6");
    ("Malbolge", "#ff6db6");
    ("INTERCAL", "#ff6db6");
    ("LOLCODE", "#ff6db6");
    ("ArnoldC", "#ff6db6");
    ("Shakespeare", "#ff6db6");
    ("Rockstar", "#ff6db6");
    ("Velato", "#ff6db6");
    ("Ook!", "#ff6db6");
    ("Chef", "#ff6db6");
    ("Piet", "#ff6db6");
    ("FALSE", "#ff6db6");
    ("HQ9+", "#ff6db6");
    ("BlooP", "#ff6db6");
    ("FlooP", "#ff6db6");
    ("GlooP", "#ff6db6");
    ("SNOBOL", "#ff6db6");
    ("SPITBOL", "#ff6db6");
    ("Icon", "#ff6db6");
    ("Unicon", "#ff6db6");
    ("Object Rexx", "#ff6db6");
    ("NetRexx", "#ff6db6");
    ("ooRexx", "#ff6db6");
    ("Rexx", "#ff6db6");
    ("PL/I", "#ff6db6");
    ("PL/M", "#ff6db6");
    ("PL/C", "#ff6db6");
    ("PL/S", "#ff6db6");
    ("PL/1", "#ff6db6");
    ("PL/360", "#ff6db6");
    ("PL/8", "#ff6db6");
    ("PL/9", "#ff6db6");
    ("PL/10", "#ff6db6");
    ("PL/11", "#ff6db6");
    ("PL/12", "#ff6db6");
    ("PL/13", "#ff6db6");
    ("PL/14", "#ff6db6");
    ("PL/15", "#ff6db6");
    ("PL/16", "#ff6db6");
    ("PL/17", "#ff6db6");
    ("PL/18", "#ff6db6");
    ("PL/19", "#ff6db6");
    ("PL/20", "#ff6db6")
  ].

(** [ColorUtils.getLanguageColor(language)]. *)
Definition getLanguageColor (language : string) : JsObject.Read :=
  JsObject.readOr languageColors language "#6c757d".

(** The value of a hexadecimal digit, in either case. *)
Definition hexValue (c : ascii) : option Z :=
  let n := Z.of_N (N_of_ascii c) in
  if (48 <=? n) && (n <=? 57) then Some (n - 48)
  else if (97 <=? n) && (n <=? 102) then Some (n - 87)
  else if (65 <=? n) && (n <=? 70) then Some (n - 55)
  else None.

(** [parseInt(xy, 16)] for two hexadecimal digits. *)
Definition parseHexPair (x y : ascii) : option Z :=
  match hexValue x, hexValue y with
  | Some a, Some b => Some (16 * a + b)
  | _, _ => None
  end.

(** [ColorUtils.hexToRgb(hex)]: the regular expression wants an optional
    [#] and then exactly six hexadecimal digits; [None] is [null]. *)
Definition hexToRgb (hex : string) : option (Z * Z * Z) :=
  let digits :=
    match hex with
    | String "#" rest => rest
    | _ => hex
    end in
  match digits with
  | String r1 (String r0 (String g1 (String g0 (String b1 (String b0 EmptyString))))) =>
      match parseHexPair r1 r0, parseHexPair g1 g0, parseHexPair b1 b0 with
      | Some r, Some g, Some b => Some (r, g, b)
      | _, _, _ => None
      end
  | _ => None
  end.

(** [ToInt32]: the integer modulo [2^32], read as a signed word. *)
Definition toInt32 (n : Z) : Z :=
  let m := n mod 4294967296 in
  if m <? 2147483648 then m else m - 4294967296.

(** [x << k] for a shift count below 32. *)
Definition shiftLeft (x k : Z) : Z := toInt32 (Z.shiftl (toInt32 x) k).

Definition hexDigit (d : Z) : ascii :=
  if d <? 10 then ascii_of_N (Z.to_N (48 + d)) else ascii_of_N (Z.to_N (87 + d)).

(** The [k] lowest hexadecimal digits of [n], the highest first. *)
Fixpoint hexDigits (k : nat) (n : Z) : string :=
  match k with
  | O => EmptyString
  | S k' => String (hexDigit ((n / 16 ^ Z.of_nat k') mod 16)) (hexDigits k' n)
  end.

(** [Number.prototype.toString(16)] of an integer. *)
Definition toString16 (n : Z) : string :=
  if n =? 0 then "0"
  else
    let m := Z.abs n in
    String.append (if n <? 0 then "-" else "")
                  (hexDigits (Z.to_nat (Z.log2 m / 4 + 1)) m).

(** [s.slice(1)]. *)
Definition slice1 (s : string) : string :=
  match s with
  | EmptyString => EmptyString
  | String _ s' => s'
  end.

(** [ColorUtils.rgbToHex(r, g, b)] for integers. *)
Definition rgbToHex (r g b : Z) : string :=
  String "#" (slice1 (toString16 (shiftLeft 1 24 + shiftLeft r 16 + shiftLeft g 8 + b))).

End ColorUtils.

(** A string the regular expression of [hexToRgb] accepts. *)
Definition isHexColor (s : string) : bool :=
  match ColorUtils.hexToRgb s with
  | Some _ => true
  | None => false
  end.

(** ** Keyboard navigation (components.js) *)

Module KeyboardNavigation.

(** The two style properties of a card the class writes. *)
Record CardStyle := {
  outline : string;
  outlineOffset : string
}.

Definition plain : CardStyle := {| outline := ""; outlineOffset := "" |}.

Definition selected : CardStyle :=
  {| outline := "2px solid var(--primary-color)"; outlineOffset := "2px" |}.

Record t := mk {
  currentIndex : Z;
  projectCards : list CardStyle
}.

Inductive Effect :=
| PreventDefault
| ScrollIntoView (index : Z)
| Click (index : Z).

Inductive Key := ArrowDown | ArrowUp | Enter | Escape | OtherKey.

(** The object the constructor builds. *)
Definition constructed : t := mk (-1) [].

(** [updateProjectCards()]; [cards] are the cards found on the page. *)
Definition updateProjectCards (cards : list CardStyle) (this : t) : t :=
  mk (-1) cards.

(** [clearSelection()]. *)
Definition clearSelection (this : t) : t :=
  mk (-1) (map (fun _ => plain) (projectCards this)).

(** [navigateProjects(direction)]; [None] is the [TypeError] of writing
    to a card that does not exist. *)
Definition navigateProjects (direction : Z) (this : t) : option (t * list Effect) :=
  if Z.of_nat (length (projectCards this)) =? 0 then Some (this, [])
  else
    let this := clearSelection this in
    let len := Z.of_nat (length (projectCards this)) in
    let index :=
      if currentIndex this =? -1 then
        if 0 <? direction then 0 else len - 1
      else
        let i := currentIndex this + direction in
        if len <=? i then 0
        else if i <? 0 then len - 1
        else i in
    if (0 <=? index) && (index <? len) then
      Some (mk index (<[Z.to_nat index := selected]> (projectCards this)),
            [ScrollIntoView index])
    else None.

(** [handleKeydown(event)]. *)
Definition handleKeydown (key : Key) (this : t) : option (t * list Effect) :=
  match key with
  | ArrowDown =>
      '(this', w) ← navigateProjects 1 this; Some (this', PreventDefault :: w)
  | ArrowUp =>
      '(this', w) ← navigateProjects (-1) this; Some (this', PreventDefault :: w)
  | Enter =>
      if 0 <=? currentIndex this then
        if currentIndex this <? Z.of_nat (length (projectCards this))
        then Some (this, [PreventDefault; Click (currentIndex this)])
        else None
      else Some (this, [])
  | Escape => Some (clearSelection this, [])
  | OtherKey => Some (this, [])
  end.

(** A sequence of key presses. *)
Fixpoint handleKeys (keys : list Key) (this : t) : option (t * list Effect) :=
  match keys with
  | [] => Some (this, [])
  | key :: keys' =>
      '(this', w) ← handleKeydown key this;
      '(this'', w') ← handleKeys keys' this';
      Some (this'', (w ++ w')%list)
  end.

End KeyboardNavigation.

(** What holds of the navigation object between key presses, for the cards
    on the page: it knows as many cards, and its index is unset or on the
    first or the last of them. *)
Definition keyboard_invariant
    (cards : list KeyboardNavigation.CardStyle) (this : KeyboardNavigation.t) : Prop :=
  length (KeyboardNavigation.projectCards this) = length cards
  /\ (KeyboardNavigation.currentIndex this = -1
      \/ (cards <> []
          /\ (KeyboardNavigation.currentIndex this = 0
              \/ KeyboardNavigation.currentIndex this = Z.of_nat (length cards) - 1))).

(** ** The collector scripts: validation *)

Module JsSplit.

(** [s.split(sep)] for a one-character separator: the pieces between the
    separators, of which there is always at least one. *)
Fixpoint split (sep : ascii) (s : string) : list string :=
  match s with
  | EmptyString => [EmptyString]
  | String c s' =>
      if Ascii.eqb c sep then EmptyString :: split sep s'
      else
        match split sep s' with
        | piece :: pieces => String c piece :: pieces
        | [] => [String c EmptyString]
        end
  end.

(** The character [c] does not occur in [s]. *)
Fixpoint free (c : ascii) (s : string) : bool :=
  match s with
  | EmptyString => true
  | String d s' => negb (Ascii.eqb d c) && free c s'
  end.

End JsSplit.

(** Regular expressions over character classes, matched against a whole
    string, as [^...$] asks for. *)
Module Regex.

Inductive t :=
| Never
| Empty
| Class (test : ascii -> bool)
| Seq (r1 r2 : t)
| Alt (r1 r2 : t)
| Star (r : t).

(** [r+]. *)
Definition Plus (r : t) : t := Seq r (Star r).

Fixpoint nullable (r : t) : bool :=
  match r with
  | Never => false
  | Empty => true
  | Class _ => false
  | Seq r1 r2 => nullable r1 && nullable r2
  | Alt r1 r2 => nullable r1 || nullable r2
  | Star _ => true
  end.

(** What is left of [r] to match once [c] has been read. *)
Fixpoint derive (c : ascii) (r : t) : t :=
  match r with
  | Never => Never
  | Empty => Never
  | Class test => if test c then Empty else Never
  | Seq r1 r2 =>
      if nullable r1 then Alt (Seq (derive c r1) r2) (derive c r2)
      else Seq (derive c r1) r2
  | Alt r1 r2 => Alt (derive c r1) (derive c r2)
  | Star r' => Seq (derive c r') (Star r')
  end.

(** [/^r$/.test(s)]. *)
Fixpoint test (r : t) (s : string) : bool :=
  match s with
  | EmptyString => nullable r
  | String c s' => test (derive c r) s'
  end.

(** The strings of [r]. *)
Inductive Matches : t -> string -> Prop :=
| Matches_Empty : Matches Empty EmptyString
| Matches_Class (test : ascii -> bool) (c : ascii) :
    test c = true -> Matches (Class test) (String c EmptyString)
| Matches_Seq (r1 r2 : t) (s1 s2 : string) :
    Matches r1 s1 -> Matches r2 s2 -> Matches (Seq r1 r2) (String.append s1 s2)
| Matches_Alt_l (r1 r2 : t) (s : string) : Matches r1 s -> Matches (Alt r1 r2) s
| Matches_Alt_r (r1 r2 : t) (s : string) : Matches r2 s -> Matches (Alt r1 r2) s
| Matches_Star_nil (r : t) : Matches (Star r) EmptyString
| Matches_Star_app (r : t) (s1 s2 : string) :
    Matches r s1 -> Matches (Star r) s2 -> Matches (Star r) (String.append s1 s2).

End Regex.

(** The double quote of the error messages. *)
Definition quote : string := String (ascii_of_N 34) EmptyString.

(** [isValidRepoFormat(repo)] of the add-project script. *)
Definition isValidRepoFormat (repo : string) : bool :=
  Js.includes repo "/"
  && (Z.of_nat (length (JsSplit.split "/" repo)) =? 2).

(** [/^\d+\.\d+\.\d+$/]. *)
Definition firmwareRegex : Regex.t :=
  let digits := Regex.Plus (Regex.Class JsString.isDigit) in
  let dot := Regex.Class (Ascii.eqb ".") in
  Regex.Seq digits (Regex.Seq dot (Regex.Seq digits (Regex.Seq dot digits))).

(** [isValidFirmwareFormat(firmware)] of the add-project script. *)
Definition isValidFirmwareFormat (firmware : string) : bool :=
  Regex.test firmwareRegex firmware.

(** [parseRepoString(repoString)] of the tracker. *)
Definition parseRepoString (repoString : string) : Completion (string * string) :=
  match JsSplit.split "/" repoString with
  | [owner; repo] => Normal (owner, repo)
  | _ =>
      Throw (String.append "Invalid repo format: "
               (String.append quote
                  (String.append repoString
                     (String.append quote
                        (String.append ". Expected format: "
                           (String.append quote
                              (String.append "owner/repo" quote)))))))
  end.

(** A non-empty string of decimal digits. *)
Definition isNumber (s : string) : Prop :=
  s <> "" /\ JsString.all JsString.isDigit s = true.

(** ** The tracker script *)

(** What the GitHub API delivers, as far as the tracker reads it.  A
    description and a language may be [null]; an [owner] may be missing. *)
Module GitHub.

Module Owner.
Record t := {
  login : string;
  avatar_url : string;
  html_url : string
}.
End Owner.

Module Repository.
Record t := {
  name : string;
  owner : option Owner.t;
  html_url : string;
  description : option string;
  language : option string;
  stargazers_count : Z;
  forks_count : Z;
  updated_at : string;
  created_at : string
}.
End Repository.

Module Release.
Record t := {
  tag_name : option string;
  html_url : option string;
  published_at : option string
}.
End Release.

(** The body of a response: text that is not JSON, a falsy JSON value
    such as [null], or a document. *)
Inductive Body (A : Type) :=
| NotJson
| Falsy
| Json (data : A).
Arguments NotJson {A}.
Arguments Falsy {A}.
Arguments Json {A} data.

(** What [fetch] comes back with: a rejection, or a response. *)
Inductive Response (A : Type) :=
| NetworkError
| Status (status : Z) (body : Body A).
Arguments NetworkError {A}.
Arguments Status {A} status body.

(** [response.ok]. *)
Definition ok (status : Z) : bool := (200 <=? status) && (status <=? 299).

End GitHub.

Module Tracker.

(** The API as the run sees it, and the two variables
    [loadFirmwareConfig] has set. *)
Record Env := {
  repositoryApi : string -> string -> GitHub.Response GitHub.Repository.t;
  releaseApi : string -> string -> GitHub.Response GitHub.Release.t;
  firmwareMapping : list (string * string);
  defaultFirmware : string
}.

(** An entry of [projects] in projects.yml; [repo] may be missing. *)
Record ProjectConfig := {
  repo : option string
}.

(** The record [processProject] builds. *)
Record ProjectData := {
  name : string;
  author : string;
  authorAvatar : string;
  authorUrl : string;
  projectUrl : string;
  projectFullUrl : string;
  description : string;
  language : string;
  stars : Z;
  forks : Z;
  lastUpdated : string;
  createdAt : string;
  latestVersion : option string;
  latestReleaseUrl : option string;
  latestReleaseDate : option string;
  requiredFirmware : JsObject.Read
}.

Inductive Log :=
| Processing (owner repo : string)
| RepositoryNotFound (owner repo : string)
| RepositoryError (owner repo : string)
| ReleaseError (owner repo : string)
| Added (name : string) (firmware : JsObject.Read) (author : string)
| ProcessingError (repo : option string).

(** [getFirmwareRequirement(projectName)]. *)
Definition getFirmwareRequirement (env : Env) (projectName : string) : JsObject.Read :=
  JsObject.readOr (firmwareMapping env) projectName (defaultFirmware env).

(** [fetchRepositoryInfo(owner, repo)]: every failure is logged and
    turned into [null]. *)
Definition fetchRepositoryInfo (env : Env) (owner repo : string)
  : option GitHub.Repository.t * list Log :=
  match repositoryApi env owner repo with
  | GitHub.NetworkError => (None, [RepositoryError owner repo])
  | GitHub.Status status body =>
      if negb (GitHub.ok status) then
        if status =? 404 then (None, [RepositoryNotFound owner repo])
        else (None, [RepositoryError owner repo])
      else
        match body with
        | GitHub.NotJson => (None, [RepositoryError owner repo])
        | GitHub.Falsy => (None, [])
        | GitHub.Json data => (Some data, [])
        end
  end.

(** [fetchLatestRelease(owner, repo)]: a 404 is the normal case of a
    repository without releases. *)
Definition fetchLatestRelease (env : Env) (owner repo : string)
  : option GitHub.Release.t * list Log :=
  match releaseApi env owner repo with
  | GitHub.NetworkError => (None, [ReleaseError owner repo])
  | GitHub.Status status body =>
      if negb (GitHub.ok status) then
        if status =? 404 then (None, [])
        else (None, [ReleaseError owner repo])
      else
        match body with
        | GitHub.NotJson => (None, [ReleaseError owner repo])
        | GitHub.Falsy => (None, [])
        | GitHub.Json data => (Some data, [])
        end
  end.

(** [processProject(project)]: whatever is thrown inside, by a missing
    [repo], by [parseRepoString] or by a missing [owner], is caught,
    logged and turned into [null]. *)
Definition processProject (env : Env) (project : ProjectConfig)
  : option ProjectData * list Log :=
  match repo project with
  | None => (None, [ProcessingError (repo project)])
  | Some repoString =>
      match parseRepoString repoString with
      | Throw _ => (None, [ProcessingError (repo project)])
      | Normal (owner, repo_) =>
          let '(repoInfo, w1) := fetchRepositoryInfo env owner repo_ in
          match repoInfo with
          | None => (None, Processing owner repo_ :: w1)
          | Some repoInfo =>
              let '(latestRelease, w2) := fetchLatestRelease env owner repo_ in
              match GitHub.Repository.owner repoInfo with
              | None =>
                  (None,
                   (Processing owner repo_ :: w1 ++ w2
                    ++ [ProcessingError (repo project)])%list)
              | Some repoOwner =>
                  let projectData :=
                    {| name := GitHub.Repository.name repoInfo;
                       author := GitHub.Owner.login repoOwner;
                       authorAvatar := GitHub.Owner.avatar_url repoOwner;
                       authorUrl := GitHub.Owner.html_url repoOwner;
                       projectUrl := String.append owner (String "/" repo_);
                       projectFullUrl := GitHub.Repository.html_url repoInfo;
                       description :=
                         match GitHub.Repository.description repoInfo with
                         | Some d => if Js.truthy d then d else ""
                         | None => ""
                         end;
                       language :=
                         match GitHub.Repository.language repoInfo with
                         | Some l => if Js.truthy l then l else ""
                         | None => ""
                         end;
                       stars := GitHub.Repository.stargazers_count repoInfo;
                       forks := GitHub.Repository.forks_count repoInfo;
                       lastUpdated := GitHub.Repository.updated_at repoInfo;
                       createdAt := GitHub.Repository.created_at repoInfo;
                       latestVersion :=
                         r ← latestRelease; GitHub.Release.tag_name r;
                       latestReleaseUrl :=
                         r ← latestRelease; GitHub.Release.html_url r;
                       latestReleaseDate :=
                         r ← latestRelease; GitHub.Release.published_at r;
                       requiredFirmware :=
                         getFirmwareRequirement env (GitHub.Repository.name repoInfo)
                    |} in
                  (Some projectData,
                   (Processing owner repo_ :: w1 ++ w2
                    ++ [Added (name projectData) (requiredFirmware projectData)
                              (author projectData)])%list)
              end
          end
      end
  end.


End Tracker.

(** ** Sample data for the tracker *)

Definition sampleOwner : GitHub.Owner.t :=
  {| GitHub.Owner.login := "Atmosphere-NX";
     GitHub.Owner.avatar_url := "https://avatars.githubusercontent.com/u/1";
     GitHub.Owner.html_url := "https://github.com/Atmosphere-NX" |}.

Definition sampleRepository : GitHub.Repository.t :=
  {| GitHub.Repository.name := "Atmosphere";
     GitHub.Repository.owner := Some sampleOwner;
     GitHub.Repository.html_url := "https://github.com/Atmosphere-NX/Atmosphere";
     GitHub.Repository.description := None;
     GitHub.Repository.language := Some "C++";
     GitHub.Repository.stargazers_count := 14000;
     GitHub.Repository.forks_count := 1200;
     GitHub.Repository.updated_at := "2024-05-01T00:00:00Z";
     GitHub.Repository.created_at := "2018-02-01T00:00:00Z" |}.

(** An API that knows one repository and no release, and a firmware
    table with one entry. *)
Definition sampleEnv : Tracker.Env :=
  {| Tracker.repositoryApi := fun owner repo =>
       if String.eqb owner "Atmosphere-NX" && String.eqb repo "Atmosphere"
       then GitHub.Status 200 (GitHub.Json sampleRepository)
       else GitHub.Status 404 GitHub.NotJson;
     Tracker.releaseApi := fun _ _ => GitHub.Status 404 GitHub.NotJson;
     Tracker.firmwareMapping := [("Atmosphere", "20.1.0")];
     Tracker.defaultFirmware := "20.2.0" |}.


(** ** The add-project script *)

Module AddProject.

(** firmware.yml as the script reads it.  A table is read through
    [JsObject.read] only; the order of its keys is not modelled. *)
Record FirmwareConfig := {
  firmware_requirements : list (string * string);
  default_firmware : option string
}.

(** The two configuration files: [None] is a file that cannot be read or
    parsed, or that lacks the array or table the script goes on to use; a
    file that is not writable makes [saveYamlFile] throw. *)
Record Files := {
  projectsFile : option (list Tracker.ProjectConfig);
  firmwareFile : option FirmwareConfig;
  projectsWritable : bool;
  firmwareWritable : bool
}.

Definition setProjectsFile (projects : list Tracker.ProjectConfig) (files : Files) : Files :=
  {| projectsFile := Some projects; firmwareFile := firmwareFile files;
     projectsWritable := projectsWritable files;
     firmwareWritable := firmwareWritable files |}.

Definition setFirmwareFile (config : FirmwareConfig) (files : Files) : Files :=
  {| projectsFile := projectsFile files; firmwareFile := Some config;
     projectsWritable := projectsWritable files;
     firmwareWritable := firmwareWritable files |}.

Inductive Exit :=
| Completed
| Exited (code : Z).

Inductive Log :=
| Adding (repo firmware : string)
| AlreadyInProjects (repo : string)
| AddedToProjects (repo : string)
| FirmwareExists (projectName : string) (existing : JsObject.Read)
| AddedFirmware (firmware projectName : string)
| Summary (projectsAdded firmwareAdded : bool)
| CompletedSuccessfully
| ErrorAdding.

(** [p.repo === repo]. *)
Definition hasRepo (repo : string) (p : Tracker.ProjectConfig) : bool :=
  match Tracker.repo p with
  | Some r => String.eqb r repo
  | None => false
  end.

(** [o[key] = value]. *)
Definition assign (entries : list (string * string)) (key value : string)
  : list (string * string) :=
  (List.filter (fun entry => negb (String.eqb entry.1 key)) entries ++ [(key, value)])%list.

(** A truthy property read. *)
Definition truthyRead (v : JsObject.Read) : bool :=
  match v with
  | JsObject.Own s => Js.truthy s
  | JsObject.Inherited _ => true
  | JsObject.Undefined => false
  end.

(** [addToProjectsConfig(repo)]; the first component is the value
    returned, [None] when the call throws. *)
Definition addToProjectsConfig (repo : string) (files : Files)
  : option bool * Files * list Log :=
  match projectsFile files with
  | None => (None, files, [])
  | Some projects =>
      if existsb (hasRepo repo) projects then
        (Some false, files, [AlreadyInProjects repo])
      else if projectsWritable files then
        (Some true,
         setProjectsFile (projects ++ [{| Tracker.repo := Some repo |}])%list files,
         [AddedToProjects repo])
      else (None, files, [])
  end.

(** [addToFirmwareConfig(projectName, firmware)]. *)
Definition addToFirmwareConfig (projectName firmware : string) (files : Files)
  : option bool * Files * list Log :=
  match firmwareFile files with
  | None => (None, files, [])
  | Some config =>
      let existing := JsObject.read (firmware_requirements config) projectName in
      if truthyRead existing then
        (Some false, files, [FirmwareExists projectName existing])
      else if firmwareWritable files then
        (Some true,
         setFirmwareFile
           {| firmware_requirements :=
                assign (firmware_requirements config) projectName firmware;
              default_firmware := default_firmware config |}
           files,
         [AddedFirmware firmware projectName])
      else (None, files, [])
  end.

(** [addProject(repo, firmware)]: how the process ends, the files
    afterwards and the output. *)
Definition addProject (repo firmware : string) (files : Files)
  : Exit * Files * list Log :=
  if negb (isValidRepoFormat repo) then
    (Exited 1, files, [Adding repo firmware; ErrorAdding])
  else if negb (isValidFirmwareFormat firmware) then
    (Exited 1, files, [Adding repo firmware; ErrorAdding])
  else
    let projectName := nth 1 (JsSplit.split "/" repo) "" in
    match addToProjectsConfig repo files with
    | (None, files, w1) =>
        (Exited 1, files, (Adding repo firmware :: w1 ++ [ErrorAdding])%list)
    | (Some projectsAdded, files, w1) =>
        match addToFirmwareConfig projectName firmware files with
        | (None, files, w2) =>
            (Exited 1, files, (Adding repo firmware :: w1 ++ w2 ++ [ErrorAdding])%list)
        | (Some firmwareAdded, files, w2) =>
            (Completed, files,
             (Adding repo firmware :: w1 ++ w2
              ++ [Summary projectsAdded firmwareAdded; CompletedSuccessfully])%list)
        end
    end.

End AddProject.

(** Sample files for the add-project script. *)
Definition sampleFiles : AddProject.Files :=
  {| AddProject.projectsFile := Some [ {| Tracker.repo := Some "CTCaer/hekate" |} ];
     AddProject.firmwareFile :=
       Some {| AddProject.firmware_requirements := [("hekate", "19.0.1")];
               AddProject.default_firmware := Some "20.2.0" |};
     AddProject.projectsWritable := true;
     AddProject.firmwareWritable := true |}.

(** The same with a firmware.yml that cannot be read. *)
Definition brokenFirmwareFiles : AddProject.Files :=
  {| AddProject.projectsFile := Some [ {| Tracker.repo := Some "CTCaer/hekate" |} ];
     AddProject.firmwareFile := None;
     AddProject.projectsWritable := true;
     AddProject.firmwareWritable := true |}.

(** ** The tracker's firmware configuration *)

Module FirmwareConfig.

(** firmware.yml as the tracker reads it; either key may be missing. *)
Record t := {
  firmware_requirements : option (list (string * string));
  default_firmware : option string
}.




End FirmwareConfig.


(** * Theorems *)

(** ** Facts about the builtins *)

Lemma append_String (c : ascii) (a b : string) :
  String.append (String c a) b = String c (String.append a b).
Proof. reflexivity. Qed.

Lemma prefix_append (t s : string) :
  String.prefix t s = true <-> exists b, s = String.append t b.
Proof.
  revert s. induction t as [|c t IH]; intros s.
  - split; [intros _; exists s; reflexivity | destruct s; reflexivity].
  - destruct s as [|d s]; simpl.
    + split; [discriminate | intros [b Hb]; discriminate].
    + destruct (ascii_dec c d) as [->|Hne].
      * rewrite IH. split; intros [b Hb]; exists b;
          rewrite append_String in *; congruence.
      * split; [discriminate|].
        intros [b Hb]. rewrite append_String in Hb. congruence.
Qed.

Lemma includes_unfold (s t : string) :
  Js.includes s t =
  if String.prefix t s then true
  else match s with
       | EmptyString => false
       | String _ s' => Js.includes s' t
       end.
Proof. destruct s; reflexivity. Qed.

Lemma includes_Substring (s t : string) :
  Js.includes s t = true <-> Substring t s.
Proof.
  split.
  - induction s as [|c s IH]; rewrite includes_unfold;
      destruct (String.prefix t _) eqn:Hp.
    + intros _. apply prefix_append in Hp as [b Hb]. exists EmptyString, b. exact Hb.
    + discriminate.
    + intros _. apply prefix_append in Hp as [b Hb]. exists EmptyString, b. exact Hb.
    + intros Hi. destruct (IH Hi) as (a & b & ->). exists (String c a), b. reflexivity.
  - intros (a & b & ->). induction a as [|c a IH]; rewrite includes_unfold.
    + replace (String.prefix t _) with true; [reflexivity|].
      symmetry. apply prefix_append. exists b. reflexivity.
    + rewrite append_String. destruct (String.prefix t _); [reflexivity | exact IH].
Qed.

Section SortFacts.
Context {A : Type} (cmp : A -> A -> Z).

Lemma insert_Permutation (a : A) (l : list A) :
  Permutation (Js.insert cmp a l) (a :: l).
Proof.
  induction l as [|b l IH]; simpl; [reflexivity|].
  destruct (cmp a b <=? 0); [reflexivity|].
  rewrite IH. apply perm_swap.
Qed.

Lemma sort_Permutation (l : list A) : Permutation (Js.sort cmp l) l.
Proof.
  induction l as [|a l IH]; simpl; [reflexivity|].
  rewrite insert_Permutation. constructor. exact IH.
Qed.

Lemma In_sort (x : A) (l : list A) : In x (Js.sort cmp l) <-> In x l.
Proof.
  split; apply Permutation_in;
    [apply sort_Permutation | symmetry; apply sort_Permutation].
Qed.

Lemma sort_length (l : list A) : length (Js.sort cmp l) = length l.
Proof. apply Permutation_length, sort_Permutation. Qed.

(** Two comparators that agree everywhere sort alike. *)
Lemma sort_ext (cmp' : A -> A -> Z) (l : list A) :
  (forall a b, cmp a b = cmp' a b) -> Js.sort cmp l = Js.sort cmp' l.
Proof.
  intros Heq. induction l as [|a l IH]; simpl; [reflexivity|].
  rewrite IH. generalize (Js.sort cmp' l) as s.
  induction s as [|b s IHs]; simpl; [reflexivity|].
  rewrite Heq, IHs. reflexivity.
Qed.

(** Sorting by a numeric key, largest first: [cmp a b = key b - key a]. *)
Section Descending.
Context (key : A -> Z) (Hcmp : forall a b, cmp a b = key b - key a).

Lemma insert_descending (a : A) (l : list A) :
  StronglySorted (descending key) l -> StronglySorted (descending key) (Js.insert cmp a l).
Proof.
  induction 1 as [|b l Hs IH Hb]; simpl.
  - repeat constructor.
  - rewrite Hcmp. destruct (Z.leb_spec (key b - key a) 0) as [Hle|Hgt].
    + constructor; [constructor; assumption|].
      constructor; [unfold descending; lia|].
      eapply List.Forall_impl; [|exact Hb]. unfold descending. intros c Hc. lia.
    + constructor; [exact IH|].
      eapply Permutation_Forall; [symmetry; apply insert_Permutation|].
      constructor; [unfold descending; lia | exact Hb].
Qed.

Lemma sort_descending (l : list A) : StronglySorted (descending key) (Js.sort cmp l).
Proof.
  induction l as [|a l IH]; simpl; [constructor|].
  apply insert_descending, IH.
Qed.

(** Stability: the records of one key keep their order. *)
Lemma insert_stable (k : Z) (a : A) (l : list A) :
  List.filter (fun x => key x =? k) (Js.insert cmp a l)
  = List.filter (fun x => key x =? k) (a :: l).
Proof.
  induction l as [|b l IH]; [reflexivity|].
  simpl Js.insert. rewrite Hcmp.
  destruct (Z.leb_spec (key b - key a) 0) as [Hle|Hgt]; [reflexivity|].
  simpl in *. rewrite IH.
  destruct (Z.eqb_spec (key a) k), (Z.eqb_spec (key b) k); try reflexivity; lia.
Qed.

Lemma sort_stable (k : Z) (l : list A) :
  List.filter (fun x => key x =? k) (Js.sort cmp l)
  = List.filter (fun x => key x =? k) l.
Proof.
  induction l as [|a l IH]; [reflexivity|].
  simpl Js.sort. rewrite insert_stable. simpl. rewrite IH. reflexivity.
Qed.
End Descending.
End SortFacts.

(** Whatever stable algorithm the engine runs: a list in descending order
    of [key] is determined by the order it gives to the records of each
    key, so every stable descending sort of [l] returns [Js.sort cmp l]. *)
Section StableSortUnique.
Context {A : Type} (key : A -> Z).

Lemma stable_sorted_unique (l1 l2 : list A) :
  StronglySorted (descending key) l1 ->
  StronglySorted (descending key) l2 ->
  (forall k, List.filter (fun x => key x =? k) l1
             = List.filter (fun x => key x =? k) l2) ->
  l1 = l2.
Proof.
  revert l2. induction l1 as [|a l1 IH]; intros [|b l2] Hs1 Hs2 Hf.
  - reflexivity.
  - specialize (Hf (key b)). simpl in Hf. rewrite Z.eqb_refl in Hf. discriminate.
  - specialize (Hf (key a)). simpl in Hf. rewrite Z.eqb_refl in Hf. discriminate.
  - apply StronglySorted_inv in Hs1 as [Hs1 Ha].
    apply StronglySorted_inv in Hs2 as [Hs2 Hb].
    assert (Hab : key a <= key b).
    { pose proof (Hf (key a)) as Hk. simpl in Hk. rewrite Z.eqb_refl in Hk.
      assert (Hin : In a (List.filter (fun x => key x =? key a) (b :: l2)))
        by (simpl; rewrite <- Hk; left; reflexivity).
      apply filter_In in Hin as [[<-|Hin] _]; [lia|].
      rewrite List.Forall_forall in Hb. apply Hb, Hin. }
    assert (Hba : key b <= key a).
    { pose proof (Hf (key b)) as Hk. simpl in Hk. rewrite Z.eqb_refl in Hk.
      assert (Hin : In b (List.filter (fun x => key x =? key b) (a :: l1)))
        by (simpl; rewrite Hk; left; reflexivity).
      apply filter_In in Hin as [[<-|Hin] _]; [lia|].
      rewrite List.Forall_forall in Ha. apply Ha, Hin. }
    assert (Hkey : key a = key b) by lia.
    assert (Heq : a = b).
    { pose proof (Hf (key a)) as Hk. simpl in Hk.
      rewrite <- Hkey, Z.eqb_refl in Hk. congruence. }
    subst b. f_equal. apply IH; [assumption | assumption |].
    intros k. specialize (Hf k). simpl in Hf.
    destruct (key a =? k); congruence.
Qed.

Lemma sort_is_the_stable_sort (cmp : A -> A -> Z) (l l' : list A) :
  (forall a b, cmp a b = key b - key a) ->
  StronglySorted (descending key) l' ->
  (forall k, List.filter (fun x => key x =? k) l'
             = List.filter (fun x => key x =? k) l) ->
  l' = Js.sort cmp l.
Proof.
  intros Hcmp Hs Hf. apply stable_sorted_unique.
  - exact Hs.
  - apply sort_descending, Hcmp.
  - intros k. rewrite Hf. symmetry. apply sort_stable, Hcmp.
Qed.
End StableSortUnique.

(** ** Filtering and sorting *)

Section FilterFacts.
Context `{Platform}.

Lemma truthy_nonempty (s : string) : Js.truthy s = true <-> s <> "".
Proof. destruct s; simpl; split; congruence. Qed.

Lemma matchesSearch_SearchMatch (search : string) (p : Project) :
  matchesSearch (toLowerCase search) p = true <-> SearchMatch search p.
Proof.
  unfold matchesSearch, SearchMatch.
  rewrite !orb_true_iff, !includes_Substring.
  destruct (description p) as [d|].
  - rewrite andb_true_iff, truthy_nonempty, includes_Substring.
    split.
    + intros [[Hn|Ha]|[Hd Hs]]; eauto 6.
    + intros [Hn|[Ha|(d' & [= <-] & Hd & Hs)]]; eauto.
  - split.
    + intros [[Hn|Ha]|Hf]; [eauto | eauto | discriminate].
    + intros [Hn|[Ha|(d' & Hd & _)]]; [eauto | eauto | discriminate].
Qed.

Lemma matchesLanguage_eq (selected : string) (p : Project) :
  matchesLanguage selected p = true <-> language p = Some selected.
Proof.
  unfold matchesLanguage. destruct (language p) as [l|].
  - rewrite String.eqb_eq. split; congruence.
  - split; discriminate.
Qed.

Lemma In_searchStep (search : string) (ps : list Project) (p : Project) :
  In p (searchStep search ps) <-> In p ps /\ (search = "" \/ SearchMatch search p).
Proof.
  unfold searchStep. destruct (Js.truthy search) eqn:Ht.
  - rewrite filter_In, matchesSearch_SearchMatch.
    apply truthy_nonempty in Ht. intuition.
  - destruct search; [|discriminate]. intuition.
Qed.

Lemma In_languageStep (selected : string) (ps : list Project) (p : Project) :
  In p (languageStep selected ps) <-> In p ps /\ LanguageMatch selected p.
Proof.
  unfold languageStep, LanguageMatch.
  destruct (String.eqb_spec selected "all") as [->|Hne]; simpl.
  - intuition.
  - rewrite filter_In, matchesLanguage_eq. intuition.
Qed.

Lemma In_filterSort (ps : list Project) (f : Filters.t) (p : Project) :
  In p (filterSort ps f) <->
  In p ps /\ (Filters.search f = "" \/ SearchMatch (Filters.search f) p)
  /\ LanguageMatch (Filters.language f) p.
Proof.
  unfold filterSort. rewrite In_sort, In_languageStep, In_searchStep. intuition.
Qed.

Lemma compareProjects_stars (sortBy : string) (a b : Project) :
  ~ In sortBy ["forks"; "name"; "author"; "latest"; "created"] ->
  compareProjects sortBy a b = stars b - stars a.
Proof.
  intros Hnot. unfold compareProjects.
  repeat match goal with
  | |- context [String.eqb sortBy ?k] =>
      destruct (String.eqb_spec sortBy k) as [->|?]; [try reflexivity|]
  end; try reflexivity; exfalso; apply Hnot; simpl; tauto.
Qed.

Lemma filterProjects_run (this : App) :
  filterProjects this
  = (Normal tt, setFilteredProjects (filterSort (projects this) (currentFilters this)) this, []).
Proof. reflexivity. Qed.

(** C1: with a non-empty search string, a record is kept exactly when it
    is in the collection, passes the language selection (which ["all"]
    always lets through) and the lowered search string occurs in its
    lowered name, or in its lowered author, or in its lowered
    description when that is present and truthy. *)
Theorem search_keeps_exactly_the_matches
    (ps : list Project) (f : Filters.t) (p : Project) :
  Filters.search f <> "" ->
  (In p (filterSort ps f) <->
   In p ps /\ SearchMatch (Filters.search f) p
   /\ LanguageMatch (Filters.language f) p).
Proof.
  intros Hs. rewrite In_filterSort. intuition.
Qed.

(** C2: with a language other than ["all"] selected, [filterProjects]
    stores the sorted language filter of the search filter of the whole
    collection: every record kept has exactly the selected language, a
    record is kept exactly when it is in the collection, has that
    language and passes the search, and the array that was in
    [filteredProjects] before plays no part. *)
Theorem language_filter_exact_from_scratch (this : App) :
  Filters.language (currentFilters this) <> "all" ->
  let f := currentFilters this in
  let result := filteredProjects (after (filterProjects this)) in
  result = Js.sort (compareProjects (Filters.sortBy f))
             (List.filter (matchesLanguage (Filters.language f))
                (searchStep (Filters.search f) (projects this)))
  /\ (forall p, In p result -> language p = Some (Filters.language f))
  /\ (forall p, In p result <->
                In p (projects this) /\ language p = Some (Filters.language f)
                /\ (Filters.search f = "" \/ SearchMatch (Filters.search f) p))
  /\ (forall old,
        filteredProjects (after (filterProjects (setFilteredProjects old this)))
        = result).
Proof.
  intros Hl f result.
  assert (Hin : forall p, In p result <->
                In p (projects this) /\ language p = Some (Filters.language f)
                /\ (Filters.search f = "" \/ SearchMatch (Filters.search f) p)).
  { intros p. subst result f. rewrite filterProjects_run. simpl.
    rewrite In_filterSort. unfold LanguageMatch. intuition. }
  split; [|split; [|split]].
  - subst result f. rewrite filterProjects_run. simpl.
    unfold filterSort, languageStep.
    destruct (String.eqb_spec (Filters.language (currentFilters this)) "all");
      [contradiction | reflexivity].
  - intros p Hp. apply Hin in Hp. tauto.
  - exact Hin.
  - intros old. reflexivity.
Qed.

(** C3: sorting by ["stars"], which is the key the constructor sets,
    puts the kept records in descending order of star count, as a
    permutation of them in which records with equal star counts keep the
    order they had before the sort; three records with 5, 50 and 1 stars
    come out as 50, 5, 1. *)
Theorem stars_sort_descending_and_stable (ps : list Project) (f : Filters.t) :
  Filters.sortBy f = "stars" ->
  let kept := languageStep (Filters.language f) (searchStep (Filters.search f) ps) in
  let result := filterSort ps f in
  StronglySorted (descending stars) result
  /\ Permutation result kept
  /\ (forall k, List.filter (fun p => stars p =? k) result
                = List.filter (fun p => stars p =? k) kept)
  /\ (forall a b c, stars a = 5 -> stars b = 50 -> stars c = 1 ->
        map stars (filterSort [a; b; c] (Filters.mk "" "all" (Filters.sortBy f)))
        = [50; 5; 1])
  /\ Filters.sortBy (currentFilters constructed) = Filters.sortBy f.
Proof.
  intros Hs kept result. subst kept result. unfold filterSort. rewrite Hs.
  assert (Hcmp : forall a b, compareProjects "stars" a b = stars b - stars a)
    by reflexivity.
  split; [|split; [|split; [|split]]].
  - apply sort_descending, Hcmp.
  - apply sort_Permutation.
  - intros k. apply sort_stable, Hcmp.
  - intros a b c Ha Hb Hc. simpl.
    rewrite Hcmp, Hb, Hc. simpl.
    rewrite Hcmp, Ha, Hb. simpl.
    rewrite Hcmp, Ha, Hc. simpl.
    rewrite Ha, Hb, Hc. reflexivity.
  - reflexivity.
Qed.

(** C6: a [sortBy] value that is none of the six known keys gives the
    same array as ["stars"] does. *)
Theorem unknown_sort_key_sorts_by_stars (ps : list Project) (f : Filters.t) :
  ~ In (Filters.sortBy f) ["stars"; "forks"; "name"; "author"; "latest"; "created"] ->
  filterSort ps f = filterSort ps (withSortBy "stars" f).
Proof.
  intros Hnot. unfold filterSort, withSortBy. simpl.
  apply sort_ext. intros a b.
  rewrite compareProjects_stars; [reflexivity|].
  intros Hin. apply Hnot. simpl in *. tauto.
Qed.

(** C7: the array [filterProjects] stores is a function of the collection
    and the filter state alone: two objects that agree on both get
    equal arrays, element for element, whatever else they hold, and so
    does a second run on the same object. *)
Theorem filterProjects_deterministic (this1 this2 : App) :
  projects this1 = projects this2 ->
  currentFilters this1 = currentFilters this2 ->
  filteredProjects (after (filterProjects this1))
  = filteredProjects (after (filterProjects this2))
  /\ filteredProjects (after (filterProjects (after (filterProjects this1))))
     = filteredProjects (after (filterProjects this1)).
Proof.
  intros Hp Hf. rewrite !filterProjects_run. simpl. rewrite Hp, Hf. split; reflexivity.
Qed.

End FilterFacts.

(** ** Runs of the methods *)

(** Unfolds the monad's operations in a run. *)
Ltac run :=
  cbv [mbind M_bind mret M_ret get tell modify throw tryCatch updateFilters
       outcome after effects fst snd].

Lemma updateStats_run (this : App) :
  updateStats this = (Normal tt, this, statsEffects (projects this)).
Proof. reflexivity. Qed.

Lemma Paged_renderProjects_run (this : App) :
  Paged.renderProjects this
  = (Normal tt, this,
     if Z.of_nat (length (projects this)) =? 0 then
       [GridHtml []; NoResultsDisplay false; ErrorStateDisplay true]
     else if Z.of_nat (length (filteredProjects this)) =? 0 then
       [GridHtml []; NoResultsDisplay true; ErrorStateDisplay false]
     else
       [NoResultsDisplay false; ErrorStateDisplay false;
        GridHtml (Js.slice (filteredProjects this)
                    ((currentPage this - 1) * itemsPerPage this)
                    ((currentPage this - 1) * itemsPerPage this + itemsPerPage this));
        CreateIcons] ++ statsEffects (projects this))%list.
Proof.
  unfold Paged.renderProjects, updateStats. run.
  destruct (Z.of_nat (length (projects this)) =? 0); [reflexivity|].
  destruct (Z.of_nat (length (filteredProjects this)) =? 0); reflexivity.
Qed.

Lemma Paged_renderPagination_run (this : App) :
  Paged.renderPagination this
  = let total := Z.of_nat (length (filteredProjects this)) in
    if total =? 0 then (Normal tt, this, [PaginationDisplay false])
    else
      let this' := setTotalPages (Js.ceilDiv total (itemsPerPage this)) this in
      (Normal tt, this',
       [PaginationDisplay true;
        PaginationInfoText ((currentPage this - 1) * itemsPerPage this + 1)
                           (Z.min (currentPage this * itemsPerPage this) total)
                           total;
        PrevDisabled (currentPage this =? 1);
        NextDisabled (currentPage this =? totalPages this');
        PaginationPagesHtml (Paged.generatePageNumbers this')]).
Proof.
  unfold Paged.renderPagination. run.
  destruct (Z.of_nat (length (filteredProjects this)) =? 0); reflexivity.
Qed.

Lemma Paged_renderPagination_normal (this : App) :
  outcome (Paged.renderPagination this) = Normal tt.
Proof.
  rewrite Paged_renderPagination_run. cbv zeta.
  destruct (_ =? 0); reflexivity.
Qed.

Lemma Paged_goToPage_run (page : Z) (this : App) :
  Paged.goToPage page this
  = (Normal tt,
     after (Paged.renderPagination (setCurrentPage page this)),
     (effects (Paged.renderProjects (setCurrentPage page this))
      ++ effects (Paged.renderPagination (setCurrentPage page this))
      ++ [ScrollToTop])%list).
Proof.
  unfold Paged.goToPage. run.
  rewrite Paged_renderProjects_run.
  pose proof (Paged_renderPagination_normal (setCurrentPage page this)) as Hn.
  unfold outcome in Hn.
  destruct (Paged.renderPagination (setCurrentPage page this)) as [[r s] w].
  simpl in Hn. subst r. simpl. reflexivity.
Qed.

Lemma Paged_goToPage_after (page : Z) (this : App) :
  after (Paged.goToPage page this)
  = after (Paged.renderPagination (setCurrentPage page this)).
Proof. rewrite Paged_goToPage_run. reflexivity. Qed.

Lemma Paged_goToPage_effects (page : Z) (this : App) :
  effects (Paged.goToPage page this)
  = (effects (Paged.renderProjects (setCurrentPage page this))
     ++ effects (Paged.renderPagination (setCurrentPage page this))
     ++ [ScrollToTop])%list.
Proof. rewrite Paged_goToPage_run. reflexivity. Qed.

Section PagedRuns.
Context `{Platform}.

Lemma Paged_filterAndRender_run (this : App) :
  let this1 :=
    setCurrentPage 1
      (setFilteredProjects (filterSort (projects this) (currentFilters this)) this) in
  Paged.filterAndRender this
  = (Normal tt,
     after (Paged.renderPagination this1),
     (effects (Paged.renderProjects this1)
      ++ effects (Paged.renderPagination this1))%list).
Proof.
  intros this1. unfold Paged.filterAndRender, filterProjects. run.
  fold this1. rewrite Paged_renderProjects_run.
  pose proof (Paged_renderPagination_normal this1) as Hn.
  unfold outcome in Hn.
  destruct (Paged.renderPagination this1) as [[r s] w].
  simpl in Hn. subst r. simpl. reflexivity.
Qed.

Lemma Paged_filterAndRender_after (this : App) :
  after (Paged.filterAndRender this)
  = after (Paged.renderPagination
             (setCurrentPage 1
                (setFilteredProjects
                   (filterSort (projects this) (currentFilters this)) this))).
Proof. rewrite Paged_filterAndRender_run. reflexivity. Qed.

Lemma Paged_filterAndRender_effects (this : App) :
  effects (Paged.filterAndRender this)
  = let this1 :=
      setCurrentPage 1
        (setFilteredProjects
           (filterSort (projects this) (currentFilters this)) this) in
    (effects (Paged.renderProjects this1)
     ++ effects (Paged.renderPagination this1))%list.
Proof. rewrite Paged_filterAndRender_run. reflexivity. Qed.

End PagedRuns.

Lemma Unpaged_renderProjects_run (this : App) :
  Unpaged.renderProjects this
  = (Normal tt, this,
     if Z.of_nat (length (projects this)) =? 0 then
       [GridHtml []; NoResultsDisplay true; NoResultsHtml NoProjectData; CreateIcons]
     else if Z.of_nat (length (filteredProjects this)) =? 0 then
       [GridHtml []; NoResultsDisplay true; NoResultsHtml NoProjectsFound; CreateIcons]
     else
       [NoResultsDisplay false; GridHtml (filteredProjects this); CreateIcons]).
Proof.
  unfold Unpaged.renderProjects. run.
  destruct (Z.of_nat (length (projects this)) =? 0); [reflexivity|].
  destruct (Z.of_nat (length (filteredProjects this)) =? 0); reflexivity.
Qed.

Section UnpagedRuns.
Context `{Platform}.

Lemma Unpaged_filterAndRender_run (this : App) :
  Unpaged.filterAndRender this
  = Unpaged.renderProjects
      (setFilteredProjects (filterSort (projects this) (currentFilters this)) this).
Proof.
  unfold Unpaged.filterAndRender, filterProjects. run.
  rewrite Unpaged_renderProjects_run. reflexivity.
Qed.

End UnpagedRuns.

(** ** Slices *)

Lemma slice_pageSlice {A : Type} (l : list A) (perPage p : Z) :
  0 < perPage -> 1 <= p ->
  Js.slice l ((p - 1) * perPage) ((p - 1) * perPage + perPage)
  = pageSlice l perPage p.
Proof.
  intros Hpp Hp. unfold Js.slice, pageSlice, Js.clampIndex.
  set (start := (p - 1) * perPage).
  assert (Hs : 0 <= start) by (subst start; nia).
  destruct (Z.ltb_spec start 0) as [?|_]; [lia|].
  destruct (Z.ltb_spec (start + perPage) 0) as [?|_]; [lia|].
  set (len := Z.of_nat (length l)).
  destruct (Z.le_gt_cases len start) as [Hge|Hlt].
  - rewrite (Z.min_r start len) by lia.
    rewrite !drop_ge by (subst len; lia).
    rewrite !take_nil. reflexivity.
  - rewrite (Z.min_l start len) by lia.
    destruct (Z.le_gt_cases (start + perPage) len) as [Hin|Hout].
    + rewrite Z.min_l by lia. f_equal. lia.
    + rewrite Z.min_r by lia.
      rewrite !take_ge; [reflexivity | |];
        rewrite length_drop; subst len; lia.
Qed.

(** ** Pagination *)

Lemma shownCards_app (w1 w2 : list Effect) :
  shownCards (w1 ++ w2)
  = match shownCards w2 with
    | Some cards => Some cards
    | None => shownCards w1
    end.
Proof.
  induction w1 as [|e w1 IH]; simpl.
  - destruct (shownCards w2); reflexivity.
  - rewrite IH. destruct (shownCards w2); reflexivity.
Qed.

Lemma shownCards_renderPagination (this : App) :
  shownCards (effects (Paged.renderPagination this)) = None.
Proof.
  rewrite Paged_renderPagination_run. cbv zeta.
  destruct (_ =? 0); reflexivity.
Qed.

Lemma renderPagination_fields (this : App) :
  let this' := after (Paged.renderPagination this) in
  projects this' = projects this
  /\ filteredProjects this' = filteredProjects this
  /\ currentFilters this' = currentFilters this
  /\ currentPage this' = currentPage this
  /\ itemsPerPage this' = itemsPerPage this.
Proof.
  rewrite Paged_renderPagination_run. cbv zeta.
  destruct (_ =? 0); repeat split.
Qed.

Lemma renderPagination_totalPages (this : App) :
  totalPages (after (Paged.renderPagination this))
  = if Z.of_nat (length (filteredProjects this)) =? 0 then totalPages this
    else Js.ceilDiv (Z.of_nat (length (filteredProjects this))) (itemsPerPage this).
Proof.
  rewrite Paged_renderPagination_run. cbv zeta.
  destruct (_ =? 0); reflexivity.
Qed.

Lemma length_zero_nil {A : Type} (l : list A) :
  (Z.of_nat (length l) =? 0) = true <-> l = [].
Proof.
  destruct l; simpl; split; try reflexivity; discriminate.
Qed.

(** The grid after [renderProjects]: the page's slice, unless there is no
    data at all. *)
Lemma shownCards_renderProjects (this : App) :
  0 < itemsPerPage this -> 1 <= currentPage this ->
  (projects this = [] -> filteredProjects this = []) ->
  shownCards (effects (Paged.renderProjects this))
  = Some (pageSlice (filteredProjects this) (itemsPerPage this) (currentPage this)).
Proof.
  intros Hpp Hp Hcons. rewrite Paged_renderProjects_run.
  destruct (Z.of_nat (length (projects this)) =? 0) eqn:Hps.
  - apply length_zero_nil in Hps. rewrite (Hcons Hps).
    unfold pageSlice. rewrite drop_nil, take_nil. reflexivity.
  - destruct (Z.of_nat (length (filteredProjects this)) =? 0) eqn:Hfs.
    + apply length_zero_nil in Hfs. rewrite Hfs.
      unfold pageSlice. rewrite drop_nil, take_nil. reflexivity.
    + simpl. rewrite slice_pageSlice by assumption. reflexivity.
Qed.

Section PaginationFacts.
Context `{Platform}.

Lemma filterSort_nil (f : Filters.t) : filterSort [] f = [].
Proof.
  unfold filterSort, searchStep, languageStep.
  destruct (Js.truthy _), (negb _); reflexivity.
Qed.

(** C4, as the code has it: a recomputation stores the filtered list,
    returns to page 1 and shows that page; a change of search, language
    or sort is such a recomputation; going to page [p] shows the items
    at indices [(p - 1) * itemsPerPage] up to [p * itemsPerPage] of the
    stored list and does not filter again.  The page count is the
    ceiling of the filtered length over [itemsPerPage] whenever the
    filtered list is not empty; when it is empty the bar is hidden and
    the stored count stays as it was.  With 12 items a page, 25 items
    make 3 pages, and page 3 shows the one item at index 24.  The copy
    of the class without page fields draws the whole filtered list. *)
Theorem pagination_of_the_filtered_list (this : App) (p : Z) :
  0 < itemsPerPage this ->
  1 <= p ->
  (projects this = [] -> filteredProjects this = []) ->
  let perPage := itemsPerPage this in
  let pages (l : list Project) := Js.ceilDiv (Z.of_nat (length l)) perPage in
  (let r := Paged.filterAndRender this in
   let filtered := filterSort (projects this) (currentFilters this) in
   filteredProjects (after r) = filtered
   /\ currentPage (after r) = 1
   /\ shownCards (effects r) = Some (pageSlice filtered perPage 1)
   /\ (filtered <> [] -> totalPages (after r) = pages filtered)
   /\ (filtered = [] ->
       totalPages (after r) = totalPages this
       /\ In (PaginationDisplay false) (effects r)))
  /\ (forall v,
        currentPage (after (Paged.handle (Paged.SearchInput v) this)) = 1
        /\ currentPage (after (Paged.handle Paged.ClearSearchClick this)) = 1
        /\ currentPage (after (Paged.handle (Paged.LanguageChange v) this)) = 1
        /\ currentPage (after (Paged.handle (Paged.SortChange v) this)) = 1)
  /\ (let r := Paged.goToPage p this in
      filteredProjects (after r) = filteredProjects this
      /\ currentPage (after r) = p
      /\ shownCards (effects r) = Some (pageSlice (filteredProjects this) perPage p)
      /\ (filteredProjects this <> [] ->
          totalPages (after r) = pages (filteredProjects this)))
  /\ (perPage = 12 -> length (filteredProjects this) = 25%nat ->
      totalPages (after (Paged.goToPage 3 this)) = 3
      /\ exists last,
          filteredProjects this !! 24%nat = Some last
          /\ shownCards (effects (Paged.goToPage 3 this)) = Some [last])
  /\ shownCards (effects (Unpaged.filterAndRender this))
     = Some (filterSort (projects this) (currentFilters this)).
Proof.
  intros Hpp Hp Hcons perPage pages.
  assert (Hgo : forall q, 1 <= q ->
    shownCards (effects (Paged.goToPage q this))
    = Some (pageSlice (filteredProjects this) perPage q)).
  { intros q Hq. rewrite Paged_goToPage_effects.
    rewrite !shownCards_app. simpl.
    rewrite shownCards_renderPagination.
    apply (shownCards_renderProjects (setCurrentPage q this)); assumption. }
  assert (Hgt : forall q, filteredProjects this <> [] ->
    totalPages (after (Paged.goToPage q this)) = pages (filteredProjects this)).
  { intros q Hne. rewrite Paged_goToPage_after.
    rewrite renderPagination_totalPages. simpl.
    destruct (_ =? 0) eqn:Hz; [|reflexivity].
    apply length_zero_nil in Hz. contradiction. }
  split; [|split; [|split; [|split]]].
  - cbv zeta. rewrite Paged_filterAndRender_after, Paged_filterAndRender_effects.
    cbv zeta.
    set (filtered := filterSort (projects this) (currentFilters this)).
    set (this1 := setCurrentPage 1 (setFilteredProjects filtered this)).
    destruct (renderPagination_fields this1) as (_ & Hf & _ & Hc & _).
    split; [exact Hf|]. split; [exact Hc|]. split; [|split].
    + rewrite shownCards_app, shownCards_renderPagination.
      apply (shownCards_renderProjects this1); simpl; try lia.
      intros Hnil. subst filtered. rewrite Hnil. apply filterSort_nil.
    + intros Hne. rewrite renderPagination_totalPages. simpl.
      destruct (_ =? 0) eqn:Hz; [|reflexivity].
      apply length_zero_nil in Hz. contradiction.
    + intros Hnil. rewrite renderPagination_totalPages. simpl.
      rewrite Hnil. simpl. split; [reflexivity|].
      apply in_or_app. right.
      rewrite Paged_renderPagination_run. simpl. rewrite Hnil. simpl. auto.
  - intros v. unfold Paged.handle, updateClearSearchButton. run.
    rewrite !Paged_filterAndRender_run. cbv beta iota zeta.
    repeat split;
      match goal with
      | |- currentPage (after (Paged.renderPagination ?s)) = _ =>
          destruct (renderPagination_fields s) as (_ & _ & _ & Hc & _); exact Hc
      end.
  - cbv zeta. split; [|split; [|split]].
    + rewrite Paged_goToPage_after.
      destruct (renderPagination_fields (setCurrentPage p this))
        as (_ & Hf & _); exact Hf.
    + rewrite Paged_goToPage_after.
      destruct (renderPagination_fields (setCurrentPage p this))
        as (_ & _ & _ & Hc & _); exact Hc.
    + apply Hgo, Hp.
    + apply Hgt.
  - intros H12 H25.
    assert (Hne : filteredProjects this <> [])
      by (intros Hnil; rewrite Hnil in H25; discriminate).
    split.
    + rewrite Hgt by exact Hne. subst pages perPage. simpl.
      rewrite H25, H12. reflexivity.
    + rewrite Hgo by lia. unfold pageSlice. rewrite H12.
      change (Z.to_nat ((3 - 1) * 12)) with 24%nat.
      destruct (lookup_lt_is_Some_2 (filteredProjects this) 24) as [x Hx];
        [lia|].
      exists x. split; [exact Hx|].
      rewrite (drop_S _ _ _ Hx).
      rewrite drop_ge by lia. reflexivity.
  - rewrite Unpaged_filterAndRender_run, Unpaged_renderProjects_run.
    unfold effects. simpl.
    destruct (projects this) as [|p0 ps] eqn:Hps.
    + simpl. rewrite filterSort_nil. reflexivity.
    + simpl. destruct (filterSort (p0 :: ps) (currentFilters this)); reflexivity.
Qed.

End PaginationFacts.

(** ** Aggregate statistics *)

Lemma fold_left_sumOf (key : Project -> Z) (ps : list Project) (acc : Z) :
  fold_left (fun sum project => sum + key project) ps acc = acc + sumOf key ps.
Proof.
  revert acc. induction ps as [|p ps IH]; intros acc; simpl; [lia|].
  rewrite IH. lia.
Qed.

Lemma totalStarsOf_sumOf (ps : list Project) : totalStarsOf ps = sumOf stars ps.
Proof. unfold totalStarsOf. rewrite fold_left_sumOf. lia. Qed.

Lemma totalForksOf_sumOf (ps : list Project) : totalForksOf ps = sumOf forks ps.
Proof. unfold totalForksOf. rewrite fold_left_sumOf. lia. Qed.

Lemma In_distinct (x : string) (xs : list string) :
  In x (Js.distinct xs) <-> In x xs.
Proof.
  induction xs as [|y xs IH]; simpl; [tauto|].
  rewrite filter_In, IH, negb_true_iff, String.eqb_neq.
  destruct (string_dec y x); intuition.
Qed.

Lemma NoDup_distinct (xs : list string) : List.NoDup (Js.distinct xs).
Proof.
  induction xs as [|y xs IH]; simpl; constructor.
  - rewrite filter_In, negb_true_iff, String.eqb_neq. tauto.
  - apply List.NoDup_filter, IH.
Qed.

Lemma In_truthyStrings (x : string) (xs : list (option string)) :
  In x (truthyStrings xs) <-> x <> "" /\ In (Some x) xs.
Proof.
  induction xs as [|[y|] xs IH]; simpl.
  - tauto.
  - destruct (Js.truthy y) eqn:Hy; simpl; rewrite IH.
    + apply truthy_nonempty in Hy.
      split; [intros [->|[? ?]]; auto | intros [? [[= ->]|?]]; auto].
    + destruct y; [|discriminate].
      split; [intros [? ?]; auto | intros [? [[= <-]|?]]; [congruence | auto]].
  - rewrite IH. split; [intros [? ?]; auto | intros [? [?|?]]; [discriminate | auto]].
Qed.

Lemma In_languagesOf (l : string) (ps : list Project) :
  In l (languagesOf ps) <-> l <> "" /\ exists p, In p ps /\ language p = Some l.
Proof.
  unfold languagesOf. rewrite In_distinct, In_truthyStrings, in_map_iff.
  split; intros [Hl [p Hp]]; (split; [exact Hl | exists p; tauto]).
Qed.

Lemma statsWrites_statsEffects (ps : list Project) :
  statsWrites (statsEffects ps) = statsEffects ps.
Proof. reflexivity. Qed.

Lemma statsWrites_renderPagination (this : App) :
  statsWrites (effects (Paged.renderPagination this)) = [].
Proof.
  rewrite Paged_renderPagination_run. cbv zeta.
  destruct (_ =? 0); reflexivity.
Qed.


(** ** Loading *)

Lemma loadProjects_network (this : App) :
  loadProjects NetworkFailure this
  = (Normal tt, setProjects [] this,
     [ConsoleWarn "Could not load from ./data/projects.json";
      ConsoleWarn "No project data available. Please ensure ./data/projects.json exists."]).
Proof. reflexivity. Qed.

Lemma loadProjects_not_ok (body : Body) (this : App) :
  loadProjects (HttpResponse false body) this
  = (Normal tt, setProjects [] this,
     [ConsoleWarn "No project data available. Please ensure ./data/projects.json exists."]).
Proof. reflexivity. Qed.

Lemma loadProjects_malformed (this : App) :
  loadProjects (HttpResponse true Malformed) this
  = loadProjects NetworkFailure this.
Proof. reflexivity. Qed.

Lemma loadProjects_null (this : App) :
  loadProjects (HttpResponse true (Parsed JsonNull)) this
  = loadProjects NetworkFailure this.
Proof. reflexivity. Qed.

Lemma loadProjects_document (field : option (list Project)) (this : App) :
  loadProjects (HttpResponse true (Parsed (JsonValue field))) this
  = (Normal tt, setProjects (default [] field) this, []).
Proof. reflexivity. Qed.

Lemma loadProjects_normal (out : FetchOutcome) (this : App) :
  outcome (loadProjects out this) = Normal tt.
Proof. destruct out as [|[] [|[|field]]]; reflexivity. Qed.

(** A failed load: the empty collection and console output only. *)
Lemma loadProjects_unobtainable (out : FetchOutcome) (this : App) :
  Unobtainable out ->
  exists w,
    loadProjects out this = (Normal tt, setProjects [] this, w)
    /\ pageEffects w = [].
Proof.
  intros [ |body| ]; eexists; (split; [reflexivity|reflexivity]).
Qed.

Section LoadFacts.
Context `{Platform}.

Lemma Paged_init_unobtainable (out : FetchOutcome) (this : App) :
  Unobtainable out ->
  after (Paged.init out this) = setFilteredProjects [] (setProjects [] this)
  /\ pageEffects (effects (Paged.init out this))
     = ([CreateIcons; LastUpdatedText] ++ statsEffects []
        ++ [LanguageFilterOptions []; GridHtml []; NoResultsDisplay false;
            ErrorStateDisplay true; PaginationDisplay false; CreateIcons;
            LoadingScreenHidden])%list.
Proof.
  intros Hout.
  destruct (loadProjects_unobtainable out this Hout) as (w & Hrun & Hw).
  unfold Paged.init, updateStats, updateLanguageFilter, filterProjects,
    hideLoadingScreen. run.
  rewrite Hrun. cbv beta iota zeta.
  change (projects (setProjects [] this)) with (@nil Project).
  rewrite filterSort_nil, Paged_renderProjects_run.
  cbv beta iota zeta. rewrite Paged_renderPagination_run.
  unfold pageEffects in *. simpl.
  rewrite List.filter_app, Hw. split; reflexivity.
Qed.

Lemma Unpaged_init_unobtainable (out : FetchOutcome) (this : App) :
  Unobtainable out ->
  after (Unpaged.init out this) = setFilteredProjects [] (setProjects [] this)
  /\ pageEffects (effects (Unpaged.init out this))
     = ([CreateIcons; LastUpdatedText] ++ statsEffects []
        ++ [LanguageFilterOptions []; GridHtml []; NoResultsDisplay true;
            NoResultsHtml NoProjectData; CreateIcons; CreateIcons;
            LoadingScreenHidden])%list.
Proof.
  intros Hout.
  destruct (loadProjects_unobtainable out this Hout) as (w & Hrun & Hw).
  unfold Unpaged.init, updateStats, updateLanguageFilter, filterProjects,
    hideLoadingScreen. run.
  rewrite Hrun. cbv beta iota zeta.
  change (projects (setProjects [] this)) with (@nil Project).
  rewrite filterSort_nil, Unpaged_renderProjects_run.
  unfold pageEffects in *. simpl.
  rewrite List.filter_app, Hw. split; reflexivity.
Qed.

Lemma In_pageEffects (e : Effect) (w : list Effect) :
  In e (pageEffects w) -> In e w.
Proof. unfold pageEffects. rewrite filter_In. tauto. Qed.

(** C8: whichever way the artifact cannot be obtained (the request
    fails, the response is not OK, the text is not JSON), [loadProjects]
    completes normally with the collection set to the empty array and
    touches nothing on the page, so that [init] leaves the same object
    and the same page behind in every case: the one empty state.  A
    document without a [projects] field gives the empty array too, and
    no outcome of the fetch makes [loadProjects] throw. *)
Theorem load_failure_is_the_empty_collection
    (out1 out2 : FetchOutcome) (this : App) :
  Unobtainable out1 ->
  Unobtainable out2 ->
  outcome (loadProjects out1 this) = Normal tt
  /\ projects (after (loadProjects out1 this)) = []
  /\ after (loadProjects out1 this) = after (loadProjects out2 this)
  /\ pageEffects (effects (loadProjects out1 this)) = []
  /\ (after (Paged.init out1 this) = after (Paged.init out2 this)
      /\ pageEffects (effects (Paged.init out1 this))
         = pageEffects (effects (Paged.init out2 this))
      /\ In (ErrorStateDisplay true) (effects (Paged.init out1 this)))
  /\ (after (Unpaged.init out1 this) = after (Unpaged.init out2 this)
      /\ pageEffects (effects (Unpaged.init out1 this))
         = pageEffects (effects (Unpaged.init out2 this))
      /\ In (NoResultsHtml NoProjectData) (effects (Unpaged.init out1 this)))
  /\ projects (after (loadProjects (HttpResponse true (Parsed (JsonValue None))) this))
     = []
  /\ (forall out, outcome (loadProjects out this) = Normal tt).
Proof.
  intros H1 H2.
  destruct (loadProjects_unobtainable out1 this H1) as (w1 & Hr1 & Hw1).
  destruct (loadProjects_unobtainable out2 this H2) as (w2 & Hr2 & Hw2).
  destruct (Paged_init_unobtainable out1 this H1) as [Ha1 He1].
  destruct (Paged_init_unobtainable out2 this H2) as [Ha2 He2].
  destruct (Unpaged_init_unobtainable out1 this H1) as [Hb1 Hf1].
  destruct (Unpaged_init_unobtainable out2 this H2) as [Hb2 Hf2].
  split; [rewrite Hr1; reflexivity|].
  split; [rewrite Hr1; reflexivity|].
  split; [rewrite Hr1, Hr2; reflexivity|].
  split; [rewrite Hr1; exact Hw1|].
  split; [|split; [|split]].
  - split; [congruence|]. split; [congruence|].
    apply In_pageEffects. rewrite He1. simpl. tauto.
  - split; [congruence|]. split; [congruence|].
    apply In_pageEffects. rewrite Hf1. simpl. tauto.
  - reflexivity.
  - intros out. apply loadProjects_normal.
Qed.

End LoadFacts.

(** ** The store: what [filterProjects] does to the arrays *)

Module StoreFacts.
Import Store.

(** Every array of [h] is found unchanged in [h']. *)
Definition preserved (h h' : gmap nat (list Project)) : Prop :=
  forall a arr, h !! a = Some arr -> h' !! a = Some arr.

Lemma preserved_trans (h1 h2 h3 : gmap nat (list Project)) :
  preserved h1 h2 -> preserved h2 h3 -> preserved h1 h3.
Proof. intros H12 H23 a arr Ha. apply H23, H12, Ha. Qed.

Lemma alloc_spec (arr : list Project) (h : gmap nat (list Project)) :
  h !! (alloc arr h).1 = None
  /\ (alloc arr h).2 !! (alloc arr h).1 = Some arr
  /\ preserved h (alloc arr h).2.
Proof.
  unfold alloc. simpl.
  assert (Hfresh : h !! fresh (dom h) = None)
    by apply (not_elem_of_dom (D := gset nat)), is_fresh.
  split; [exact Hfresh|]. split; [apply lookup_insert_eq|].
  intros a arr' Ha. rewrite lookup_insert_ne; [exact Ha|].
  intros <-. congruence.
Qed.

(** A step that hands back a new array holding [arr]. *)
Definition allocates (h : gmap nat (list Project)) (arr : list Project)
    (r : option (nat * gmap nat (list Project))) : Prop :=
  exists a h', r = Some (a, h') /\ h !! a = None /\ h' !! a = Some arr
               /\ preserved h h'.

Lemma spread_spec (a : nat) (h : gmap nat (list Project)) (arr : list Project) :
  h !! a = Some arr -> allocates h arr (spread a h).
Proof.
  intros Ha. unfold spread. rewrite Ha. simpl.
  destruct (alloc_spec arr h) as (Hn & Hs & Hp).
  destruct (alloc arr h) as [b h']. exists b, h'. auto.
Qed.

Lemma arrayFilter_spec (pred : Project -> bool) (a : nat)
    (h : gmap nat (list Project)) (arr : list Project) :
  h !! a = Some arr -> allocates h (List.filter pred arr) (arrayFilter pred a h).
Proof.
  intros Ha. unfold arrayFilter. rewrite Ha. simpl.
  destruct (alloc_spec (List.filter pred arr) h) as (Hn & Hs & Hp).
  destruct (alloc (List.filter pred arr) h) as [b h']. exists b, h'. auto.
Qed.

(** Allocating on top of a store that preserves [h0] still hands back an
    array that [h0] does not have. *)
Lemma allocates_later (h0 h : gmap nat (list Project)) (arr : list Project)
    (r : option (nat * gmap nat (list Project))) :
  preserved h0 h -> allocates h arr r ->
  exists a h', r = Some (a, h') /\ h0 !! a = None /\ h' !! a = Some arr
               /\ preserved h0 h'.
Proof.
  intros Hp (a & h' & -> & Hn & Hs & Hp').
  exists a, h'. split; [reflexivity|]. split; [|split; [exact Hs|]].
  - destruct (h0 !! a) as [x|] eqn:H0; [|reflexivity].
    apply Hp in H0. congruence.
  - eapply preserved_trans; eassumption.
Qed.

Section Facts.
Context `{Platform}.

(** C9: [filterProjects] leaves every array that existed before the
    call as it was, the collection among them, with the same elements
    in the same order; [this.projects] still refers to it and the
    filters are untouched.  The array that is sorted is a new one, and
    only [this.filteredProjects] is made to refer to it; it holds what
    the value-level [filterSort] computes. *)
Theorem filterProjects_leaves_the_collection
    (this : Obj) (h : gmap nat (list Project)) (ps : list Project) :
  h !! projectsRef this = Some ps ->
  exists this' h',
    filterProjects this h = Some (this', h')
    /\ projectsRef this' = projectsRef this
    /\ filters this' = filters this
    /\ h' !! projectsRef this' = Some ps
    /\ (forall a arr, h !! a = Some arr -> h' !! a = Some arr)
    /\ h !! filteredProjectsRef this' = None
    /\ h' !! filteredProjectsRef this'
       = Some (filterSort ps (filters this)).
Proof.
  intros Hps. unfold filterProjects, filterSort.
  set (f := filters this).
  destruct (spread_spec _ _ _ Hps) as (a1 & h1 & -> & Hn1 & Hs1 & Hp1).
  simpl.
  assert (Hsearch : exists a2 h2,
    (if Js.truthy (Filters.search f)
     then arrayFilter (matchesSearch (toLowerCase (Filters.search f))) a1 h1
     else Some (a1, h1)) = Some (a2, h2)
    /\ h !! a2 = None
    /\ h2 !! a2 = Some (searchStep (Filters.search f) ps)
    /\ preserved h h2).
  { unfold searchStep. destruct (Js.truthy (Filters.search f)).
    - eapply allocates_later; [exact Hp1|]. apply arrayFilter_spec, Hs1.
    - exists a1, h1. auto. }
  destruct Hsearch as (a2 & h2 & -> & Hn2 & Hs2 & Hp2). simpl.
  assert (Hlang : exists a3 h3,
    (if negb (String.eqb (Filters.language f) "all")
     then arrayFilter (matchesLanguage (Filters.language f)) a2 h2
     else Some (a2, h2)) = Some (a3, h3)
    /\ h !! a3 = None
    /\ h3 !! a3 = Some (languageStep (Filters.language f)
                          (searchStep (Filters.search f) ps))
    /\ preserved h h3).
  { unfold languageStep. destruct (negb _).
    - eapply allocates_later; [exact Hp2|]. apply arrayFilter_spec, Hs2.
    - exists a2, h2. auto. }
  destruct Hlang as (a3 & h3 & -> & Hn3 & Hs3 & Hp3). simpl.
  unfold arraySort. rewrite Hs3. simpl.
  eexists _, _. split; [reflexivity|]. simpl.
  assert (Hkeep : forall a arr, h !! a = Some arr ->
            <[a3 := Js.sort (compareProjects (Filters.sortBy f))
                      (languageStep (Filters.language f)
                         (searchStep (Filters.search f) ps))]> h3 !! a
            = Some arr).
  { intros a arr Ha. rewrite lookup_insert_ne; [apply Hp3, Ha|].
    intros <-. congruence. }
  split; [reflexivity|]. split; [reflexivity|].
  split; [apply Hkeep, Hps|]. split; [exact Hkeep|].
  split; [exact Hn3|]. apply lookup_insert_eq.
Qed.
End Facts.

End StoreFacts.

(** ** Number formatting *)

(** C10: for a count from 0 up to, not including, 10^9 the card formatter
    and [NumberUtils.format] with one decimal give the same string: the
    plain digits below 1000, thousands with one decimal and a [K] below
    10^6, millions with one decimal and an [M] from there on. *)
Theorem formatNumber_agrees_with_NumberUtils (num : Z) :
  0 <= num < 1000000000 ->
  formatNumber num = NumberUtils.format (Some num) 1
  /\ (num < 1000 -> formatNumber num = Number.toString num)
  /\ (1000 <= num < 1000000 ->
      formatNumber num
      = String.append (Number.toFixed (Number.ofZ num / Number.ofZ 1000)%float 1) "K")
  /\ (1000000 <= num ->
      formatNumber num
      = String.append (Number.toFixed (Number.ofZ num / Number.ofZ 1000000)%float 1) "M").
Proof.
  intros [Hlo Hhi]. unfold formatNumber, NumberUtils.format.
  destruct (Z.leb_spec 1000000000 num) as [?|_]; [lia|].
  destruct (Z.leb_spec 1000000 num), (Z.leb_spec 1000 num);
    repeat split; intros; try reflexivity; lia.
Qed.


(** ** Sessions *)

Lemma loadProjects_run (out : FetchOutcome) (this : App) :
  exists w,
    loadProjects out this = (Normal tt, setProjects (loadedProjects out) this, w)
    /\ statsWrites w = [].
Proof.
  destruct out as [|[] [|[|field]]]; eexists; split; reflexivity.
Qed.

Lemma statsWrites_app (w1 w2 : list Effect) :
  statsWrites (w1 ++ w2) = (statsWrites w1 ++ statsWrites w2)%list.
Proof. apply List.filter_app. Qed.

Lemma statsWrites_renderProjects (this : App) :
  statsWrites (effects (Paged.renderProjects this))
  = match projects this, filteredProjects this with
    | _ :: _, _ :: _ => statsEffects (projects this)
    | _, _ => []
    end.
Proof.
  rewrite Paged_renderProjects_run. simpl.
  destruct (projects this); [reflexivity|].
  destruct (filteredProjects this); reflexivity.
Qed.

Lemma In_pageRange (x lo hi : Z) :
  In x (Paged.pageRange lo hi) <-> lo <= x <= hi.
Proof.
  unfold Paged.pageRange. rewrite in_map_iff. split.
  - intros (i & <- & Hi). apply in_seq in Hi. lia.
  - intros Hx. exists (Z.to_nat (x - lo)). split; [lia|].
    apply in_seq. lia.
Qed.

Lemma ceilDiv_pos (a b : Z) : 0 < a -> 0 < b -> 1 <= Js.ceilDiv a b.
Proof.
  intros Ha Hb. unfold Js.ceilDiv.
  apply Z.div_le_lower_bound; lia.
Qed.

(** Every button drawn carries a page between 1 and the page count. *)
Lemma generatePageNumbers_range (this : App) (page : Z) (active : bool) :
  1 <= currentPage this <= totalPages this ->
  In (PageButton page active) (Paged.generatePageNumbers this) ->
  1 <= page <= totalPages this.
Proof.
  intros Hc. unfold Paged.generatePageNumbers, Paged.createPageNumber.
  repeat match goal with
  | |- context [if ?c then _ else _] => destruct c eqn:?
  end;
  rewrite ?in_app_iff; simpl; rewrite ?in_map_iff;
  repeat match goal with
  | H : (_ <=? _) = true |- _ => apply Z.leb_le in H
  | H : (_ <=? _) = false |- _ => apply Z.leb_gt in H
  end;
  intros Hin;
  repeat match goal with
  | H : _ \/ _ |- _ => destruct H
  | H : False |- _ => destruct H
  | H : exists _, _ |- _ => destruct H as (? & ? & ?%In_pageRange)
  | H : PageButton _ _ = PageButton _ _ |- _ => injection H as <- ?
  | H : Ellipsis = PageButton _ _ |- _ => discriminate H
  end; lia.
Qed.

Section SessionFacts.
Context `{Platform}.

Lemma Paged_init_after_stats (out : FetchOutcome) (this : App) :
  let s1 :=
    setFilteredProjects
      (filterSort (loadedProjects out) (currentFilters this))
      (setProjects (loadedProjects out) this) in
  after (Paged.init out this) = after (Paged.renderPagination s1)
  /\ statsWrites (effects (Paged.init out this))
     = (statsEffects (loadedProjects out)
        ++ statsWrites (effects (Paged.renderProjects s1)))%list.
Proof.
  intros s1.
  destruct (loadProjects_run out this) as (w & Hrun & Hw).
  unfold Paged.init, updateStats, updateLanguageFilter, filterProjects,
    hideLoadingScreen. run.
  rewrite Hrun. cbv beta iota zeta.
  change (setFilteredProjects _ (setProjects (loadedProjects out) this)) with s1.
  change (projects (setProjects (loadedProjects out) this)) with (loadedProjects out).
  rewrite Paged_renderProjects_run. cbv beta iota zeta.
  rewrite !Paged_renderPagination_run. cbv zeta.
  destruct (Z.of_nat (length (filteredProjects s1)) =? 0);
    cbv beta iota; (split; [reflexivity|]);
    unfold effects; cbn [snd fst];
    rewrite !statsWrites_app, Hw, !statsWrites_statsEffects;
    cbn [statsWrites List.filter isStatsEffect app];
    rewrite ?app_nil_r; reflexivity.
Qed.

Lemma Paged_filterAndRender_stats (this : App) :
  statsWrites (effects (Paged.filterAndRender this))
  = statsWrites
      (effects (Paged.renderProjects
                  (setCurrentPage 1
                     (setFilteredProjects
                        (filterSort (projects this) (currentFilters this)) this)))).
Proof.
  rewrite Paged_filterAndRender_effects. cbv zeta.
  rewrite statsWrites_app, statsWrites_renderPagination. apply app_nil_r.
Qed.

Lemma Paged_goToPage_stats (page : Z) (this : App) :
  statsWrites (effects (Paged.goToPage page this))
  = statsWrites (effects (Paged.renderProjects (setCurrentPage page this))).
Proof.
  rewrite Paged_goToPage_effects.
  rewrite !statsWrites_app, statsWrites_renderPagination. apply app_nil_r.
Qed.

Lemma Paged_retry_after_stats (out : FetchOutcome) (this : App) :
  after (Paged.retry out this)
  = after (Paged.filterAndRender (setProjects (loadedProjects out) this))
  /\ statsWrites (effects (Paged.retry out this))
     = (statsEffects (loadedProjects out)
        ++ statsWrites (effects (Paged.filterAndRender
                                   (setProjects (loadedProjects out) this))))%list.
Proof.
  destruct (loadProjects_run out this) as (w & Hrun & Hw).
  unfold Paged.retry, updateStats, updateLanguageFilter, hideLoadingScreen. run.
  rewrite Hrun. cbv beta iota zeta.
  rewrite Paged_filterAndRender_run. cbv beta iota zeta.
  split; [reflexivity|].
  unfold effects; cbn [snd fst].
  change (projects (setProjects (loadedProjects out) this)) with (loadedProjects out).
  rewrite !statsWrites_app, Hw, !statsWrites_statsEffects.
  cbn [statsWrites List.filter isStatsEffect app].
  rewrite ?app_nil_r. reflexivity.
Qed.

(** The listeners for a change of search, language or sort: the filters
    are updated and the view recomputed. *)
Lemma Paged_handle_filter_change (e : Paged.Event) (this : App) :
  match e with
  | Paged.SearchInput v => Some (withSearch v)
  | Paged.ClearSearchClick => Some (withSearch "")
  | Paged.LanguageChange v => Some (withLanguage v)
  | Paged.SortChange v => Some (withSortBy v)
  | _ => None
  end = None
  \/ exists g,
       after (Paged.handle e this)
       = after (Paged.filterAndRender (setCurrentFilters (g (currentFilters this)) this))
       /\ statsWrites (effects (Paged.handle e this))
          = statsWrites (effects (Paged.filterAndRender
                                    (setCurrentFilters (g (currentFilters this)) this))).
Proof.
  destruct e as [v| |v|v|out| | |page]; try (left; reflexivity); right;
    [exists (withSearch v) | exists (withSearch "")
     | exists (withLanguage v) | exists (withSortBy v)];
    unfold Paged.handle, updateClearSearchButton; run;
    rewrite Paged_filterAndRender_run; cbv beta iota zeta;
    (split; [reflexivity|]);
    unfold effects; cbn [snd fst];
    rewrite ?statsWrites_app;
    cbn [statsWrites List.filter isStatsEffect app];
    reflexivity.
Qed.

Lemma Paged_handle_prev (this : App) :
  Paged.handle Paged.PrevClick this
  = if 1 <? currentPage this
    then Paged.goToPage (currentPage this - 1) this
    else (Normal tt, this, []).
Proof.
  unfold Paged.handle. run.
  destruct (1 <? currentPage this); [|reflexivity].
  rewrite Paged_goToPage_run. reflexivity.
Qed.

Lemma Paged_handle_next (this : App) :
  Paged.handle Paged.NextClick this
  = if currentPage this <? totalPages this
    then Paged.goToPage (currentPage this + 1) this
    else (Normal tt, this, []).
Proof.
  unfold Paged.handle. run.
  destruct (currentPage this <? totalPages this); [|reflexivity].
  rewrite Paged_goToPage_run. reflexivity.
Qed.

(** The state part of [consistent] after [renderPagination]. *)
Lemma renderPagination_consistent (this : App) :
  itemsPerPage this = 12 ->
  1 <= currentPage this ->
  filteredProjects this = filterSort (projects this) (currentFilters this) ->
  (filteredProjects this <> [] ->
   currentPage this
   <= Js.ceilDiv (Z.of_nat (length (filteredProjects this))) (itemsPerPage this)) ->
  let this' := after (Paged.renderPagination this) in
  itemsPerPage this' = 12
  /\ 1 <= currentPage this'
  /\ filteredProjects this' = filterSort (projects this') (currentFilters this')
  /\ (filteredProjects this' <> [] ->
      totalPages this'
      = Js.ceilDiv (Z.of_nat (length (filteredProjects this'))) (itemsPerPage this')
      /\ currentPage this' <= totalPages this')
  /\ projects this' = projects this.
Proof.
  intros Hpp Hc Hf Hle this'.
  destruct (renderPagination_fields this) as (Hp' & Hf' & Hg' & Hc' & Hpp').
  fold this' in Hp', Hf', Hg', Hc', Hpp'.
  pose proof (renderPagination_totalPages this) as Ht. fold this' in Ht.
  rewrite Hp', Hf', Hg', Hc', Hpp'.
  repeat split; try assumption.
  - rewrite Ht. destruct (_ =? 0) eqn:Hz; [|reflexivity].
    apply length_zero_nil in Hz. contradiction.
  - rewrite Ht. destruct (_ =? 0) eqn:Hz; [|auto].
    apply length_zero_nil in Hz. contradiction.
Qed.

Lemma filterAndRender_consistent (this : App) (w : list Effect) :
  itemsPerPage this = 12 ->
  (exists earlier, statsWrites w = (earlier ++ statsEffects (projects this))%list) ->
  consistent (after (Paged.filterAndRender this))
             (w ++ effects (Paged.filterAndRender this)).
Proof.
  intros Hpp (earlier & Hw).
  rewrite Paged_filterAndRender_after.
  set (s1 := setCurrentPage 1 _).
  destruct (renderPagination_consistent s1) as (H1 & H2 & H3 & H4 & H5).
  - exact Hpp.
  - simpl. lia.
  - reflexivity.
  - intros Hne. simpl. apply ceilDiv_pos; [|lia].
    simpl in Hne. destruct (filterSort _ _); [contradiction | simpl; lia].
  - unfold consistent. repeat split; try assumption; try (apply H4; assumption).
    rewrite H5. simpl.
    rewrite statsWrites_app, Paged_filterAndRender_stats, statsWrites_renderProjects.
    fold s1. simpl.
    destruct (projects this), (filterSort _ _);
      solve [ exists earlier; rewrite app_nil_r; exact Hw
            | eexists; rewrite Hw; reflexivity ].
Qed.

Lemma consistent_stats (this : App) (w w' : list Effect) :
  statsWrites w = statsWrites w' -> consistent this w -> consistent this w'.
Proof.
  intros Heq (H1 & H2 & H3 & H4 & H5).
  unfold consistent. rewrite <- Heq. auto.
Qed.

Lemma goToPage_consistent (this : App) (w : list Effect) (page : Z) :
  consistent this w ->
  1 <= page ->
  (filteredProjects this <> [] -> page <= totalPages this) ->
  consistent (after (Paged.goToPage page this))
             (w ++ effects (Paged.goToPage page this)).
Proof.
  intros (Hpp & Hc & Hf & Ht & earlier & Hw) Hp Hle.
  rewrite Paged_goToPage_after.
  destruct (renderPagination_consistent (setCurrentPage page this))
    as (H1 & H2 & H3 & H4 & H5).
  - exact Hpp.
  - exact Hp.
  - exact Hf.
  - intros Hne. simpl in *. destruct (Ht Hne) as [<- _]. apply Hle, Hne.
  - unfold consistent. repeat split; try assumption; try (apply H4; assumption).
    rewrite H5. simpl.
    rewrite statsWrites_app, Paged_goToPage_stats, statsWrites_renderProjects.
    simpl.
    destruct (projects this), (filteredProjects this);
      solve [ exists earlier; rewrite app_nil_r; exact Hw
            | eexists; rewrite Hw; reflexivity ].
Qed.

Lemma init_consistent (out : FetchOutcome) :
  consistent (after (Paged.init out constructed))
             (effects (Paged.init out constructed)).
Proof.
  destruct (Paged_init_after_stats out constructed) as [Ha Hs].
  rewrite Ha. cbv zeta in *.
  set (s1 := setFilteredProjects _ _) in *.
  destruct (renderPagination_consistent s1) as (H1 & H2 & H3 & H4 & H5).
  - reflexivity.
  - simpl. lia.
  - reflexivity.
  - intros Hne. simpl. apply ceilDiv_pos; [|lia].
    simpl in Hne. destruct (filterSort _ _); [contradiction | simpl; lia].
  - unfold consistent. repeat split; try assumption; try (apply H4; assumption).
    rewrite H5, Hs, statsWrites_renderProjects.
    change (projects s1) with (loadedProjects out).
    generalize (statsEffects (loadedProjects out)). intros S. simpl.
    destruct (loadedProjects out), (filterSort _ _);
      solve [ exists []; rewrite app_nil_r; reflexivity
            | eexists; reflexivity ].
Qed.

(** Every state of a session is consistent. *)
Lemma reachable_consistent (this : App) (w : list Effect) :
  reachable this w -> consistent this w.
Proof.
  induction 1 as [out|this w e Hr IH Hen].
  - apply init_consistent.
  - pose proof IH as (Hpp & Hc & Hf & Ht & earlier & Hw).
    destruct (Paged_handle_filter_change e this) as [Hnone|(g & Ha & Hs)].
    + destruct e as [v| |v|v|out| | |page]; try discriminate Hnone.
      * (* retry *)
        destruct (Paged_retry_after_stats out this) as [Ha Hs].
        unfold Paged.handle. rewrite Ha.
        eapply consistent_stats;
          [|apply (filterAndRender_consistent
                     (setProjects (loadedProjects out) this)
                     (w ++ statsEffects (loadedProjects out)));
            [exact Hpp | eexists; rewrite statsWrites_app, statsWrites_statsEffects;
                         reflexivity]].
        rewrite !statsWrites_app, Hs, statsWrites_statsEffects.
        rewrite app_assoc. reflexivity.
      * (* previous page *)
        rewrite Paged_handle_prev.
        destruct (Z.ltb_spec 1 (currentPage this)) as [Hlt|Hge].
        -- apply goToPage_consistent; [exact IH | lia |].
           intros Hne. destruct (Ht Hne). lia.
        -- simpl. rewrite app_nil_r. exact IH.
      * (* next page *)
        rewrite Paged_handle_next.
        destruct (Z.ltb_spec (currentPage this) (totalPages this)) as [Hlt|Hge].
        -- apply goToPage_consistent; [exact IH | lia | lia].
        -- simpl. rewrite app_nil_r. exact IH.
      * (* a page button *)
        destruct Hen as [Hne (active & Hin)].
        destruct (Ht Hne) as [Htot Hcur].
        apply generatePageNumbers_range in Hin; [|lia].
        unfold Paged.handle.
        apply goToPage_consistent; [exact IH | lia | lia].
    + rewrite Ha.
      eapply consistent_stats;
        [|apply (filterAndRender_consistent
                   (setCurrentFilters (g (currentFilters this)) this) w);
          [exact Hpp | exists earlier; exact Hw]].
      rewrite !statsWrites_app, Hs. reflexivity.
Qed.

(** In a session the hypotheses of the pagination theorem hold: the page
    size is positive, an empty collection has an empty filtered list, and
    a page that can be clicked is at least 1. *)
Lemma reachable_pagination_hypotheses (this : App) (w : list Effect) (page : Z) :
  reachable this w ->
  0 < itemsPerPage this
  /\ (projects this = [] -> filteredProjects this = [])
  /\ (clickable this page -> 1 <= page <= totalPages this).
Proof.
  intros Hr. apply reachable_consistent in Hr as (Hpp & Hc & Hf & Ht & _).
  split; [lia|]. split.
  - intros Hnil. rewrite Hf, Hnil. apply filterSort_nil.
  - intros [Hne (active & Hin)]. destruct (Ht Hne) as [_ Hle].
    eapply generatePageNumbers_range; [|exact Hin]. lia.
Qed.

End SessionFacts.

Section StatsFacts.
Context `{Platform}.

(** C5, as the code has it: [updateStats] writes the record count, the
    sum of stars, the sum of forks and the number of distinct non-empty
    languages of the whole collection, whatever the filters are.  A
    recomputation of the paginated view ends with these writes when it
    draws at least one card and makes none of them otherwise; the view
    without pagination never makes them when it recomputes.  No
    recomputation changes the collection they were computed from, and in
    every state of a session of the paginated class the statistics
    written last are those of the collection it holds. *)
Theorem statistics_over_the_full_collection (this : App) :
  let ps := projects this in
  let kept := filterSort ps (currentFilters this) in
  effects (updateStats this)
  = [ TotalProjectsText (formatNumber (Z.of_nat (length ps)));
      TotalStarsText (formatNumber (sumOf stars ps));
      TotalForksText (formatNumber (sumOf forks ps));
      TotalLanguagesText (Z.of_nat (length (languagesOf ps))) ]
  /\ List.NoDup (languagesOf ps)
  /\ (forall l, In l (languagesOf ps) <->
                l <> "" /\ exists p, In p ps /\ language p = Some l)
  /\ statsWrites (effects (Paged.filterAndRender this))
     = match ps, kept with
       | _ :: _, _ :: _ => effects (updateStats this)
       | _, _ => []
       end
  /\ statsWrites (effects (Unpaged.filterAndRender this)) = []
  /\ projects (after (Paged.filterAndRender this)) = ps
  /\ projects (after (Unpaged.filterAndRender this)) = ps
  /\ (forall s w, reachable s w ->
        exists earlier,
          statsWrites w = (earlier ++ effects (updateStats s))%list).
Proof.
  intros ps kept.
  split; [|split; [|split; [|split; [|split; [|split; [|split]]]]]].
  - rewrite updateStats_run. unfold effects, statsEffects. simpl.
    rewrite totalStarsOf_sumOf, totalForksOf_sumOf. reflexivity.
  - apply NoDup_distinct.
  - intros l. apply In_languagesOf.
  - rewrite Paged_filterAndRender_stats, statsWrites_renderProjects.
    reflexivity.
  - rewrite Unpaged_filterAndRender_run, Unpaged_renderProjects_run. simpl.
    destruct (_ =? 0); [reflexivity|]. destruct (_ =? 0); reflexivity.
  - rewrite Paged_filterAndRender_after.
    match goal with
    | |- projects (after (Paged.renderPagination ?s)) = _ =>
        destruct (renderPagination_fields s) as (Hp & _); exact Hp
    end.
  - rewrite Unpaged_filterAndRender_run, Unpaged_renderProjects_run. reflexivity.
  - intros s w Hr. apply reachable_consistent in Hr as (_ & _ & _ & _ & Hs).
    exact Hs.
Qed.

End StatsFacts.

(** * The theorems at work on the sample data *)

Example formatNumber_samples :
  map formatNumber [0; 999; 1000; 1450; 1500; 999949; 999950; 1250000; 999999999]
  = ["0"; "999"; "1.0K"; "1.4K"; "1.5K"; "999.9K"; "1000.0K"; "1.3M"; "1000.0M"].
Proof. vm_compute. reflexivity. Qed.

Example filterSort_samples :
  map name (filterSort (H := AsciiPlatform) sampleProjects noFilters)
  = ["hekate"; "Core"; "Tinfoil"]
  /\ map name (filterSort (H := AsciiPlatform) sampleProjects (Filters.mk "ATMO" "all" "stars"))
     = ["Core"]
  /\ map name (filterSort (H := AsciiPlatform) sampleProjects (Filters.mk "" "C" "name"))
     = ["hekate"].
Proof. vm_compute. repeat split. Qed.

Lemma search_keeps_exactly_the_matches_witness :
  Filters.search (Filters.mk "ATMO" "all" "stars") <> ""
  /\ In atmosphere
        (filterSort (H := AsciiPlatform) sampleProjects (Filters.mk "ATMO" "all" "stars")).
Proof.
  split; [discriminate|].
  apply (search_keeps_exactly_the_matches (H := AsciiPlatform));
    [discriminate|].
  split; [left; reflexivity|]. split.
  - right. right. exists "atmosphere firmware".
    split; [reflexivity|]. split; [discriminate|].
    exists "", "sphere firmware". reflexivity.
  - left. reflexivity.
Defined.

Lemma language_filter_exact_from_scratch_witness :
  Filters.language (Filters.mk "" "C" "stars") <> "all"
  /\ forall p,
       In p (filteredProjects
               (after (filterProjects (H := AsciiPlatform)
                         (mkApp sampleProjects [atmosphere] (Filters.mk "" "C" "stars")
                                1 12 1)))) ->
       language p = Some "C".
Proof.
  split; [discriminate|].
  apply (language_filter_exact_from_scratch (H := AsciiPlatform)
           (mkApp sampleProjects [atmosphere] (Filters.mk "" "C" "stars") 1 12 1)).
  discriminate.
Defined.

Lemma stars_sort_descending_and_stable_witness :
  Filters.sortBy noFilters = "stars"
  /\ StronglySorted (descending stars)
       (filterSort (H := AsciiPlatform) sampleProjects noFilters)
  /\ map stars (filterSort (H := AsciiPlatform) [atmosphere; hekate; tinfoil] noFilters)
     = [50; 5; 1].
Proof.
  split; [reflexivity|].
  destruct (stars_sort_descending_and_stable (H := AsciiPlatform)
              sampleProjects noFilters eq_refl) as (Hsorted & _ & _ & Hex & _).
  split; [exact Hsorted|].
  apply (Hex atmosphere hekate tinfoil); reflexivity.
Defined.

Lemma unknown_sort_key_sorts_by_stars_witness :
  ~ In (Filters.sortBy (Filters.mk "" "all" "downloads"))
       ["stars"; "forks"; "name"; "author"; "latest"; "created"]
  /\ filterSort (H := AsciiPlatform) sampleProjects (Filters.mk "" "all" "downloads")
     = filterSort (H := AsciiPlatform) sampleProjects (Filters.mk "" "all" "stars").
Proof.
  assert (Hnot : ~ In (Filters.sortBy (Filters.mk "" "all" "downloads"))
                      ["stars"; "forks"; "name"; "author"; "latest"; "created"]).
  { simpl. intros [Hk|[Hk|[Hk|[Hk|[Hk|[Hk|[]]]]]]]; discriminate Hk. }
  split; [exact Hnot|].
  apply (unknown_sort_key_sorts_by_stars (H := AsciiPlatform) sampleProjects
           (Filters.mk "" "all" "downloads") Hnot).
Defined.

Lemma filterProjects_deterministic_witness :
  filteredProjects
    (after (filterProjects (H := AsciiPlatform)
              (mkApp sampleProjects [] (Filters.mk "e" "all" "forks") 1 12 1)))
  = filteredProjects
      (after (filterProjects (H := AsciiPlatform)
                (mkApp sampleProjects [tinfoil] (Filters.mk "e" "all" "forks") 3 12 7))).
Proof.
  apply (filterProjects_deterministic (H := AsciiPlatform)
           (mkApp sampleProjects [] (Filters.mk "e" "all" "forks") 1 12 1)
           (mkApp sampleProjects [tinfoil] (Filters.mk "e" "all" "forks") 3 12 7)
           eq_refl eq_refl).
Defined.

Lemma pagination_of_the_filtered_list_witness :
  0 < itemsPerPage manyLoadedApp
  /\ length (filteredProjects manyLoadedApp) = 25%nat
  /\ totalPages (after (Paged.goToPage 3 manyLoadedApp)) = 3
  /\ exists last,
       filteredProjects manyLoadedApp !! 24%nat = Some last
       /\ shownCards (effects (Paged.goToPage 3 manyLoadedApp)) = Some [last].
Proof.
  assert (Hpp : 0 < itemsPerPage manyLoadedApp) by (vm_compute; reflexivity).
  assert (Hlen : length (filteredProjects manyLoadedApp) = 25%nat)
    by (vm_compute; reflexivity).
  assert (Hcons : projects manyLoadedApp = [] -> filteredProjects manyLoadedApp = []).
  { intros Hnil. vm_compute in Hnil. discriminate Hnil. }
  split; [exact Hpp|]. split; [exact Hlen|].
  destruct (pagination_of_the_filtered_list (H := AsciiPlatform) manyLoadedApp 3
              Hpp ltac:(lia) Hcons) as (_ & _ & _ & Hex & _).
  apply Hex; [vm_compute; reflexivity | exact Hlen].
Defined.

(** The claim's page count fails on an empty result: after [init] has
    loaded the sample document, a search that matches nothing leaves the
    stored page count at 1, while the ceiling of 0 / 12 is 0.  And the
    class without page fields does not paginate: a change of sort on
    twenty-five records draws all twenty-five cards. *)
Lemma page_count_stale_on_empty_result :
  (filteredProjects
     (after (Paged.handle (H := AsciiPlatform) (Paged.SearchInput "zzz") loadedApp))
   = []
   /\ totalPages
        (after (Paged.handle (H := AsciiPlatform) (Paged.SearchInput "zzz") loadedApp))
      = 1
   /\ Js.ceilDiv
        (Z.of_nat
           (length
              (filteredProjects
                 (after (Paged.handle (H := AsciiPlatform)
                           (Paged.SearchInput "zzz") loadedApp)))))
        (itemsPerPage
           (after (Paged.handle (H := AsciiPlatform) (Paged.SearchInput "zzz") loadedApp)))
      = 0)
  /\ option_map (@length Project)
       (shownCards
          (effects (Unpaged.handle (H := AsciiPlatform) (Unpaged.SortChange "forks")
                      manyLoadedUnpagedApp)))
     = Some 25%nat.
Proof. vm_compute. repeat split. Qed.

(** The claim's update on every recomputation fails on the same input: the
    recomputation makes no write to the statistics elements, although the
    collection has statistics to show.  In the class without page fields
    a recomputation that draws cards makes none either. *)
Lemma no_stats_write_on_empty_result :
  (statsWrites
     (effects (Paged.handle (H := AsciiPlatform) (Paged.SearchInput "zzz") loadedApp))
   = []
   /\ length (statsEffects (projects loadedApp)) = 4%nat)
  /\ (statsWrites
        (effects (Unpaged.handle (H := AsciiPlatform) (Unpaged.SortChange "forks")
                    manyLoadedUnpagedApp))
      = []
      /\ option_map (@length Project)
           (shownCards
              (effects (Unpaged.handle (H := AsciiPlatform) (Unpaged.SortChange "forks")
                          manyLoadedUnpagedApp)))
         = Some 25%nat).
Proof. vm_compute. repeat split. Qed.

Lemma load_failure_is_the_empty_collection_witness :
  Unobtainable NetworkFailure
  /\ Unobtainable (HttpResponse true Malformed)
  /\ projects (after (loadProjects NetworkFailure loadedApp)) = []
  /\ after (loadProjects NetworkFailure loadedApp)
     = after (loadProjects (HttpResponse true Malformed) loadedApp).
Proof.
  split; [constructor|]. split; [constructor|].
  destruct (load_failure_is_the_empty_collection (H := AsciiPlatform)
              NetworkFailure (HttpResponse true Malformed) loadedApp
              Unobtainable_network Unobtainable_malformed)
    as (_ & Hp & Ha & _).
  split; [exact Hp | exact Ha].
Defined.

Lemma filterProjects_leaves_the_collection_witness :
  ({[ 0%nat := sampleProjects ]} : gmap nat (list Project)) !! 0%nat = Some sampleProjects
  /\ exists this' h',
       Store.filterProjects (H := AsciiPlatform)
         (Store.mkObj 0 0 (Filters.mk "e" "C++" "stars")) {[ 0%nat := sampleProjects ]}
       = Some (this', h')
       /\ h' !! 0%nat = Some sampleProjects.
Proof.
  assert (Hps : ({[ 0%nat := sampleProjects ]} : gmap nat (list Project)) !! 0%nat
                = Some sampleProjects) by apply lookup_singleton_eq.
  split; [exact Hps|].
  destruct (StoreFacts.filterProjects_leaves_the_collection (H := AsciiPlatform)
              (Store.mkObj 0 0 (Filters.mk "e" "C++" "stars"))
              {[ 0%nat := sampleProjects ]} sampleProjects Hps)
    as (this' & h' & Hrun & Href & _ & Hkeep & _).
  exists this', h'. split; [exact Hrun|].
  rewrite Href in Hkeep. exact Hkeep.
Defined.

Lemma formatNumber_agrees_with_NumberUtils_witness :
  0 <= 1500 < 1000000000
  /\ formatNumber 1500 = NumberUtils.format (Some 1500) 1.
Proof.
  assert (Hr : 0 <= 1500 < 1000000000) by lia.
  split; [exact Hr|].
  destruct (formatNumber_agrees_with_NumberUtils 1500 Hr) as [Heq _].
  exact Heq.
Defined.

(** * Further properties of the code *)

(** ** Pages of the filtered list *)

Lemma ceilDiv_spec (a b : Z) :
  0 < b -> (Js.ceilDiv a b - 1) * b < a <= Js.ceilDiv a b * b.
Proof.
  intros Hb. unfold Js.ceilDiv.
  pose proof (Z.div_mod (a + b - 1) b ltac:(lia)) as Hdm.
  pose proof (Z.mod_pos_bound (a + b - 1) b Hb) as Hm.
  nia.
Qed.

Lemma ceilDiv_unique (a b k : Z) :
  0 < b -> (k - 1) * b < a <= k * b -> Js.ceilDiv a b = k.
Proof.
  intros Hb Hk. pose proof (ceilDiv_spec a b Hb) as Hs. nia.
Qed.

Lemma concat_chunks {A : Type} (l : list A) (k n : nat) :
  concat (map (fun i => take k (drop (i * k) l)) (seq 0 n)) = take (n * k) l.
Proof.
  induction n as [|n IH]; [reflexivity|].
  rewrite seq_S, map_app, concat_app, IH. simpl.
  rewrite app_nil_r, take_take_drop. f_equal. lia.
Qed.

Lemma concat_pageSlices {A : Type} (l : list A) (perPage : Z) :
  0 < perPage ->
  concat (map (pageSlice l perPage)
              (Paged.pageRange 1 (Js.ceilDiv (Z.of_nat (length l)) perPage)))
  = l.
Proof.
  intros Hpp. unfold Paged.pageRange. rewrite map_map.
  pose proof (ceilDiv_spec (Z.of_nat (length l)) perPage Hpp) as Hs.
  set (n := Js.ceilDiv _ _) in *.
  rewrite (map_ext _ (fun i => take (Z.to_nat perPage) (drop (i * Z.to_nat perPage) l))).
  - rewrite concat_chunks. apply take_ge. nia.
  - intros i. unfold pageSlice. do 2 f_equal. nia.
Qed.

Lemma shownCards_goToPage (this : App) (p : Z) :
  0 < itemsPerPage this -> 1 <= p ->
  (projects this = [] -> filteredProjects this = []) ->
  shownCards (effects (Paged.goToPage p this))
  = Some (pageSlice (filteredProjects this) (itemsPerPage this) p).
Proof.
  intros Hpp Hp Hnil.
  rewrite Paged_goToPage_effects, !shownCards_app, shownCards_renderPagination.
  simpl. apply (shownCards_renderProjects (setCurrentPage p this)); assumption.
Qed.

(** X1: flipping through the pages 1, 2, ..., [totalPages] of the bar shows
    every project of the filtered list exactly once and in the list's
    order: the grids drawn by [goToPage], put one after the other, are
    [this.filteredProjects]. *)
Theorem pages_partition_the_filtered_list (this : App) :
  0 < itemsPerPage this ->
  filteredProjects this <> [] ->
  projects this <> [] ->
  let pages := totalPages (after (Paged.renderPagination this)) in
  concat (map (fun p => default [] (shownCards (effects (Paged.goToPage p this))))
              (Paged.pageRange 1 pages))
  = filteredProjects this.
Proof.
  intros Hpp Hne Hps pages.
  unfold pages. rewrite renderPagination_totalPages.
  destruct (_ =? 0) eqn:Hz; [apply length_zero_nil in Hz; contradiction|].
  rewrite <- (concat_pageSlices (filteredProjects this) (itemsPerPage this) Hpp) at 2.
  f_equal. apply map_ext_in. intros p Hin. apply In_pageRange in Hin.
  rewrite shownCards_goToPage; [reflexivity | lia | lia | contradiction].
Qed.

Lemma pages_partition_the_filtered_list_witness :
  concat (map (fun p => default [] (shownCards (effects (Paged.goToPage p manyLoadedApp))))
              (Paged.pageRange 1 3))
  = filteredProjects manyLoadedApp.
Proof.
  apply (pages_partition_the_filtered_list manyLoadedApp);
    [reflexivity | discriminate | discriminate].
Defined.

Lemma ceilDiv_zero (b : Z) : 0 < b -> Js.ceilDiv 0 b = 0.
Proof. intros Hb. apply ceilDiv_unique; lia. Qed.

(** X2: the text "Showing a-b of n" is right about the grid: when the
    current page is one of the pages of the filtered list, [renderPagination]
    writes the positions of the first and the last card [renderProjects]
    draws, counted from 1, and the length of the filtered list. *)
Theorem pagination_info_names_the_cards_shown (this : App) :
  0 < itemsPerPage this ->
  projects this <> [] ->
  1 <= currentPage this
    <= Js.ceilDiv (Z.of_nat (length (filteredProjects this))) (itemsPerPage this) ->
  exists startItem endItem cards,
    In (PaginationInfoText startItem endItem (Z.of_nat (length (filteredProjects this))))
       (effects (Paged.renderPagination this))
    /\ shownCards (effects (Paged.renderProjects this)) = Some cards
    /\ 1 <= startItem <= endItem
    /\ endItem <= Z.of_nat (length (filteredProjects this))
    /\ Z.of_nat (length cards) = endItem - startItem + 1
    /\ forall i, (i < length cards)%nat ->
         cards !! i = filteredProjects this !! (Z.to_nat (startItem - 1) + i)%nat.
Proof.
  intros Hpp Hps Hcur.
  set (len := Z.of_nat (length (filteredProjects this))) in *.
  pose proof (ceilDiv_spec len (itemsPerPage this) Hpp) as Hs.
  assert (Hlen : 0 < len).
  { destruct (Z.eq_dec len 0) as [Hz|Hz]; [|lia].
    rewrite Hz, ceilDiv_zero in Hcur; lia. }
  exists ((currentPage this - 1) * itemsPerPage this + 1),
         (Z.min (currentPage this * itemsPerPage this) len),
         (pageSlice (filteredProjects this) (itemsPerPage this) (currentPage this)).
  split; [|split; [|split; [|split; [|split]]]].
  - rewrite Paged_renderPagination_run. cbv zeta. fold len.
    destruct (Z.eqb_spec len 0) as [Hz|_]; [lia|].
    unfold effects. cbn [snd]. right. left. reflexivity.
  - apply shownCards_renderProjects; [assumption | lia |].
    intros Hnil. contradiction.
  - nia.
  - lia.
  - unfold pageSlice. rewrite length_take, length_drop. fold len. nia.
  - intros i Hi. unfold pageSlice in *.
    rewrite length_take in Hi.
    rewrite lookup_take_lt by lia. rewrite lookup_drop.
    f_equal. nia.
Qed.

Lemma pagination_info_names_the_cards_shown_witness :
  exists startItem endItem cards,
    In (PaginationInfoText startItem endItem 25)
       (effects (Paged.renderPagination (setCurrentPage 3 manyLoadedApp)))
    /\ shownCards (effects (Paged.renderProjects (setCurrentPage 3 manyLoadedApp)))
       = Some cards
    /\ 1 <= startItem <= endItem
    /\ endItem <= 25
    /\ Z.of_nat (length cards) = endItem - startItem + 1.
Proof.
  destruct (pagination_info_names_the_cards_shown (setCurrentPage 3 manyLoadedApp))
    as (a & b & cards & H1 & H2 & H3 & H4 & H5 & _).
  - reflexivity.
  - discriminate.
  - vm_compute. split; discriminate.
  - exists a, b, cards. repeat split; try assumption; apply H3.
Defined.

(** ** The page-number strip *)

Lemma pageRange_three (lo hi : Z) :
  hi = lo + 2 -> Paged.pageRange lo hi = [lo; lo + 1; lo + 2].
Proof.
  intros ->. unfold Paged.pageRange.
  replace (lo + 2 - lo + 1) with 3 by lia. simpl.
  repeat (f_equal; try lia).
Qed.

Ltac eqb_cases :=
  repeat match goal with
  | |- context [?a =? ?b] => destruct (Z.eqb_spec a b); try lia
  end.

(** X3: the strip [generatePageNumbers] draws, for a current page among
    the pages: exactly one button is active and it is the current page; the
    strip starts with page 1 and ends with the last page; it never has more
    than seven entries; the page numbers grow from left to right; and up to
    five pages every page has its button. *)
Theorem page_strip_shape (this : App) :
  1 <= currentPage this <= totalPages this ->
  let items := Paged.generatePageNumbers this in
  List.filter isActive items = [PageButton (currentPage this) true]
  /\ head items = Some (PageButton 1 (1 =? currentPage this))
  /\ last items
     = Some (PageButton (totalPages this) (totalPages this =? currentPage this))
  /\ (length items <= 7)%nat
  /\ StronglySorted Z.lt (buttonPages items)
  /\ (totalPages this <= 5 -> buttonPages items = Paged.pageRange 1 (totalPages this)).
Proof.
  destruct this as [ps fs f cur ipp tot].
  cbn [currentPage totalPages]. intros Hc. cbv zeta.
  unfold Paged.generatePageNumbers, Paged.createPageNumber.
  cbn [currentPage totalPages].
  destruct (Z.leb_spec tot 1) as [H1|H1].
  { assert (tot = 1) by lia. assert (cur = 1) by lia. subst.
    simpl. repeat split; try lia; try reflexivity; repeat constructor. }
  destruct (Z.leb_spec tot 5) as [H5|H5].
  { assert (Ht : tot = 2 \/ tot = 3 \/ tot = 4 \/ tot = 5) by lia.
    assert (Hcur : cur = 1 \/ cur = 2 \/ cur = 3 \/ cur = 4 \/ cur = 5) by lia.
    destruct Ht as [-> | [-> | [-> | ->]]];
      destruct Hcur as [-> | [-> | [-> | [-> | ->]]]]; try lia;
      simpl; repeat split; try lia; try reflexivity;
      repeat constructor; lia. }
  destruct (Z.leb_spec cur 3) as [H3|H3].
  { assert (Hcur : cur = 1 \/ cur = 2 \/ cur = 3) by lia.
    destruct Hcur as [-> | [-> | ->]]; eqb_cases; simpl;
      repeat split; try lia; try reflexivity; repeat constructor; lia. }
  destruct (Z.leb_spec (tot - 2) cur) as [H2|H2].
  { rewrite (pageRange_three (tot - 2) tot) by lia.
    cbn [map app]. eqb_cases; simpl;
      repeat split; try lia; try reflexivity;
      try (repeat f_equal; lia); repeat constructor; lia. }
  rewrite (pageRange_three (cur - 1) (cur + 1)) by lia.
  cbn [map app]. eqb_cases; simpl;
    repeat split; try lia; try reflexivity;
    try (repeat f_equal; lia); repeat constructor; lia.
Qed.

Lemma page_strip_shape_witness :
  List.filter isActive (Paged.generatePageNumbers (mkApp [] [] noFilters 6 12 9))
  = [PageButton 6 true]
  /\ buttonPages (Paged.generatePageNumbers (mkApp [] [] noFilters 6 12 9))
     = [1; 5; 6; 7; 9].
Proof.
  destruct (page_strip_shape (mkApp [] [] noFilters 6 12 9)) as (H1 & _).
  - simpl. lia.
  - split; [exact H1 | reflexivity].
Defined.

(** ** Page turns *)

Section PageTurns.
Context `{Platform}.

(** X4: the Previous and Next buttons.  On the first page Previous does
    nothing at all, on the last page Next does nothing at all; elsewhere
    they move the current page by one.  A button [renderPagination] has
    just drawn as disabled is one whose listener does nothing.  No page
    turn touches the collection, the filters or the filtered list.  Turning
    to the page already shown draws the same things again and changes
    nothing, so a click that reaches [goToPage] more than once is as good
    as one. *)
Theorem prev_and_next_stop_at_the_ends (this : App) :
  (currentPage this <= 1 ->
   Paged.handle Paged.PrevClick this = (Normal tt, this, []))
  /\ (totalPages this <= currentPage this ->
      Paged.handle Paged.NextClick this = (Normal tt, this, []))
  /\ (1 < currentPage this ->
      currentPage (after (Paged.handle Paged.PrevClick this)) = currentPage this - 1)
  /\ (currentPage this < totalPages this ->
      currentPage (after (Paged.handle Paged.NextClick this)) = currentPage this + 1)
  /\ (let drawn := Paged.renderPagination this in
      (In (PrevDisabled true) (effects drawn) ->
       Paged.handle Paged.PrevClick (after drawn) = (Normal tt, after drawn, []))
      /\ (In (NextDisabled true) (effects drawn) ->
          Paged.handle Paged.NextClick (after drawn) = (Normal tt, after drawn, [])))
  /\ (forall e,
        e = Paged.PrevClick \/ e = Paged.NextClick \/ (exists p, e = Paged.PageClick p) ->
        projects (after (Paged.handle e this)) = projects this
        /\ currentFilters (after (Paged.handle e this)) = currentFilters this
        /\ filteredProjects (after (Paged.handle e this)) = filteredProjects this
        /\ itemsPerPage (after (Paged.handle e this)) = itemsPerPage this)
  /\ (forall p,
        Paged.goToPage p (after (Paged.goToPage p this))
        = (Normal tt, after (Paged.goToPage p this), effects (Paged.goToPage p this))).
Proof.
  split; [|split; [|split; [|split; [|split; [|split]]]]].
  - intros Hle. rewrite Paged_handle_prev.
    destruct (Z.ltb_spec 1 (currentPage this)); [lia | reflexivity].
  - intros Hle. rewrite Paged_handle_next.
    destruct (Z.ltb_spec (currentPage this) (totalPages this)); [lia | reflexivity].
  - intros Hlt. rewrite Paged_handle_prev.
    destruct (Z.ltb_spec 1 (currentPage this)); [|lia].
    rewrite Paged_goToPage_after.
    destruct (renderPagination_fields (setCurrentPage (currentPage this - 1) this))
      as (_ & _ & _ & Hc & _).
    exact Hc.
  - intros Hlt. rewrite Paged_handle_next.
    destruct (Z.ltb_spec (currentPage this) (totalPages this)); [|lia].
    rewrite Paged_goToPage_after.
    destruct (renderPagination_fields (setCurrentPage (currentPage this + 1) this))
      as (_ & _ & _ & Hc & _).
    exact Hc.
  - cbv zeta. rewrite Paged_renderPagination_run. cbv zeta.
    destruct (_ =? 0).
    + split; intros [Hin|[]]; discriminate Hin.
    + unfold effects, after. cbn [fst snd].
      split; intros Hin.
      * destruct Hin as [Hin|[Hin|[Hin|[Hin|[Hin|[]]]]]]; try discriminate Hin.
        injection Hin as Hin. apply Z.eqb_eq in Hin.
        rewrite Paged_handle_prev. cbn [currentPage setTotalPages].
        rewrite Hin. reflexivity.
      * destruct Hin as [Hin|[Hin|[Hin|[Hin|[Hin|[]]]]]]; try discriminate Hin.
        injection Hin as Hin. apply Z.eqb_eq in Hin.
        rewrite Paged_handle_next. rewrite Hin at 1.
        rewrite Z.ltb_irrefl. reflexivity.
  - intros e He.
    assert (Hgo : forall p,
      projects (after (Paged.goToPage p this)) = projects this
      /\ currentFilters (after (Paged.goToPage p this)) = currentFilters this
      /\ filteredProjects (after (Paged.goToPage p this)) = filteredProjects this
      /\ itemsPerPage (after (Paged.goToPage p this)) = itemsPerPage this).
    { intros p. rewrite Paged_goToPage_after.
      destruct (renderPagination_fields (setCurrentPage p this))
        as (H1 & H2 & H3 & _ & H5).
      auto. }
    destruct He as [-> | [-> | [p ->]]].
    + rewrite Paged_handle_prev. destruct (1 <? _); [apply Hgo | auto].
    + rewrite Paged_handle_next. destruct (_ <? _); [apply Hgo | auto].
    + apply Hgo.
  - intros p. destruct this as [ps fs f cur ipp tot].
    rewrite !Paged_goToPage_run, !Paged_renderProjects_run, !Paged_renderPagination_run.
    unfold after, effects. cbn [fst snd]. cbv zeta.
    cbn [setCurrentPage setTotalPages projects filteredProjects currentFilters
         currentPage itemsPerPage totalPages].
    destruct (Z.of_nat (length fs) =? 0) eqn:Hlen;
      cbn [fst snd setCurrentPage setTotalPages projects filteredProjects
           currentFilters currentPage itemsPerPage totalPages];
      rewrite ?Hlen;
      cbn [fst snd setCurrentPage setTotalPages projects filteredProjects
           currentFilters currentPage itemsPerPage totalPages];
      reflexivity.
Qed.

End PageTurns.

(** ** Start-up and retry *)

Lemma loadProjects_quiet (out : FetchOutcome) (this : App) :
  exists w,
    loadProjects out this = (Normal tt, setProjects (loadedProjects out) this, w)
    /\ pageEffects w = [].
Proof.
  destruct out as [|[] [|[|field]]]; eexists; split; reflexivity.
Qed.

Lemma pageEffects_nil_console (w : list Effect) :
  pageEffects w = [] -> Forall (fun e => isConsoleEffect e = true) w.
Proof.
  induction w as [|e w IH]; [constructor|].
  unfold pageEffects. simpl. destruct (isConsoleEffect e) eqn:He.
  - intros Hw. constructor; [exact He | apply IH, Hw].
  - discriminate.
Qed.

Lemma shownCards_console (w : list Effect) :
  Forall (fun e => isConsoleEffect e = true) w -> shownCards w = None.
Proof.
  induction 1 as [|e w He _ IH]; [reflexivity|].
  simpl. rewrite IH. destruct e; try discriminate He; reflexivity.
Qed.

Section StartUp.
Context `{Platform}.

Lemma Paged_init_run (out : FetchOutcome) (this : App) :
  let s1 :=
    setFilteredProjects
      (filterSort (loadedProjects out) (currentFilters this))
      (setProjects (loadedProjects out) this) in
  exists w,
    pageEffects w = []
    /\ outcome (Paged.init out this) = Normal tt
    /\ after (Paged.init out this) = after (Paged.renderPagination s1)
    /\ effects (Paged.init out this)
       = ([CreateIcons] ++ w ++ [LastUpdatedText]
           ++ statsEffects (loadedProjects out)
           ++ [LanguageFilterOptions
                 (Js.sort Js.codeUnitCompare (languagesOf (loadedProjects out)))]
           ++ effects (Paged.renderProjects s1)
           ++ effects (Paged.renderPagination s1)
           ++ [ConsoleLog
                 (Z.of_nat (length (projects (after (Paged.renderPagination s1)))))
                 (Z.of_nat (length (filteredProjects (after (Paged.renderPagination s1)))))
                 (totalPages (after (Paged.renderPagination s1)));
               CreateIcons; LoadingScreenHidden])%list.
Proof.
  intros s1.
  destruct (loadProjects_quiet out this) as (w & Hrun & Hw).
  exists w. split; [exact Hw|].
  unfold Paged.init, updateStats, updateLanguageFilter, filterProjects,
    hideLoadingScreen. run.
  rewrite Hrun. cbv beta iota zeta.
  change (setFilteredProjects _ (setProjects (loadedProjects out) this)) with s1.
  change (projects (setProjects (loadedProjects out) this)) with (loadedProjects out).
  rewrite Paged_renderProjects_run. cbv beta iota zeta.
  destruct (Paged.renderPagination s1) as [[r s2] w2] eqn:Hrp.
  pose proof (Paged_renderPagination_normal s1) as Hn.
  rewrite Hrp in Hn. unfold outcome in Hn. cbn [fst] in Hn. subst r.
  cbv beta iota zeta. unfold after. cbn [fst snd app].
  split; [|split]; reflexivity.
Qed.

Lemma Paged_retry_run (out : FetchOutcome) (this : App) :
  let s0 := setProjects (loadedProjects out) this in
  exists w,
    pageEffects w = []
    /\ outcome (Paged.retry out this) = Normal tt
    /\ after (Paged.retry out this) = after (Paged.filterAndRender s0)
    /\ effects (Paged.retry out this)
       = ([ErrorStateDisplay false; LoadingScreenDisplay true; MainDisplay true]
           ++ w ++ statsEffects (loadedProjects out)
           ++ [LanguageFilterOptions
                 (Js.sort Js.codeUnitCompare (languagesOf (loadedProjects out)))]
           ++ effects (Paged.filterAndRender s0)
           ++ [LoadingScreenHidden])%list.
Proof.
  intros s0.
  destruct (loadProjects_quiet out this) as (w & Hrun & Hw).
  exists w. split; [exact Hw|].
  unfold Paged.retry, updateStats, updateLanguageFilter, hideLoadingScreen. run.
  rewrite Hrun. cbv beta iota zeta. fold s0.
  rewrite Paged_filterAndRender_run. cbv beta iota zeta.
  unfold after, effects. cbn [fst snd app].
  change (projects s0) with (loadedProjects out).
  split; [|split]; reflexivity.
Qed.

End StartUp.

Lemma shownCards_app_Some (w1 w2 : list Effect) (cards : list Project) :
  shownCards w2 = Some cards -> shownCards (w1 ++ w2) = Some cards.
Proof. intros Hs. rewrite shownCards_app, Hs. reflexivity. Qed.

Lemma shownCards_app_None (w1 w2 : list Effect) :
  shownCards w2 = None -> shownCards (w1 ++ w2) = shownCards w1.
Proof. intros Hs. rewrite shownCards_app, Hs. reflexivity. Qed.

Lemma noError_console (w : list Effect) :
  pageEffects w = [] -> Forall (fun e => isErrorMessage e = false) w.
Proof.
  intros Hw. apply pageEffects_nil_console in Hw.
  eapply List.Forall_impl; [|exact Hw].
  intros e He. destruct e; try discriminate He; reflexivity.
Qed.

Lemma noError_statsEffects (ps : list Project) :
  Forall (fun e => isErrorMessage e = false) (statsEffects ps).
Proof. repeat constructor. Qed.

Lemma noError_renderProjects (this : App) :
  Forall (fun e => isErrorMessage e = false) (effects (Paged.renderProjects this)).
Proof.
  rewrite Paged_renderProjects_run. unfold effects. cbn [snd].
  destruct (_ =? 0); [repeat constructor|].
  destruct (_ =? 0); [repeat constructor|].
  apply Forall_app. split; [repeat constructor | apply noError_statsEffects].
Qed.

Lemma noError_renderPagination (this : App) :
  Forall (fun e => isErrorMessage e = false) (effects (Paged.renderPagination this)).
Proof.
  rewrite Paged_renderPagination_run. cbv zeta.
  destruct (_ =? 0); repeat constructor.
Qed.

Section SessionScreen.
Context `{Platform}.

Lemma shownCards_filterAndRender (this : App) :
  0 < itemsPerPage this ->
  shownCards (effects (Paged.filterAndRender this))
  = Some (pageSlice (filterSort (projects this) (currentFilters this))
                    (itemsPerPage this) 1).
Proof.
  intros Hpp. rewrite Paged_filterAndRender_effects. cbv zeta.
  rewrite shownCards_app_None by apply shownCards_renderPagination.
  rewrite shownCards_renderProjects; [reflexivity | exact Hpp | simpl; lia |].
  simpl. intros ->. apply filterSort_nil.
Qed.

Lemma noError_filterAndRender (this : App) :
  Forall (fun e => isErrorMessage e = false) (effects (Paged.filterAndRender this)).
Proof.
  rewrite Paged_filterAndRender_effects. cbv zeta.
  apply Forall_app. split; [apply noError_renderProjects | apply noError_renderPagination].
Qed.

Lemma filterAndRender_fields (this : App) :
  let this' := after (Paged.filterAndRender this) in
  projects this' = projects this
  /\ filteredProjects this' = filterSort (projects this) (currentFilters this)
  /\ currentFilters this' = currentFilters this
  /\ currentPage this' = 1
  /\ itemsPerPage this' = itemsPerPage this.
Proof.
  cbv zeta. rewrite Paged_filterAndRender_after.
  set (s1 := setCurrentPage 1 _).
  destruct (renderPagination_fields s1) as (H1 & H2 & H3 & H4 & H5).
  rewrite H1, H2, H3, H4, H5. repeat split.
Qed.

(** The four listeners that change a filter: some output, then
    [filterAndRender] on the object with the new filters. *)
Lemma Paged_handle_filter_run (e : Paged.Event) (this : App) :
  match e with
  | Paged.SearchInput _ | Paged.ClearSearchClick
  | Paged.LanguageChange _ | Paged.SortChange _ => True
  | _ => False
  end ->
  exists g pre,
    after (Paged.handle e this)
    = after (Paged.filterAndRender (setCurrentFilters (g (currentFilters this)) this))
    /\ effects (Paged.handle e this)
       = (pre ++ effects (Paged.filterAndRender
                            (setCurrentFilters (g (currentFilters this)) this)))%list
    /\ Forall (fun e => isErrorMessage e = false) pre.
Proof.
  destruct e as [v| |v|v|out| | |page]; intros He; try contradiction;
    [exists (withSearch v), [ClearSearchDisplay (Js.truthy v)]
     | exists (withSearch ""), [SearchInputValue ""; ClearSearchDisplay false]
     | exists (withLanguage v), []
     | exists (withSortBy v), []];
    unfold Paged.handle, updateClearSearchButton; run;
    rewrite Paged_filterAndRender_run; cbv beta iota zeta;
    unfold after, effects; cbn [fst snd];
    (split; [reflexivity | split; [reflexivity | repeat constructor]]).
Qed.

(** X5: what is on the screen during a session.  After [init] and after
    every listener, the grid holds the current page of the collection
    filtered and sorted by the current filters, twelve cards a page; and
    while that list is not empty the current page is one of its pages and
    the grid is not empty. *)
Theorem session_screen_shows_the_current_page (this : App) (w : list Effect) :
  reachable this w ->
  let filtered := filterSort (projects this) (currentFilters this) in
  shownCards w = Some (pageSlice filtered 12 (currentPage this))
  /\ (filtered <> [] ->
      1 <= currentPage this <= totalPages this
      /\ totalPages this = Js.ceilDiv (Z.of_nat (length filtered)) 12
      /\ pageSlice filtered 12 (currentPage this) <> []).
Proof.
  intros Hr. cbv zeta.
  pose proof (reachable_consistent this w Hr) as (Hpp & Hc & Hf & Ht & _).
  assert (Hshown :
    shownCards w
    = Some (pageSlice (filteredProjects this) (itemsPerPage this) (currentPage this))).
  { clear Hpp Hc Hf Ht.
    induction Hr as [out|this w e Hr IH Hen].
    - destruct (Paged_init_run out constructed) as (w0 & Hw0 & _ & Ha & He).
      cbv zeta in Ha, He. rewrite Ha, He.
      set (s1 := setFilteredProjects _ _) in *.
      destruct (renderPagination_fields s1) as (_ & H2 & _ & H4 & H5).
      rewrite H2, H4, H5.
      do 5 apply shownCards_app_Some.
      rewrite shownCards_app_None.
      + apply shownCards_renderProjects; [reflexivity | reflexivity |].
        simpl. intros ->. apply filterSort_nil.
      + rewrite shownCards_app_None by reflexivity.
        apply shownCards_renderPagination.
    - pose proof (reachable_consistent this w Hr) as (Hpp & Hc & Hf & Ht & _).
      assert (Hnil : projects this = [] -> filteredProjects this = []).
      { intros Hnil. rewrite Hf, Hnil. apply filterSort_nil. }
      assert (Hgo : forall p, 1 <= p ->
        shownCards (w ++ effects (Paged.goToPage p this))
        = Some (pageSlice (filteredProjects (after (Paged.goToPage p this)))
                          (itemsPerPage (after (Paged.goToPage p this)))
                          (currentPage (after (Paged.goToPage p this))))).
      { intros p Hp. apply shownCards_app_Some.
        rewrite shownCards_goToPage by (assumption || lia).
        rewrite Paged_goToPage_after.
        destruct (renderPagination_fields (setCurrentPage p this))
          as (_ & H2 & _ & H4 & H5).
        rewrite H2, H4, H5. reflexivity. }
      destruct e as [v| |v|v|out| | |page].
      5: { (* retry *)
        destruct (Paged_retry_run out this) as (w0 & Hw0 & _ & Ha & He).
        cbv zeta in Ha, He. unfold Paged.handle. rewrite Ha, He.
        destruct (filterAndRender_fields (setProjects (loadedProjects out) this))
          as (_ & H2 & _ & H4 & H5).
        rewrite H2, H4, H5.
        do 5 apply shownCards_app_Some.
        rewrite shownCards_app_None by reflexivity.
        apply shownCards_filterAndRender. simpl. lia. }
      5: { rewrite Paged_handle_prev.
        destruct (Z.ltb_spec 1 (currentPage this)).
        - apply Hgo. lia.
        - unfold after, effects. cbn [fst snd]. rewrite app_nil_r. exact IH. }
      5: { rewrite Paged_handle_next.
        destruct (Z.ltb_spec (currentPage this) (totalPages this)).
        - apply Hgo. lia.
        - unfold after, effects. cbn [fst snd]. rewrite app_nil_r. exact IH. }
      5: { destruct Hen as [Hne (active & Hin)].
        destruct (Ht Hne) as [Htot Hcur].
        apply generatePageNumbers_range in Hin; [|lia].
        unfold Paged.handle. apply Hgo. lia. }
      all: match goal with
           | |- context [Paged.handle ?e ?s] =>
               destruct (Paged_handle_filter_run e s I) as (g & pre & Ha & He & _)
           end;
        rewrite Ha, He;
        match goal with
        | |- context [Paged.filterAndRender ?s] =>
            destruct (filterAndRender_fields s) as (_ & H2 & _ & H4 & H5);
            rewrite H2, H4, H5;
            do 2 apply shownCards_app_Some;
            apply shownCards_filterAndRender; simpl; lia
        end. }
  rewrite Hshown, <- Hf, Hpp. split; [reflexivity|].
  intros Hne. destruct (Ht Hne) as [Htot Hle].
  rewrite Hpp in Htot. split; [lia|]. split; [exact Htot|].
  pose proof (ceilDiv_spec (Z.of_nat (length (filteredProjects this))) 12 ltac:(lia))
    as Hs.
  intros Hnil. apply (f_equal (@length Project)) in Hnil.
  unfold pageSlice in Hnil. rewrite length_take, length_drop in Hnil.
  change (length (@nil Project)) with 0%nat in Hnil.
  assert (Hlt : (currentPage this - 1) * 12
                < Z.of_nat (length (filteredProjects this))) by nia.
  lia.
Qed.

End SessionScreen.

Lemma session_screen_shows_the_current_page_witness :
  reachable (H := AsciiPlatform)
    (after (Paged.handle (H := AsciiPlatform) (Paged.SortChange "name") loadedApp))
    (effects (Paged.init (H := AsciiPlatform) sampleDocument constructed)
     ++ effects (Paged.handle (H := AsciiPlatform) (Paged.SortChange "name") loadedApp))
  /\ option_map (map name)
       (shownCards
          (effects (Paged.init (H := AsciiPlatform) sampleDocument constructed)
           ++ effects (Paged.handle (H := AsciiPlatform)
                         (Paged.SortChange "name") loadedApp)))
     = Some ["Core"; "Tinfoil"; "hekate"].
Proof.
  assert (Hr : reachable (H := AsciiPlatform)
    (after (Paged.handle (H := AsciiPlatform) (Paged.SortChange "name") loadedApp))
    (effects (Paged.init (H := AsciiPlatform) sampleDocument constructed)
     ++ effects (Paged.handle (H := AsciiPlatform) (Paged.SortChange "name") loadedApp))).
  { exact (reachable_event (H := AsciiPlatform) _ _ (Paged.SortChange "name")
             (reachable_init (H := AsciiPlatform) sampleDocument) I). }
  split; [exact Hr|].
  destruct (session_screen_shows_the_current_page (H := AsciiPlatform) _ _ Hr)
    as [Hs _].
  rewrite Hs. reflexivity.
Defined.

Section RetryFacts.
Context `{Platform}.

(** X6: [retry] reloads the collection and keeps what the user had chosen:
    afterwards the collection is what the new fetch delivered, the filters
    are the ones in force before, the filtered list is recomputed from the
    two, the view is back on page 1 and shows that page, and the call began
    by hiding the error state and showing the loader. *)
Theorem retry_reloads_and_keeps_the_filters (out : FetchOutcome) (this : App) :
  0 < itemsPerPage this ->
  let this' := after (Paged.retry out this) in
  let filtered := filterSort (loadedProjects out) (currentFilters this) in
  projects this' = loadedProjects out
  /\ currentFilters this' = currentFilters this
  /\ filteredProjects this' = filtered
  /\ currentPage this' = 1
  /\ itemsPerPage this' = itemsPerPage this
  /\ shownCards (effects (Paged.retry out this))
     = Some (pageSlice filtered (itemsPerPage this) 1)
  /\ take 3 (effects (Paged.retry out this))
     = [ErrorStateDisplay false; LoadingScreenDisplay true; MainDisplay true].
Proof.
  intros Hpp. cbv zeta.
  destruct (Paged_retry_run out this) as (w0 & Hw0 & _ & Ha & He).
  cbv zeta in Ha, He. rewrite Ha, He.
  destruct (filterAndRender_fields (setProjects (loadedProjects out) this))
    as (H1 & H2 & H3 & H4 & H5).
  rewrite H1, H2, H3, H4, H5.
  repeat split.
  do 4 apply shownCards_app_Some.
  rewrite shownCards_app_None by reflexivity.
  apply (shownCards_filterAndRender (setProjects (loadedProjects out) this)).
  exact Hpp.
Qed.

(** X7: no outcome of the fetch makes [init] or [retry] fail.  Whatever
    the request comes back with, a network failure, an error status, text
    that is not JSON, the document [null], both complete normally, end by
    hiding the loading screen and never write the failure message of
    [showError]: [loadProjects] has absorbed the failure as an empty
    collection. *)
Theorem init_and_retry_never_show_the_failure_message
    (out : FetchOutcome) (this : App) :
  outcome (Paged.init out this) = Normal tt
  /\ outcome (Paged.retry out this) = Normal tt
  /\ last (effects (Paged.init out this)) = Some LoadingScreenHidden
  /\ last (effects (Paged.retry out this)) = Some LoadingScreenHidden
  /\ (forall message,
        ~ In (ErrorMessageText message) (effects (Paged.init out this))
        /\ ~ In (ErrorMessageText message) (effects (Paged.retry out this)))
  /\ projects (after (Paged.init out this)) = loadedProjects out.
Proof.
  destruct (Paged_init_run out this) as (w0 & Hw0 & Ho & Ha & He).
  destruct (Paged_retry_run out this) as (w1 & Hw1 & Ho' & Ha' & He').
  cbv zeta in *.
  assert (Hno : forall w message,
    Forall (fun e => isErrorMessage e = false) w -> ~ In (ErrorMessageText message) w).
  { intros w message Hall Hin. rewrite List.Forall_forall in Hall.
    specialize (Hall _ Hin). discriminate Hall. }
  split; [exact Ho|]. split; [exact Ho'|].
  split; [|split; [|split]].
  - rewrite He, !app_assoc. rewrite last_app. reflexivity.
  - rewrite He', !app_assoc. apply last_snoc.
  - intros message. split; apply Hno.
    + rewrite He. repeat (apply Forall_app; split);
        first [ apply noError_statsEffects | apply noError_renderProjects
              | apply noError_renderPagination
              | apply noError_console; assumption
              | repeat constructor ].
    + rewrite He'. repeat (apply Forall_app; split);
        first [ apply noError_statsEffects | apply noError_filterAndRender
              | apply noError_console; assumption
              | repeat constructor ].
  - rewrite Ha.
    destruct (renderPagination_fields
                (setFilteredProjects
                   (filterSort (loadedProjects out) (currentFilters this))
                   (setProjects (loadedProjects out) this))) as (H1 & _).
    exact H1.
Qed.

End RetryFacts.

Lemma retry_reloads_and_keeps_the_filters_witness :
  0 < itemsPerPage loadedApp
  /\ projects (after (Paged.retry (H := AsciiPlatform) NetworkFailure loadedApp)) = []
  /\ currentFilters (after (Paged.retry (H := AsciiPlatform) NetworkFailure loadedApp))
     = currentFilters loadedApp.
Proof.
  split; [reflexivity|].
  destruct (retry_reloads_and_keeps_the_filters (H := AsciiPlatform)
              NetworkFailure loadedApp) as (H1 & H2 & _).
  - reflexivity.
  - split; [exact H1 | exact H2].
Defined.

(** ** Sorting by the other keys *)

Lemma compare_le_trans (a b c : string) :
  String.compare a b <> Gt -> String.compare b c <> Gt -> String.compare a c <> Gt.
Proof.
  revert b c. induction a as [|x a IH]; intros [|y b] [|z c]; simpl; try congruence.
  unfold Ascii.compare.
  destruct (N.compare_spec (N_of_ascii x) (N_of_ascii y)) as [Hxy|Hxy|Hxy];
    destruct (N.compare_spec (N_of_ascii y) (N_of_ascii z)) as [Hyz|Hyz|Hyz];
    destruct (N.compare_spec (N_of_ascii x) (N_of_ascii z)) as [Hxz|Hxz|Hxz];
    try congruence; try lia.
  apply IH.
Qed.

Lemma codeUnitCompare_le (a b : string) :
  Js.codeUnitCompare a b <= 0 <-> String.compare a b <> Gt.
Proof.
  unfold Js.codeUnitCompare. destruct (String.compare a b); split; intros; try lia; congruence.
Qed.

Lemma codeUnitCompare_total (a b : string) :
  Js.codeUnitCompare a b <= 0 \/ Js.codeUnitCompare b a <= 0.
Proof.
  rewrite !codeUnitCompare_le, (String.compare_antisym a b).
  destruct (String.compare b a); simpl; [left | right | left]; congruence.
Qed.

Lemma codeUnitCompare_trans (a b c : string) :
  Js.codeUnitCompare a b <= 0 -> Js.codeUnitCompare b c <= 0 ->
  Js.codeUnitCompare a c <= 0.
Proof. rewrite !codeUnitCompare_le. apply compare_le_trans. Qed.

(** [sort] with a comparator that decides an order [R] on the elements
    with property [P] returns a list sorted by [R]. *)
Section SortedBy.
Context {A : Type} (cmp : A -> A -> Z) (R : A -> A -> Prop) (P : A -> Prop).
Hypothesis Hle : forall a b, P a -> P b -> cmp a b <= 0 -> R a b.
Hypothesis Hgt : forall a b, P a -> P b -> 0 < cmp a b -> R b a.
Hypothesis Htrans : forall a b c, P a -> P b -> P c -> R a b -> R b c -> R a c.

Lemma insert_sorted_by (a : A) (l : list A) :
  P a -> Forall P l -> StronglySorted R l -> StronglySorted R (Js.insert cmp a l).
Proof.
  intros Ha Hl Hs. induction Hs as [|b l Hs IH Hb]; simpl.
  - repeat constructor.
  - apply Forall_cons in Hl as [Pb Pl].
    destruct (Z.leb_spec (cmp a b) 0) as [Hc|Hc].
    + constructor; [constructor; assumption|].
      constructor; [apply Hle; assumption|].
      rewrite List.Forall_forall in *. intros x Hx.
      apply (Htrans a b x); auto.
    + constructor; [apply IH, Pl|].
      rewrite List.Forall_forall in *. intros x Hx.
      apply (Permutation_in _ (insert_Permutation cmp a l)) in Hx.
      destruct Hx as [<-|Hx]; [apply Hgt; assumption | apply Hb, Hx].
Qed.

Lemma sort_sorted_by (l : list A) :
  Forall P l -> StronglySorted R (Js.sort cmp l).
Proof.
  induction 1 as [|a l Ha Hl IH]; simpl; [constructor|].
  apply insert_sorted_by; [exact Ha | | exact IH].
  rewrite List.Forall_forall in *. intros x Hx. apply Hl.
  apply In_sort in Hx. exact Hx.
Qed.

End SortedBy.

Lemma filter_sublist {A : Type} (f : A -> bool) (l : list A) :
  sublist (List.filter f l) l.
Proof.
  induction l as [|a l IH]; simpl; [constructor|].
  destruct (f a); constructor; exact IH.
Qed.

Lemma Forall_filter_in {A : Type} (P : A -> Prop) (f : A -> bool) (l : list A) :
  Forall P l -> Forall P (List.filter f l).
Proof.
  rewrite !List.Forall_forall. intros Hl x Hx.
  apply List.filter_In in Hx as [Hx _]. auto.
Qed.

Section MoreFilterFacts.
Context `{Platform}.

Lemma searchStep_sublist (search : string) (ps : list Project) :
  sublist (searchStep search ps) ps.
Proof.
  unfold searchStep. destruct (Js.truthy search); [apply filter_sublist | reflexivity].
Qed.

Lemma languageStep_sublist (selected : string) (ps : list Project) :
  sublist (languageStep selected ps) ps.
Proof.
  unfold languageStep. destruct (negb _); [apply filter_sublist | reflexivity].
Qed.

Lemma Forall_kept (P : Project -> Prop) (ps : list Project) (f : Filters.t) :
  Forall P ps ->
  Forall P (languageStep (Filters.language f) (searchStep (Filters.search f) ps)).
Proof.
  intros Hps. unfold languageStep, searchStep.
  destruct (negb _), (Js.truthy _); repeat apply Forall_filter_in; exact Hps.
Qed.

(** X8: filtering and sorting only select and reorder.  For every
    setting of the filters the list [filterProjects] stores is a
    rearrangement of a sublist of the collection: no record is invented,
    altered or shown more often than the collection holds it.  With an
    empty search and the language ["all"] it is a rearrangement of the
    whole collection, whatever the sort key. *)
Theorem filtering_selects_and_reorders (ps : list Project) (f : Filters.t) :
  exists kept,
    sublist kept ps
    /\ Permutation (filterSort ps f) kept
    /\ (length (filterSort ps f) <= length ps)%nat
    /\ (Filters.search f = "" -> Filters.language f = "all" -> kept = ps).
Proof.
  exists (languageStep (Filters.language f) (searchStep (Filters.search f) ps)).
  assert (Hsub : sublist (languageStep (Filters.language f)
                                       (searchStep (Filters.search f) ps)) ps).
  { etrans; [apply languageStep_sublist | apply searchStep_sublist]. }
  split; [exact Hsub|]. split; [apply sort_Permutation|]. split.
  - unfold filterSort. rewrite sort_length. apply sublist_length, Hsub.
  - intros -> ->. reflexivity.
Qed.

(** X9: sorting by forks.  With the sort key ["forks"] the stored list is
    in descending order of fork count, it is a rearrangement of the
    projects that passed the filters, and projects with the same fork
    count keep the order they have in the collection. *)
Theorem forks_sort_descending_and_stable (ps : list Project) (f : Filters.t) :
  Filters.sortBy f = "forks" ->
  let kept := languageStep (Filters.language f) (searchStep (Filters.search f) ps) in
  let result := filterSort ps f in
  StronglySorted (descending forks) result
  /\ Permutation result kept
  /\ (forall k, List.filter (fun p => forks p =? k) result
                = List.filter (fun p => forks p =? k) kept).
Proof.
  intros Hs kept result. unfold result, filterSort. rewrite Hs. fold kept.
  assert (Hcmp : forall a b, compareProjects "forks" a b = forks b - forks a)
    by reflexivity.
  split; [|split].
  - apply (sort_descending _ forks Hcmp).
  - apply sort_Permutation.
  - intros k. apply (sort_stable _ forks Hcmp).
Qed.

(** X10: sorting by name and by author.  On a platform whose
    [localeCompare] is a total preorder, the sort keys ["name"] and
    ["author"] put the stored list in ascending order of that field, and
    the list is a rearrangement of the projects that passed the filters. *)
Theorem name_and_author_sorts_ascending (ps : list Project) (f : Filters.t) :
  (forall a b, localeCompare a b <= 0 \/ localeCompare b a <= 0) ->
  (forall a b c, localeCompare a b <= 0 -> localeCompare b c <= 0 ->
                 localeCompare a c <= 0) ->
  let kept := languageStep (Filters.language f) (searchStep (Filters.search f) ps) in
  (Filters.sortBy f = "name" -> StronglySorted (ascending name) (filterSort ps f))
  /\ (Filters.sortBy f = "author" -> StronglySorted (ascending author) (filterSort ps f))
  /\ Permutation (filterSort ps f) kept.
Proof.
  intros Htotal Htrans kept.
  split; [|split].
  - intros Hs. unfold filterSort. rewrite Hs.
    apply (sort_sorted_by _ (ascending name) (fun _ => True)).
    + intros a b _ _ Hc. exact Hc.
    + intros a b _ _ Hc. unfold ascending.
      change (compareProjects "name" a b) with (localeCompare (name a) (name b)) in Hc.
      destruct (Htotal (name a) (name b)); [lia | assumption].
    + intros a b c _ _ _. apply Htrans.
    + apply List.Forall_forall. trivial.
  - intros Hs. unfold filterSort. rewrite Hs.
    apply (sort_sorted_by _ (ascending author) (fun _ => True)).
    + intros a b _ _ Hc. exact Hc.
    + intros a b _ _ Hc. unfold ascending.
      change (compareProjects "author" a b)
        with (localeCompare (author a) (author b)) in Hc.
      destruct (Htotal (author a) (author b)); [lia | assumption].
    + intros a b c _ _ _. apply Htrans.
    + apply List.Forall_forall. trivial.
  - apply sort_Permutation.
Qed.

Lemma sort_newestFirst (sortBy : string) (key : Project -> string) (l : list Project) :
  (forall a b, compareProjects sortBy a b = dateDiff (key b) (key a)) ->
  Forall (fun p => dateParse (key p) <> None) l ->
  StronglySorted (newestFirst key) (Js.sort (compareProjects sortBy) l).
Proof.
  intros Hcmp Hl.
  apply (sort_sorted_by _ (newestFirst key) (fun p => dateParse (key p) <> None));
    [| | |exact Hl].
  - intros a b Ha Hb. rewrite Hcmp. unfold dateDiff, newestFirst.
    destruct (dateParse (key a)) as [ta|]; [|congruence].
    destruct (dateParse (key b)) as [tb|]; [|congruence].
    intros Hc. exists ta, tb. repeat split. lia.
  - intros a b Ha Hb. rewrite Hcmp. unfold dateDiff, newestFirst.
    destruct (dateParse (key a)) as [ta|]; [|congruence].
    destruct (dateParse (key b)) as [tb|]; [|congruence].
    intros Hc. exists tb, ta. repeat split. lia.
  - intros a b c _ _ _ (ta & tb & Ha & Hb & Hab) (tb' & tc & Hb' & Hc & Hbc).
    exists ta, tc. rewrite Hb in Hb'. injection Hb' as <-.
    repeat split; try assumption. lia.
Qed.

(** X11: sorting by date.  When the dates of the collection all parse,
    the sort key ["latest"] puts the stored list in order of the last
    update, newest first, and ["created"] in order of creation, newest
    first. *)
Theorem date_sorts_newest_first (ps : list Project) (f : Filters.t) :
  (Filters.sortBy f = "latest" ->
   Forall (fun p => dateParse (lastUpdated p) <> None) ps ->
   StronglySorted (newestFirst lastUpdated) (filterSort ps f))
  /\ (Filters.sortBy f = "created" ->
      Forall (fun p => dateParse (createdAt p) <> None) ps ->
      StronglySorted (newestFirst createdAt) (filterSort ps f)).
Proof.
  split; intros Hs Hps; unfold filterSort; rewrite Hs.
  - apply sort_newestFirst; [reflexivity|]. apply Forall_kept, Hps.
  - apply sort_newestFirst; [reflexivity|]. apply Forall_kept, Hps.
Qed.

End MoreFilterFacts.

Lemma forks_sort_descending_and_stable_witness :
  Filters.sortBy (Filters.mk "" "all" "forks") = "forks"
  /\ map forks (filterSort (H := AsciiPlatform) sampleProjects (Filters.mk "" "all" "forks"))
     = [7; 2; 0]
  /\ StronglySorted (descending forks)
       (filterSort (H := AsciiPlatform) sampleProjects (Filters.mk "" "all" "forks")).
Proof.
  split; [reflexivity|]. split; [reflexivity|].
  destruct (forks_sort_descending_and_stable (H := AsciiPlatform) sampleProjects
              (Filters.mk "" "all" "forks")) as [Hs _].
  - reflexivity.
  - exact Hs.
Defined.

Lemma name_and_author_sorts_ascending_witness :
  (forall a b, Js.codeUnitCompare a b <= 0 \/ Js.codeUnitCompare b a <= 0)
  /\ map name (filterSort (H := AsciiPlatform) sampleProjects (Filters.mk "" "all" "name"))
     = ["Core"; "Tinfoil"; "hekate"]
  /\ StronglySorted (ascending (H := AsciiPlatform) name)
       (filterSort (H := AsciiPlatform) sampleProjects (Filters.mk "" "all" "name")).
Proof.
  split; [exact codeUnitCompare_total|]. split; [reflexivity|].
  destruct (name_and_author_sorts_ascending (H := AsciiPlatform) sampleProjects
              (Filters.mk "" "all" "name") codeUnitCompare_total codeUnitCompare_trans)
    as [Hs _].
  apply Hs. reflexivity.
Defined.

Lemma date_sorts_newest_first_witness :
  map lastUpdated
      (filterSort (H := AsciiPlatform) datedProjects (Filters.mk "" "all" "latest"))
  = ["3000"; "2000"; "1000"]
  /\ StronglySorted (newestFirst (H := AsciiPlatform) lastUpdated)
       (filterSort (H := AsciiPlatform) datedProjects (Filters.mk "" "all" "latest")).
Proof.
  split; [reflexivity|].
  destruct (date_sorts_newest_first (H := AsciiPlatform) datedProjects
              (Filters.mk "" "all" "latest")) as [Hs _].
  apply Hs; [reflexivity|].
  repeat constructor; discriminate.
Defined.

(** ** The language filter *)

Lemma sorted_NoDup_strict (l : list string) :
  StronglySorted (fun a b => Js.codeUnitCompare a b <= 0) l ->
  List.NoDup l ->
  StronglySorted codeUnitLess l.
Proof.
  induction 1 as [|a l Hs IH Ha]; intros Hnd; constructor.
  - apply IH. inversion Hnd; assumption.
  - inversion Hnd as [|? ? Hnotin Hnd']; subst.
    rewrite List.Forall_forall in *. intros b Hb.
    specialize (Ha b Hb). apply codeUnitCompare_le in Ha.
    unfold codeUnitLess. destruct (String.compare a b) eqn:Hc.
    + apply String.compare_eq_iff in Hc. subst. contradiction.
    + reflexivity.
    + congruence.
Qed.

(** X12: the options of the language filter.  [updateLanguageFilter]
    writes, after "All Languages", one option for each language of the
    collection: every non-empty language some project carries and nothing
    else, each once, in strictly increasing order by code unit.  The
    object itself is left as it was. *)
Theorem language_options_sorted_and_distinct (this : App) :
  exists options,
    updateLanguageFilter this = (Normal tt, this, [LanguageFilterOptions options])
    /\ StronglySorted codeUnitLess options
    /\ List.NoDup options
    /\ (forall l, In l options <->
                  l <> "" /\ exists p, In p (projects this) /\ language p = Some l).
Proof.
  exists (Js.sort Js.codeUnitCompare (languagesOf (projects this))).
  assert (Hnd : List.NoDup (Js.sort Js.codeUnitCompare (languagesOf (projects this)))).
  { eapply Permutation_NoDup; [|apply NoDup_distinct].
    symmetry. apply sort_Permutation. }
  split; [reflexivity|]. split; [|split; [exact Hnd|]].
  - apply sorted_NoDup_strict; [|exact Hnd].
    apply (sort_sorted_by _ _ (fun _ => True)).
    + intros a b _ _ Hc. exact Hc.
    + intros a b _ _ Hc. destruct (codeUnitCompare_total a b); [lia | assumption].
    + intros a b c _ _ _. apply codeUnitCompare_trans.
    + apply List.Forall_forall. trivial.
  - intros l. rewrite In_sort. apply In_languagesOf.
Qed.

(** ** Number formatting beyond a billion *)

Lemma append_last_differs (a b : string) (x y : ascii) :
  x <> y ->
  String.append a (String x EmptyString) <> String.append b (String y EmptyString).
Proof.
  intros Hxy. revert b. induction a as [|c a IH]; intros [|d b]; simpl; intros Heq.
  - injection Heq as Heq. contradiction.
  - injection Heq as _ Heq. destruct b; discriminate Heq.
  - injection Heq as _ Heq. destruct a; discriminate Heq.
  - injection Heq as _ Heq. apply (IH b). exact Heq.
Qed.

(** X13: from a billion on the two number formatters part ways.  For
    every count of at least 1,000,000,000 the application's [formatNumber]
    still writes millions, with the suffix M, where [NumberUtils.format]
    writes billions, with the suffix B, so the two results differ. *)
Theorem formatNumber_differs_from_a_billion (num : Z) :
  1000000000 <= num ->
  formatNumber num
  = String.append (Number.toFixed (Number.ofZ num / Number.ofZ 1000000)%float 1) "M"
  /\ NumberUtils.format (Some num) 1
     = String.append (Number.toFixed (Number.ofZ num / Number.ofZ 1000000000)%float 1) "B"
  /\ formatNumber num <> NumberUtils.format (Some num) 1.
Proof.
  intros Hn.
  assert (H1 : formatNumber num
    = String.append (Number.toFixed (Number.ofZ num / Number.ofZ 1000000)%float 1) "M").
  { unfold formatNumber. destruct (Z.leb_spec 1000000 num); [reflexivity | lia]. }
  assert (H2 : NumberUtils.format (Some num) 1
    = String.append (Number.toFixed (Number.ofZ num / Number.ofZ 1000000000)%float 1) "B").
  { unfold NumberUtils.format. destruct (Z.leb_spec 1000000000 num); [reflexivity | lia]. }
  split; [exact H1|]. split; [exact H2|].
  rewrite H1, H2. apply append_last_differs. discriminate.
Qed.

Lemma formatNumber_differs_from_a_billion_witness :
  1000000000 <= 2500000000
  /\ formatNumber 2500000000 = "2500.0M"
  /\ NumberUtils.format (Some 2500000000) 1 = "2.5B".
Proof.
  split; [lia|].
  destruct (formatNumber_differs_from_a_billion 2500000000) as (H1 & H2 & _); [lia|].
  split; [rewrite H1 | rewrite H2]; vm_compute; reflexivity.
Defined.

Lemma formatNumber_near_a_million_cases :
  forallb (fun k =>
             String.eqb (formatNumber (999950 + Z.of_nat k)) "1000.0K"
             && String.eqb (NumberUtils.format (Some (999950 + Z.of_nat k)) 1) "1000.0K")
          (seq 0 50)
  = true.
Proof. vm_compute. reflexivity. Qed.

(** X14: just below a million the thousands run over.  For every count
    from 999,950 to 999,999 both formatters round the quotient up to
    1000.0 and keep the suffix K: the text is "1000.0K", not "1.0M". *)
Theorem formatNumber_just_below_a_million (num : Z) :
  999950 <= num < 1000000 ->
  formatNumber num = "1000.0K"
  /\ NumberUtils.format (Some num) 1 = "1000.0K".
Proof.
  intros Hn.
  pose proof formatNumber_near_a_million_cases as Hall.
  rewrite forallb_forall in Hall.
  specialize (Hall (Z.to_nat (num - 999950))).
  replace (999950 + Z.of_nat (Z.to_nat (num - 999950))) with num in Hall by lia.
  assert (Hin : In (Z.to_nat (num - 999950)) (seq 0 50)) by (apply in_seq; lia).
  apply Hall in Hin. apply andb_true_iff in Hin as [H1 H2].
  apply String.eqb_eq in H1, H2. split; assumption.
Qed.

Lemma formatNumber_just_below_a_million_witness :
  999950 <= 999987 < 1000000 /\ formatNumber 999987 = "1000.0K".
Proof.
  split; [lia|].
  destruct (formatNumber_just_below_a_million 999987) as [H1 _]; [lia | exact H1].
Defined.

(** ** Dates *)

Lemma ceilDiv_iff (a b k : Z) :
  0 < b -> (Js.ceilDiv a b = k <-> (k - 1) * b < a <= k * b).
Proof.
  intros Hb. split.
  - intros <-. apply ceilDiv_spec, Hb.
  - apply ceilDiv_unique, Hb.
Qed.

Lemma ceilDiv_le_iff (a b k : Z) :
  0 < b -> (Js.ceilDiv a b <= k <-> a <= k * b).
Proof.
  intros Hb. pose proof (ceilDiv_spec a b Hb). split; nia.
Qed.

Section DateFacts.
Context `{Platform} `{DateLocale}.

(** X15: what [formatDate] prints, by the age of the date.  With [d] the
    distance in milliseconds between the date and now, in either
    direction: up to one day it prints "Today", up to two "Yesterday"; from
    there to seven days the number of whole days begun, 2 to 6, as "n days
    ago"; from there to thirty days the weeks, 1 to 4, as "1 week ago" or
    "n weeks ago"; beyond thirty days the locale's short date.  A date
    equal to now, to the millisecond, prints as "-1 days ago".  A missing
    or empty date string prints "N/A", a string that is not a date prints
    "Invalid Date". *)
Theorem formatDate_by_age (now date : Z) (s : string) :
  s <> "" ->
  dateParse s = Some date ->
  let d := Z.abs (now - date) in
  let day := 86400000 in
  (d = 0 -> formatDate now (Some s) = "-1 days ago")
  /\ (0 < d <= day -> formatDate now (Some s) = "Today")
  /\ (day < d <= 2 * day -> formatDate now (Some s) = "Yesterday")
  /\ (forall n, 2 <= n <= 6 -> n * day < d <= (n + 1) * day ->
        formatDate now (Some s) = String.append (Number.toString n) " days ago")
  /\ (7 * day < d <= 13 * day -> formatDate now (Some s) = "1 week ago")
  /\ (forall n, 2 <= n <= 4 -> (7 * n - 1) * day < d <= Z.min 30 (7 * n + 6) * day ->
        formatDate now (Some s) = String.append (Number.toString n) " weeks ago")
  /\ (30 * day < d -> formatDate now (Some s) = toLocaleDateString ShortDate date)
  /\ formatDate now None = "N/A"
  /\ formatDate now (Some "") = "N/A"
  /\ (forall s', s' <> "" -> dateParse s' = None ->
        formatDate now (Some s') = "Invalid Date").
Proof.
  intros Hs Hparse d day.
  assert (Hd : 0 <= d) by (unfold d; lia).
  assert (Hstep : forall k, (k - 1) * day < d <= k * day ->
    formatDate now (Some s)
    = if k =? 1 then "Today"
      else if k =? 2 then "Yesterday"
      else if k <=? 7 then String.append (Number.toString (k - 1)) " days ago"
      else if k <=? 30 then agoText (k / 7) "week"
      else toLocaleDateString ShortDate date).
  { intros k Hk. unfold formatDate.
    destruct s as [|c s']; [contradiction|]. cbn [Js.truthy negb].
    rewrite Hparse. cbv zeta. fold d.
    change (1000 * 60 * 60 * 24) with day.
    rewrite (ceilDiv_unique d day k) by (unfold day in *; lia).
    reflexivity. }
  assert (Hweeks : forall k n, 8 <= k <= 30 -> 7 * n <= k < 7 * n + 7 ->
    formatDate now (Some s)
    = (if k =? 1 then "Today"
       else if k =? 2 then "Yesterday"
       else if k <=? 7 then String.append (Number.toString (k - 1)) " days ago"
       else if k <=? 30 then agoText (k / 7) "week"
       else toLocaleDateString ShortDate date) ->
    formatDate now (Some s) = agoText n "week").
  { intros k n Hk Hn ->.
    destruct (Z.eqb_spec k 1); [lia|]. destruct (Z.eqb_spec k 2); [lia|].
    destruct (Z.leb_spec k 7); [lia|]. destruct (Z.leb_spec k 30); [|lia].
    f_equal. symmetry. apply Z.div_unique with (k - 7 * n); lia. }
  split; [|split; [|split; [|split; [|split; [|split; [|split; [|split; [|split]]]]]]]].
  - intros Hz. rewrite (Hstep 0) by (unfold day; lia). reflexivity.
  - intros Hr. rewrite (Hstep 1) by lia. reflexivity.
  - intros Hr. rewrite (Hstep 2) by lia. reflexivity.
  - intros n Hn Hr. rewrite (Hstep (n + 1)) by lia.
    destruct (Z.eqb_spec (n + 1) 1); [lia|]. destruct (Z.eqb_spec (n + 1) 2); [lia|].
    destruct (Z.leb_spec (n + 1) 7); [|lia].
    replace (n + 1 - 1) with n by lia. reflexivity.
  - intros Hr.
    apply (Hweeks (Js.ceilDiv d day) 1).
    + pose proof (ceilDiv_spec d day ltac:(reflexivity)). unfold day in *. nia.
    + pose proof (ceilDiv_spec d day ltac:(reflexivity)). unfold day in *. nia.
    + apply Hstep, ceilDiv_spec. reflexivity.
  - intros n Hn Hr.
    assert (Ht : formatDate now (Some s) = agoText n "week").
    { apply (Hweeks (Js.ceilDiv d day) n).
      + pose proof (ceilDiv_spec d day ltac:(reflexivity)). unfold day in *. nia.
      + pose proof (ceilDiv_spec d day ltac:(reflexivity)). unfold day in *. nia.
      + apply Hstep, ceilDiv_spec. reflexivity. }
    rewrite Ht. unfold agoText.
    destruct (Z.ltb_spec 1 n); [reflexivity | lia].
  - intros Hr.
    pose proof (ceilDiv_spec d day ltac:(reflexivity)) as Hc.
    rewrite (Hstep (Js.ceilDiv d day)) by exact Hc.
    assert (30 < Js.ceilDiv d day) by (unfold day in *; nia).
    destruct (Z.eqb_spec (Js.ceilDiv d day) 1); [lia|].
    destruct (Z.eqb_spec (Js.ceilDiv d day) 2); [lia|].
    destruct (Z.leb_spec (Js.ceilDiv d day) 7); [lia|].
    destruct (Z.leb_spec (Js.ceilDiv d day) 30); [lia|]. reflexivity.
  - reflexivity.
  - reflexivity.
  - intros s' Hs' Hnone. unfold formatDate.
    destruct s' as [|c s'']; [contradiction|]. cbn [Js.truthy negb].
    rewrite Hnone. reflexivity.
Qed.

End DateFacts.

Lemma formatDate_by_age_witness :
  "1700000000000" <> ""
  /\ dateParse (Platform := AsciiPlatform) "1700000000000" = Some 1700000000000
  /\ formatDate (H := AsciiPlatform) (H0 := PlainDateLocale)
       1700260000000 (Some "1700000000000")
     = "3 days ago".
Proof.
  split; [discriminate|]. split; [reflexivity|].
  destruct (formatDate_by_age (H := AsciiPlatform) (H0 := PlainDateLocale)
              1700260000000 1700000000000 "1700000000000")
    as (_ & _ & _ & Hdays & _); [discriminate | reflexivity |].
  apply (Hdays 3); [lia | simpl; lia].
Defined.

Lemma lastChar_append (a b : string) :
  b <> "" -> lastChar (String.append a b) = lastChar b.
Proof.
  intros Hb. induction a as [|c a IH]; [reflexivity|].
  rewrite append_String. cbn [lastChar]. rewrite IH.
  destruct (String.append a b) eqn:Hab; [|reflexivity].
  destruct a; [|discriminate Hab]. simpl in Hab. contradiction.
Qed.

Section DateUtilsFacts.
Context `{Platform} `{DateLocale}.

(** X16: the windows of [DateUtils.getRelativeTime].  With [d] the
    distance in milliseconds between the date and now: "Yesterday" is
    printed only for the twenty-fourth hour, [23h < d <= 24h]; every age
    from one day to three days prints "2 days ago"; a date equal to now
    prints "0 minutes ago"; an invalid date prints "NaN year ago". *)
Theorem getRelativeTime_windows (now date : Z) :
  let d := Z.abs (now - date) in
  let hour := 3600000 in
  (d = 0 -> DateUtils.getRelativeTime (Some date) now = "0 minutes ago")
  /\ (0 < d <= 60000 -> DateUtils.getRelativeTime (Some date) now = "1 minute ago")
  /\ (59 * 60000 < d <= hour ->
      DateUtils.getRelativeTime (Some date) now = "1 hour ago")
  /\ (23 * hour < d <= 24 * hour ->
      DateUtils.getRelativeTime (Some date) now = "Yesterday")
  /\ (24 * hour < d <= 72 * hour ->
      DateUtils.getRelativeTime (Some date) now = "2 days ago")
  /\ DateUtils.getRelativeTime None now = "NaN year ago".
Proof.
  intros d hour. unfold DateUtils.getRelativeTime. cbv zeta. fold d.
  change (1000 * 60 * 60 * 24) with 86400000.
  change (1000 * 60 * 60) with 3600000.
  change (1000 * 60) with 60000.
  pose proof (ceilDiv_spec d 86400000 ltac:(reflexivity)) as Hdays.
  pose proof (ceilDiv_spec d 3600000 ltac:(reflexivity)) as Hhours.
  pose proof (ceilDiv_spec d 60000 ltac:(reflexivity)) as Hminutes.
  unfold hour.
  split; [|split; [|split; [|split; [|split]]]].
  - intros ->. reflexivity.
  - intros Hr. rewrite (ceilDiv_unique d 60000 1) by lia. reflexivity.
  - intros Hr.
    destruct (Z.ltb_spec (Js.ceilDiv d 60000) 60); [nia|].
    rewrite (ceilDiv_unique d 3600000 1) by lia. reflexivity.
  - intros Hr.
    destruct (Z.ltb_spec (Js.ceilDiv d 60000) 60); [nia|].
    rewrite (ceilDiv_unique d 3600000 24) by lia.
    rewrite (ceilDiv_unique d 86400000 1) by lia. reflexivity.
  - intros Hr.
    destruct (Z.ltb_spec (Js.ceilDiv d 60000) 60); [nia|].
    destruct (Z.ltb_spec (Js.ceilDiv d 3600000) 24); [nia|].
    destruct (Z.le_gt_cases d (48 * 3600000)).
    + rewrite (ceilDiv_unique d 86400000 2) by lia. reflexivity.
    + rewrite (ceilDiv_unique d 86400000 3) by lia. reflexivity.
  - reflexivity.
Qed.

(** X17: the two date formatters compared.  [formatDate] of the
    application and [DateUtils.format] in its relative form print the same
    text for every date between two and thirty days from now, and "N/A"
    alike for a missing or empty string.  For a date within two days of now
    (and not now itself) they never agree: where the application prints
    "Today" or "Yesterday" the utility prints minutes, hours, "Yesterday"
    or "2 days ago".  A [format] argument [DateUtils.format] does not know
    is read as "relative". *)
Theorem formatDate_and_DateUtils_format (now date : Z) (s : string) :
  s <> "" ->
  dateParse s = Some date ->
  let d := Z.abs (now - date) in
  let day := 86400000 in
  (2 * day < d <= 30 * day ->
   formatDate now (Some s) = DateUtils.format now (Some s) "relative")
  /\ (0 < d <= 2 * day ->
      formatDate now (Some s) <> DateUtils.format now (Some s) "relative")
  /\ formatDate now None = DateUtils.format now None "relative"
  /\ formatDate now (Some "") = DateUtils.format now (Some "") "relative"
  /\ (forall style, style <> "relative" -> style <> "short" -> style <> "long" ->
        DateUtils.format now (Some s) style = DateUtils.format now (Some s) "relative").
Proof.
  intros Hs Hparse d day.
  assert (Hf : formatDate now (Some s)
    = let diffDays := Js.ceilDiv d 86400000 in
      if diffDays =? 1 then "Today"
      else if diffDays =? 2 then "Yesterday"
      else if diffDays <=? 7 then
        String.append (Number.toString (diffDays - 1)) " days ago"
      else if diffDays <=? 30 then agoText (diffDays / 7) "week"
      else localeDate ShortDate (Some date)).
  { unfold formatDate. destruct s as [|c s']; [contradiction|].
    cbn [Js.truthy negb]. rewrite Hparse. reflexivity. }
  assert (Hu : DateUtils.format now (Some s) "relative"
               = DateUtils.getRelativeTime (Some date) now).
  { unfold DateUtils.format. destruct s as [|c s']; [contradiction|].
    cbn [Js.truthy negb]. rewrite Hparse. reflexivity. }
  pose proof (ceilDiv_spec d 86400000 ltac:(reflexivity)) as Hdays.
  pose proof (ceilDiv_spec d 3600000 ltac:(reflexivity)) as Hhours.
  pose proof (ceilDiv_spec d 60000 ltac:(reflexivity)) as Hminutes.
  unfold day.
  split; [|split; [|split; [|split]]].
  - intros Hr. rewrite Hf, Hu. unfold DateUtils.getRelativeTime. cbv zeta. fold d.
    change (1000 * 60 * 60 * 24) with 86400000.
    change (1000 * 60 * 60) with 3600000.
    change (1000 * 60) with 60000.
    destruct (Z.ltb_spec (Js.ceilDiv d 60000) 60); [nia|].
    destruct (Z.ltb_spec (Js.ceilDiv d 3600000) 24); [nia|].
    destruct (Z.eqb_spec (Js.ceilDiv d 86400000) 1); [nia|].
    destruct (Z.eqb_spec (Js.ceilDiv d 86400000) 2); [nia|].
    destruct (Z.leb_spec (Js.ceilDiv d 86400000) 7); [reflexivity|].
    destruct (Z.leb_spec (Js.ceilDiv d 86400000) 30); [reflexivity | nia].
  - intros Hr. rewrite Hf, Hu. unfold DateUtils.getRelativeTime. cbv zeta. fold d.
    change (1000 * 60 * 60 * 24) with 86400000.
    change (1000 * 60 * 60) with 3600000.
    change (1000 * 60) with 60000.
    assert (Hlast : forall a b c : string,
      c <> "" -> lastChar b <> lastChar c -> b <> String.append a c).
    { intros a b c Hc Hne Heq. apply Hne. subst b.
      apply lastChar_append, Hc. }
    destruct (Z.le_gt_cases d 86400000) as [Hle|Hgt].
    + rewrite (ceilDiv_unique d 86400000 1) by lia. cbn [Z.eqb Pos.eqb].
      destruct (Z.ltb_spec (Js.ceilDiv d 60000) 60).
      * destruct (Z.eqb_spec (Js.ceilDiv d 60000) 1); [discriminate|].
        apply Hlast; discriminate.
      * destruct (Z.ltb_spec (Js.ceilDiv d 3600000) 24).
        -- destruct (Z.eqb_spec (Js.ceilDiv d 3600000) 1); [discriminate|].
           apply Hlast; discriminate.
        -- discriminate.
    + rewrite (ceilDiv_unique d 86400000 2) by lia. cbn [Z.eqb Pos.eqb].
      destruct (Z.ltb_spec (Js.ceilDiv d 60000) 60); [nia|].
      destruct (Z.ltb_spec (Js.ceilDiv d 3600000) 24); [nia|].
      discriminate.
  - reflexivity.
  - reflexivity.
  - intros style H1 H2 H3. unfold DateUtils.format.
    destruct s as [|c s']; [contradiction|]. cbn [Js.truthy negb].
    apply String.eqb_neq in H1, H2, H3. rewrite H1, H2, H3. reflexivity.
Qed.

End DateUtilsFacts.

Lemma getRelativeTime_windows_witness :
  DateUtils.getRelativeTime (Some 1700000000000) (1700000000000 + 30 * 3600000)
  = "2 days ago"
  /\ DateUtils.getRelativeTime (Some 1700000000000) (1700000000000 + 60 * 3600000)
     = "2 days ago".
Proof.
  destruct (getRelativeTime_windows (1700000000000 + 30 * 3600000) 1700000000000)
    as (_ & _ & _ & _ & H1 & _).
  destruct (getRelativeTime_windows (1700000000000 + 60 * 3600000) 1700000000000)
    as (_ & _ & _ & _ & H2 & _).
  split; [apply H1 | apply H2]; simpl; lia.
Defined.

Lemma formatDate_and_DateUtils_format_witness :
  "1700000000000" <> ""
  /\ dateParse (Platform := AsciiPlatform) "1700000000000" = Some 1700000000000
  /\ formatDate (H := AsciiPlatform) (H0 := PlainDateLocale)
       1700900000000 (Some "1700000000000")
     = "1 week ago"
  /\ DateUtils.format (H := AsciiPlatform) (H0 := PlainDateLocale)
       1700900000000 (Some "1700000000000") "relative"
     = "1 week ago".
Proof.
  split; [discriminate|]. split; [reflexivity|]. split; [reflexivity|].
  destruct (formatDate_and_DateUtils_format (H := AsciiPlatform) (H0 := PlainDateLocale)
              1700900000000 1700000000000 "1700000000000")
    as (Hagree & _); [discriminate | reflexivity |].
  rewrite <- Hagree; [reflexivity | simpl; lia].
Defined.

(** ** Strings *)

Lemma length_append (a b : string) :
  String.length (String.append a b) = (String.length a + String.length b)%nat.
Proof.
  induction a as [|c a IH]; [reflexivity|].
  rewrite append_String. simpl. rewrite IH. reflexivity.
Qed.

Lemma length_substring_0 (n : nat) (s : string) :
  String.length (String.substring 0 n s) = Nat.min n (String.length s).
Proof.
  revert n. induction s as [|c s IH]; intros [|n]; simpl; try reflexivity.
  rewrite IH. reflexivity.
Qed.

Lemma substring_0_prefix (n : nat) (s : string) :
  exists rest, s = String.append (String.substring 0 n s) rest.
Proof.
  revert n. induction s as [|c s IH]; intros [|n]; simpl.
  - exists "". reflexivity.
  - exists "". reflexivity.
  - exists (String c s). reflexivity.
  - destruct (IH n) as [rest Hrest]. exists rest.
    rewrite append_String. f_equal. exact Hrest.
Qed.

Lemma JsString_substring_0 (s : string) (stop : Z) :
  JsString.substring s 0 stop
  = String.substring 0 (Z.to_nat (Z.min stop (Z.of_nat (String.length s)))) s.
Proof.
  unfold JsString.substring. cbv zeta.
  set (len := Z.of_nat (String.length s)).
  assert (Hlen : 0 <= len) by (unfold len; lia).
  replace (Z.max 0 (Z.min 0 len)) with 0 by lia.
  replace (Z.min 0 (Z.max 0 (Z.min stop len))) with 0 by lia.
  replace (Z.max 0 (Z.max 0 (Z.min stop len)) - 0) with (Z.max 0 (Z.min stop len)) by lia.
  change (Z.to_nat 0) with 0%nat. f_equal. lia.
Qed.

(** X18: [StringUtils.truncate].  A text that fits within [maxLength] is
    returned as it is.  A longer text is cut: when the suffix itself fits,
    the result is the first [maxLength - suffix.length] characters of the
    text followed by the suffix and is exactly [maxLength] long; when the
    suffix is longer than [maxLength], the result is the suffix alone, and
    so longer than [maxLength].  Truncating a second time changes nothing
    when the suffix fits.  [null] and the empty text are returned as they
    are. *)
Theorem truncate_cuts_to_the_length (t suffix : string) (maxLength : Z) :
  let len (s : string) := Z.of_nat (String.length s) in
  (len t <= maxLength -> StringUtils.truncate (Some t) maxLength suffix = Some t)
  /\ (maxLength < len t -> len suffix <= maxLength ->
      exists kept rest,
        t = String.append kept rest
        /\ len kept = maxLength - len suffix
        /\ StringUtils.truncate (Some t) maxLength suffix
           = Some (String.append kept suffix)
        /\ len (String.append kept suffix) = maxLength)
  /\ (maxLength < len t -> maxLength < len suffix -> t <> "" ->
      StringUtils.truncate (Some t) maxLength suffix = Some suffix)
  /\ (len suffix <= maxLength ->
      forall r, StringUtils.truncate (Some t) maxLength suffix = Some r ->
                StringUtils.truncate (Some r) maxLength suffix = Some r)
  /\ StringUtils.truncate None maxLength suffix = None
  /\ StringUtils.truncate (Some "") maxLength suffix = Some "".
Proof.
  intros len.
  assert (Hfit : forall s, len s <= maxLength ->
                 StringUtils.truncate (Some s) maxLength suffix = Some s).
  { intros s Hs. unfold StringUtils.truncate.
    destruct (Z.leb_spec (Z.of_nat (String.length s)) maxLength) as [_|Hgt].
    - rewrite orb_true_r. reflexivity.
    - unfold len in Hs. lia. }
  assert (Hcut : maxLength < len t -> t <> "" ->
    StringUtils.truncate (Some t) maxLength suffix
    = Some (String.append
              (String.substring 0 (Z.to_nat (maxLength - len suffix)) t) suffix)).
  { intros Hlong Hne. unfold StringUtils.truncate.
    destruct t as [|c t']; [contradiction|]. cbn [Js.truthy negb orb].
    destruct (Z.leb_spec (Z.of_nat (String.length (String c t'))) maxLength) as [Hle|_].
    - unfold len in Hlong. lia.
    - rewrite JsString_substring_0. do 3 f_equal. unfold len in *. lia. }
  assert (Hlenkept : maxLength < len t -> len suffix <= maxLength ->
    len (String.substring 0 (Z.to_nat (maxLength - len suffix)) t)
    = maxLength - len suffix).
  { intros Hlong Hsuf. unfold len. rewrite length_substring_0. unfold len in *. lia. }
  split; [exact (Hfit t)|]. split; [|split; [|split; [|split]]].
  - intros Hlong Hsuf.
    assert (Hne : t <> "").
    { intros ->. unfold len in *. simpl in *. lia. }
    destruct (substring_0_prefix (Z.to_nat (maxLength - len suffix)) t) as [rest Hrest].
    exists (String.substring 0 (Z.to_nat (maxLength - len suffix)) t), rest.
    split; [exact Hrest|]. split; [apply Hlenkept; assumption|].
    split; [apply Hcut; assumption|].
    unfold len at 1. rewrite length_append.
    specialize (Hlenkept Hlong Hsuf). unfold len in *. lia.
  - intros Hlong Hsuf Hne. rewrite Hcut by assumption.
    replace (Z.to_nat (maxLength - len suffix)) with 0%nat by (unfold len in *; lia).
    destruct t; reflexivity.
  - intros Hsuf r Hr. apply Hfit.
    destruct (Z.le_gt_cases (len t) maxLength) as [Hle|Hgt].
    + rewrite Hfit in Hr by exact Hle. injection Hr as <-. exact Hle.
    + assert (Hne : t <> "").
      { intros ->. unfold len in *. simpl in *. lia. }
      rewrite Hcut in Hr by assumption. injection Hr as <-.
      unfold len at 1. rewrite length_append.
      specialize (Hlenkept Hgt Hsuf). unfold len in *. lia.
  - reflexivity.
  - reflexivity.
Qed.

Lemma truncate_cuts_to_the_length_witness :
  StringUtils.truncate (Some "Atmosphere custom firmware") 10 "..." = Some "Atmosph..."
  /\ StringUtils.truncate (Some "Atmosphere custom firmware") 2 "..." = Some "...".
Proof.
  destruct (truncate_cuts_to_the_length "Atmosphere custom firmware" "..." 2)
    as (_ & _ & Hshort & _).
  split; [reflexivity|]. apply Hshort; [reflexivity | reflexivity | discriminate].
Defined.

Section CharRuns.
Import JsString.

Lemma adjacent_cons (class : ascii -> bool) (c d : ascii) (r : string) :
  adjacent class (String c (String d r))
  = (class c && class d) || adjacent class (String d r).
Proof. reflexivity. Qed.

Lemma isDash_eq (c : ascii) : isDash c = true -> c = "-"%char.
Proof.
  unfold isDash. intros Hc. apply N.eqb_eq in Hc.
  rewrite <- (ascii_N_embedding c), Hc. reflexivity.
Qed.

Lemma all_removeAll (class : ascii -> bool) (s : string) :
  all (fun c => negb (class c)) (removeAll class s) = true.
Proof.
  induction s as [|c s IH]; [reflexivity|]. simpl.
  destruct (class c) eqn:Hc; [exact IH|]. simpl. rewrite Hc. exact IH.
Qed.

Lemma all_impl (P Q : ascii -> bool) (s : string) :
  (forall c, P c = true -> Q c = true) -> all P s = true -> all Q s = true.
Proof.
  intros HPQ. induction s as [|c s IH]; [reflexivity|]. simpl.
  intros [Hc Hs]%andb_true_iff. rewrite (HPQ c Hc). apply IH, Hs.
Qed.

Lemma all_removeAll_keeps (P class : ascii -> bool) (s : string) :
  all P s = true -> all P (removeAll class s) = true.
Proof.
  induction s as [|c s IH]; [reflexivity|]. simpl.
  intros [Hc Hs]%andb_true_iff.
  destruct (class c); [apply IH, Hs|]. simpl. rewrite Hc. apply IH, Hs.
Qed.

Lemma all_replaceRuns (P Q class : ascii -> bool) (by_ : ascii) (b : bool) (s : string) :
  Q by_ = true ->
  (forall c, P c = true -> class c = false -> Q c = true) ->
  all P s = true -> all Q (replaceRuns class by_ b s) = true.
Proof.
  intros Hby HPQ. revert b. induction s as [|c s IH]; intros b; [reflexivity|]. simpl.
  intros [Hc Hs]%andb_true_iff.
  destruct (class c) eqn:Hcl.
  - destruct b; [apply IH, Hs|]. simpl. rewrite Hby. apply IH, Hs.
  - simpl. rewrite (HPQ c Hc Hcl). apply IH, Hs.
Qed.

Lemma all_removeLeading (P class : ascii -> bool) (s : string) :
  all P s = true -> all P (removeLeading class s) = true.
Proof.
  induction s as [|c s IH]; [reflexivity|]. simpl.
  intros Hall. destruct (class c); [|exact Hall].
  apply andb_true_iff in Hall as [_ Hs]. apply IH, Hs.
Qed.

Lemma all_removeTrailing (P class : ascii -> bool) (s : string) :
  all P s = true -> all P (removeTrailing class s) = true.
Proof.
  induction s as [|c s IH]; [reflexivity|]. simpl.
  intros [Hc Hs]%andb_true_iff. specialize (IH Hs).
  destruct (removeTrailing class s) as [|d r].
  - destruct (class c); [reflexivity|]. simpl. rewrite Hc. reflexivity.
  - cbn [all] in *. rewrite Hc. exact IH.
Qed.

Lemma adjacent_replaceRuns (class dash : ascii -> bool) (by_ : ascii) (b : bool)
    (s : string) :
  (forall c, dash c = true -> class c = true) ->
  adjacent dash (replaceRuns class by_ b s) = false
  /\ (b = true ->
      forall c, firstChar (replaceRuns class by_ b s) = Some c -> dash c = false).
Proof.
  intros Hsub. revert b. induction s as [|c s IH]; intros b.
  - split; [reflexivity | intros _ c Hc; discriminate Hc].
  - simpl. destruct (class c) eqn:Hcl.
    + destruct b.
      * apply IH.
      * destruct (IH true) as [Hadj Hfirst]. split; [|discriminate].
        destruct (replaceRuns class by_ true s) as [|d r] eqn:Hr; [reflexivity|].
        rewrite adjacent_cons. rewrite Hadj. rewrite (Hfirst eq_refl d eq_refl).
        rewrite andb_false_r. reflexivity.
    + assert (Hd : dash c = false).
      { destruct (dash c) eqn:Hd; [|reflexivity].
        rewrite (Hsub c Hd) in Hcl. discriminate. }
      destruct (IH false) as [Hadj _]. split.
      * destruct (replaceRuns class by_ false s) as [|d r] eqn:Hr; [reflexivity|].
        rewrite adjacent_cons. rewrite Hadj, Hd. reflexivity.
      * intros _ c' Hc'. injection Hc' as <-. exact Hd.
Qed.

Lemma adjacent_tail (class : ascii -> bool) (c : ascii) (s : string) :
  adjacent class (String c s) = false -> adjacent class s = false.
Proof.
  destruct s as [|d r]; [reflexivity|]. rewrite adjacent_cons.
  intros Hadj. apply orb_false_iff in Hadj as [_ Hadj]. exact Hadj.
Qed.

Lemma adjacent_removeLeading (class cl : ascii -> bool) (s : string) :
  adjacent class s = false -> adjacent class (removeLeading cl s) = false.
Proof.
  induction s as [|c s IH]; [reflexivity|].
  intros Hadj. cbn [removeLeading]. destruct (cl c); [|exact Hadj].
  apply IH. eapply adjacent_tail, Hadj.
Qed.

Lemma firstChar_removeTrailing (cl : ascii -> bool) (s : string) :
  removeTrailing cl s = "" \/ firstChar (removeTrailing cl s) = firstChar s.
Proof.
  destruct s as [|c s]; [left; reflexivity|]. simpl.
  destruct (removeTrailing cl s); [|right; reflexivity].
  destruct (cl c); [left | right]; reflexivity.
Qed.

Lemma adjacent_removeTrailing (class cl : ascii -> bool) (s : string) :
  adjacent class s = false -> adjacent class (removeTrailing cl s) = false.
Proof.
  induction s as [|c s IH]; [reflexivity|].
  intros Hadj. pose proof (adjacent_tail _ _ _ Hadj) as Htail.
  specialize (IH Htail). cbn [removeTrailing].
  destruct (removeTrailing cl s) as [|d r] eqn:Hr.
  - destruct (cl c); reflexivity.
  - rewrite adjacent_cons. rewrite IH, orb_false_r.
    destruct (firstChar_removeTrailing cl s) as [Hnil|Hfirst];
      [rewrite Hr in Hnil; discriminate|].
    rewrite Hr in Hfirst. destruct s as [|d' s']; [discriminate|].
    injection Hfirst as <-.
    rewrite adjacent_cons in Hadj. apply orb_false_iff in Hadj as [Hadj _]. exact Hadj.
Qed.

Lemma firstChar_removeLeading (cl : ascii -> bool) (s : string) (c : ascii) :
  firstChar (removeLeading cl s) = Some c -> cl c = false.
Proof.
  induction s as [|d s IH]; [discriminate|]. simpl.
  destruct (cl d) eqn:Hd; [exact IH|].
  intros Hc. injection Hc as <-. exact Hd.
Qed.

Lemma lastChar_removeTrailing (cl : ascii -> bool) (s : string) (c : ascii) :
  lastChar (removeTrailing cl s) = Some c -> cl c = false.
Proof.
  induction s as [|d s IH]; [discriminate|]. cbn [removeTrailing].
  destruct (removeTrailing cl s) as [|e r] eqn:Hr.
  - destruct (cl d) eqn:Hd; [discriminate|].
    intros Hc. injection Hc as <-. exact Hd.
  - intros Hc. apply IH. exact Hc.
Qed.

Lemma removeLeading_id (cl : ascii -> bool) (s : string) :
  (forall c, firstChar s = Some c -> cl c = false) -> removeLeading cl s = s.
Proof.
  destruct s as [|c s]; [reflexivity|]. intros Hfirst. simpl.
  rewrite (Hfirst c eq_refl). reflexivity.
Qed.

Lemma removeTrailing_id (cl : ascii -> bool) (s : string) :
  (forall c, lastChar s = Some c -> cl c = false) -> removeTrailing cl s = s.
Proof.
  induction s as [|c s IH]; [reflexivity|]. intros Hlast. cbn [removeTrailing].
  destruct s as [|d r].
  - simpl. rewrite (Hlast c eq_refl). reflexivity.
  - rewrite IH; [reflexivity|]. intros e He. apply Hlast. exact He.
Qed.

Lemma removeAll_id (class : ascii -> bool) (s : string) :
  all (fun c => negb (class c)) s = true -> removeAll class s = s.
Proof.
  induction s as [|c s IH]; [reflexivity|]. simpl.
  intros [Hc Hs]%andb_true_iff. apply negb_true_iff in Hc. rewrite Hc.
  f_equal. apply IH, Hs.
Qed.

Lemma replaceRuns_id (class dash : ascii -> bool) (by_ : ascii) (b : bool) (s : string) :
  (forall c, dash c = true -> c = by_) ->
  all (fun c => dash c || negb (class c)) s = true ->
  (forall c, dash c = true -> class c = true) ->
  adjacent dash s = false ->
  (b = true -> forall c, firstChar s = Some c -> dash c = false) ->
  replaceRuns class by_ b s = s.
Proof.
  intros Hby. revert b. induction s as [|c s IH]; intros b Hall Hsub Hadj Hfirst;
    [reflexivity|].
  cbn [all] in Hall. apply andb_true_iff in Hall as [Hc Hs].
  pose proof (adjacent_tail _ _ _ Hadj) as Htail.
  cbn [replaceRuns]. destruct (class c) eqn:Hcl.
  - rewrite orb_false_r in Hc.
    destruct b; [rewrite (Hfirst eq_refl c eq_refl) in Hc; discriminate|].
    rewrite <- (Hby c Hc) at 1. f_equal.
    apply IH; try assumption.
    intros _ d Hd. destruct s as [|d' r]; [discriminate|].
    injection Hd as <-. rewrite adjacent_cons in Hadj.
    apply orb_false_iff in Hadj as [Hadj _]. rewrite Hc in Hadj. exact Hadj.
  - f_equal. apply IH; try assumption. discriminate.
Qed.

Lemma all_mapChars_fixed (f : ascii -> ascii) (s : string) :
  (forall c, f (f c) = f c) ->
  all (fun c => Ascii.eqb (f c) c) (mapChars f s) = true.
Proof.
  intros Hidem. induction s as [|c s IH]; [reflexivity|]. simpl.
  rewrite Hidem, Ascii.eqb_refl. exact IH.
Qed.

Lemma mapChars_id (f : ascii -> ascii) (s : string) :
  all (fun c => Ascii.eqb (f c) c) s = true -> mapChars f s = s.
Proof.
  induction s as [|c s IH]; [reflexivity|]. simpl.
  intros [Hc Hs]%andb_true_iff. apply Ascii.eqb_eq in Hc. rewrite Hc.
  f_equal. apply IH, Hs.
Qed.

End CharRuns.

Lemma slugKept_not_separator (c : ascii) :
  slugKept c = true -> slugSeparator c = false -> isSlugChar c = true.
Proof.
  unfold slugKept, slugSeparator, isSlugChar.
  destruct (JsString.isWordChar c), (JsString.isWhiteSpace c),
    (N_of_ascii c =? 95)%N, (JsString.isDash c); simpl; congruence.
Qed.

Lemma isSlugChar_kept (c : ascii) : isSlugChar c = true -> slugKept c = true.
Proof.
  unfold slugKept, isSlugChar.
  destruct (JsString.isWordChar c), (JsString.isWhiteSpace c),
    (N_of_ascii c =? 95)%N, (JsString.isDash c); simpl; congruence.
Qed.

Lemma isWordChar_not_space (c : ascii) :
  JsString.isWordChar c = true -> JsString.isWhiteSpace c = false.
Proof.
  unfold JsString.isWordChar, JsString.isWhiteSpace, JsString.isDigit. cbv zeta.
  generalize (N_of_ascii c). intros n.
  repeat match goal with
  | |- context [(?a <=? ?b)%N] => destruct (N.leb_spec a b)
  | |- context [(?a =? ?b)%N] => destruct (N.eqb_spec a b)
  end; simpl; intros; try reflexivity; try discriminate; lia.
Qed.

Lemma isSlugChar_dash_or_plain (c : ascii) :
  isSlugChar c = true -> JsString.isDash c || negb (slugSeparator c) = true.
Proof.
  unfold isSlugChar, slugSeparator. intros Hc.
  destruct (JsString.isDash c) eqn:Hd; [reflexivity|].
  rewrite orb_false_r in Hc. apply andb_true_iff in Hc as [Hw Hu].
  rewrite (isWordChar_not_space c Hw). apply negb_true_iff in Hu. rewrite Hu.
  reflexivity.
Qed.

Lemma isDash_separator (c : ascii) :
  JsString.isDash c = true -> slugSeparator c = true.
Proof.
  unfold slugSeparator. intros ->. apply orb_true_r.
Qed.

Section SlugifyFacts.
Context `{Platform}.

Lemma slugify_unfold (c : ascii) (t : string) :
  StringUtils.slugify (Some (String c t))
  = JsString.removeTrailing JsString.isDash
      (JsString.removeLeading JsString.isDash
         (JsString.replaceRuns slugSeparator "-" false
            (JsString.removeAll (fun c => negb (slugKept c))
               (toLowerCase (String c t))))).
Proof. reflexivity. Qed.

Lemma slugify_all (text : option string) :
  JsString.all isSlugChar (StringUtils.slugify text) = true.
Proof.
  destruct text as [[|c t]|]; try reflexivity.
  rewrite slugify_unfold.
  apply all_removeTrailing, all_removeLeading.
  apply (all_replaceRuns slugKept); [reflexivity | apply slugKept_not_separator |].
  eapply all_impl; [|apply all_removeAll].
  intros d Hd. cbv beta in Hd. rewrite negb_involutive in Hd. exact Hd.
Qed.

Lemma slugify_adjacent (text : option string) :
  JsString.adjacent JsString.isDash (StringUtils.slugify text) = false.
Proof.
  destruct text as [[|c t]|]; try reflexivity.
  rewrite slugify_unfold.
  apply adjacent_removeTrailing, adjacent_removeLeading.
  apply adjacent_replaceRuns. exact isDash_separator.
Qed.

Lemma slugify_first (text : option string) (c : ascii) :
  JsString.firstChar (StringUtils.slugify text) = Some c -> JsString.isDash c = false.
Proof.
  destruct text as [[|d t]|]; try discriminate.
  rewrite slugify_unfold.
  match goal with
  | |- context [JsString.removeTrailing ?cl ?s] =>
      destruct (firstChar_removeTrailing cl s) as [-> | ->]
  end; [discriminate|].
  apply firstChar_removeLeading.
Qed.

Lemma slugify_last (text : option string) (c : ascii) :
  lastChar (StringUtils.slugify text) = Some c -> JsString.isDash c = false.
Proof.
  destruct text as [[|d t]|]; try discriminate.
  rewrite slugify_unfold. apply lastChar_removeTrailing.
Qed.

(** X19: the shape of a slug.  Whatever the text, the result of
    [StringUtils.slugify] consists of letters, digits and dashes only,
    never has two dashes in a row, and neither begins nor ends with a dash;
    for [null] and the empty text it is the empty string. *)
Theorem slugify_shape (text : option string) :
  let slug := StringUtils.slugify text in
  JsString.all isSlugChar slug = true
  /\ JsString.adjacent JsString.isDash slug = false
  /\ JsString.firstChar slug <> Some "-"%char
  /\ lastChar slug <> Some "-"%char
  /\ StringUtils.slugify None = ""
  /\ StringUtils.slugify (Some "") = "".
Proof.
  cbv zeta. split; [apply slugify_all|]. split; [apply slugify_adjacent|].
  split; [|split; [|split; reflexivity]].
  - intros Hfirst. apply slugify_first in Hfirst. discriminate Hfirst.
  - intros Hlast. apply slugify_last in Hlast. discriminate Hlast.
Qed.

(** X20: [StringUtils.slugify] is idempotent.  On a platform whose
    [toLowerCase] works character by character, lowering a lowered
    character and the dash to themselves, the slug of a slug is that
    slug. *)
Theorem slugify_idempotent (lowerChar : ascii -> ascii) (text : option string) :
  (forall s, toLowerCase s = JsString.mapChars lowerChar s) ->
  (forall c, lowerChar (lowerChar c) = lowerChar c) ->
  lowerChar "-"%char = "-"%char ->
  StringUtils.slugify (Some (StringUtils.slugify text)) = StringUtils.slugify text.
Proof.
  intros Hmap Hidem Hdash.
  pose proof (slugify_all text) as Hall.
  pose proof (slugify_adjacent text) as Hadj.
  pose proof (slugify_first text) as Hfirst.
  pose proof (slugify_last text) as Hlast.
  assert (Hfixed : JsString.all (fun c => Ascii.eqb (lowerChar c) c)
                     (StringUtils.slugify text) = true).
  { destruct text as [[|c t]|]; try reflexivity.
    rewrite slugify_unfold.
    apply all_removeTrailing, all_removeLeading.
    apply (all_replaceRuns (fun c => Ascii.eqb (lowerChar c) c)).
    - rewrite Hdash. reflexivity.
    - intros d Hd _. exact Hd.
    - apply all_removeAll_keeps. rewrite Hmap. apply all_mapChars_fixed, Hidem. }
  destruct (StringUtils.slugify text) as [|c slug] eqn:Hslug; [reflexivity|].
  rewrite slugify_unfold, Hmap, (mapChars_id _ _ Hfixed).
  rewrite removeAll_id.
  2: { eapply all_impl; [|exact Hall]. intros d Hd. cbv beta.
       rewrite (isSlugChar_kept d Hd). reflexivity. }
  rewrite (replaceRuns_id slugSeparator JsString.isDash).
  - rewrite removeLeading_id by exact Hfirst.
    apply removeTrailing_id. exact Hlast.
  - intros d Hd. apply isDash_eq, Hd.
  - eapply all_impl; [|exact Hall]. apply isSlugChar_dash_or_plain.
  - exact isDash_separator.
  - exact Hadj.
  - discriminate.
Qed.

End SlugifyFacts.

Lemma lowerChar_idempotent (c : ascii) :
  Ascii7.lowerChar (Ascii7.lowerChar c) = Ascii7.lowerChar c.
Proof. destruct c as [[] [] [] [] [] [] [] []]; reflexivity. Qed.

Lemma lower_mapChars (s : string) :
  Ascii7.lower s = JsString.mapChars Ascii7.lowerChar s.
Proof. induction s as [|c s IH]; [reflexivity|]. simpl. rewrite IH. reflexivity. Qed.

Lemma slugify_idempotent_witness :
  StringUtils.slugify (H := AsciiPlatform) (Some "  NX_Projects -- Tracker!  ")
  = "nx-projects-tracker"
  /\ StringUtils.slugify (H := AsciiPlatform)
       (Some (StringUtils.slugify (H := AsciiPlatform)
                (Some "  NX_Projects -- Tracker!  ")))
     = "nx-projects-tracker".
Proof.
  split; [reflexivity|].
  rewrite (slugify_idempotent (H := AsciiPlatform) Ascii7.lowerChar
             (Some "  NX_Projects -- Tracker!  ")
             lower_mapChars lowerChar_idempotent eq_refl).
  reflexivity.
Defined.

(** ** Colours *)

Lemma toInt32_small (n : Z) : 0 <= n < 2147483648 -> ColorUtils.toInt32 n = n.
Proof.
  intros Hn. unfold ColorUtils.toInt32. cbv zeta.
  rewrite Z.mod_small by lia.
  destruct (Z.ltb_spec n 2147483648); [reflexivity | lia].
Qed.

Lemma shiftLeft_small (x k : Z) :
  0 <= k -> 0 <= x -> x * 2 ^ k < 2147483648 -> ColorUtils.shiftLeft x k = x * 2 ^ k.
Proof.
  intros Hk Hx Hlt. unfold ColorUtils.shiftLeft.
  assert (Hp : 1 <= 2 ^ k) by (pose proof (Z.pow_pos_nonneg 2 k); lia).
  rewrite (toInt32_small x) by nia.
  rewrite Z.shiftl_mul_pow2 by exact Hk.
  apply toInt32_small. nia.
Qed.

Lemma hex_digit_at (n p hi d lo : Z) :
  n = hi * (16 * p) + d * p + lo ->
  0 < p -> 0 <= lo < p -> 0 <= d < 16 ->
  (n / p) mod 16 = d.
Proof.
  intros -> Hp Hlo Hd.
  replace ((hi * (16 * p) + d * p + lo) / p) with (hi * 16 + d).
  - rewrite Z.add_comm, Z.mod_add by lia. apply Z.mod_small, Hd.
  - apply Z.div_unique with lo; [lia | ring].
Qed.

Lemma hexValue_hexDigit (d : Z) :
  0 <= d < 16 -> ColorUtils.hexValue (ColorUtils.hexDigit d) = Some d.
Proof.
  intros Hd.
  assert (Hcases : d = 0 \/ d = 1 \/ d = 2 \/ d = 3 \/ d = 4 \/ d = 5 \/ d = 6 \/ d = 7
                   \/ d = 8 \/ d = 9 \/ d = 10 \/ d = 11 \/ d = 12 \/ d = 13
                   \/ d = 14 \/ d = 15) by lia.
  repeat destruct Hcases as [-> | Hcases]; try reflexivity.
  subst. reflexivity.
Qed.

Lemma byte_digits (x : Z) :
  0 <= x <= 255 ->
  exists x1 x0, 0 <= x1 < 16 /\ 0 <= x0 < 16 /\ x = 16 * x1 + x0.
Proof.
  intros Hx. exists (x / 16), (x mod 16).
  pose proof (Z.div_mod x 16 ltac:(lia)) as Hdm.
  pose proof (Z.mod_pos_bound x 16 ltac:(lia)) as Hm.
  repeat split; lia.
Qed.

Lemma hexValue_range (c : ascii) (d : Z) :
  ColorUtils.hexValue c = Some d -> 0 <= d < 16.
Proof.
  unfold ColorUtils.hexValue. cbv zeta.
  generalize (Z.of_N (N_of_ascii c)). intros n.
  repeat match goal with
  | |- context [?a <=? ?b] => destruct (Z.leb_spec a b)
  end; simpl; intros Heq; try discriminate Heq; injection Heq as <-; lia.
Qed.

Lemma parseHexPair_range (x y : ascii) (v : Z) :
  ColorUtils.parseHexPair x y = Some v -> 0 <= v <= 255.
Proof.
  unfold ColorUtils.parseHexPair.
  destruct (ColorUtils.hexValue x) as [a|] eqn:Ha; [|discriminate].
  destruct (ColorUtils.hexValue y) as [b|] eqn:Hb; [|discriminate].
  apply hexValue_range in Ha, Hb. intros Heq. injection Heq as <-. lia.
Qed.

(** X21: hexadecimal colours there and back.  For channel values from 0
    to 255, [ColorUtils.rgbToHex] writes a [#] and the six lower-case
    hexadecimal digits of the three channels, and [ColorUtils.hexToRgb]
    reads the same three values back from it.  Whatever string
    [hexToRgb] accepts, the three values it returns lie between 0 and
    255. *)
Theorem rgbToHex_hexToRgb_round_trip (r g b : Z) :
  0 <= r <= 255 -> 0 <= g <= 255 -> 0 <= b <= 255 ->
  ColorUtils.rgbToHex r g b
  = String "#" (ColorUtils.hexDigits 6 (65536 * r + 256 * g + b))
  /\ ColorUtils.hexToRgb (ColorUtils.rgbToHex r g b) = Some (r, g, b)
  /\ (forall hex r' g' b',
        ColorUtils.hexToRgb hex = Some (r', g', b') ->
        0 <= r' <= 255 /\ 0 <= g' <= 255 /\ 0 <= b' <= 255).
Proof.
  intros Hr Hg Hb.
  destruct (byte_digits r Hr) as (r1 & r0 & Hr1 & Hr0 & Er).
  destruct (byte_digits g Hg) as (g1 & g0 & Hg1 & Hg0 & Eg).
  destruct (byte_digits b Hb) as (b1 & b0 & Hb1 & Hb0 & Eb).
  set (n := 65536 * r + 256 * g + b).
  assert (Hhex : ColorUtils.rgbToHex r g b = String "#" (ColorUtils.hexDigits 6 n)).
  { unfold ColorUtils.rgbToHex.
    rewrite (shiftLeft_small 1 24), (shiftLeft_small r 16), (shiftLeft_small g 8)
      by (change (2 ^ 24) with 16777216; change (2 ^ 16) with 65536;
          change (2 ^ 8) with 256; lia).
    change (2 ^ 24) with 16777216. change (2 ^ 16) with 65536. change (2 ^ 8) with 256.
    replace (1 * 16777216 + r * 65536 + g * 256 + b) with (16777216 + n)
      by (unfold n; lia).
    unfold ColorUtils.toString16.
    destruct (Z.eqb_spec (16777216 + n) 0) as [Hz|_]; [unfold n in Hz; lia|].
    destruct (Z.ltb_spec (16777216 + n) 0) as [Hneg|_]; [unfold n in Hneg; lia|].
    cbv zeta. rewrite Z.abs_eq by (unfold n; lia).
    rewrite (Z.log2_unique (16777216 + n) 24)
      by (change (2 ^ 24) with 16777216; change (2 ^ (24 + 1)) with 33554432;
          unfold n; lia).
    change (Z.to_nat (24 / 4 + 1)) with 7%nat.
    change (String.append "" ?x) with x.
    cbn [ColorUtils.hexDigits ColorUtils.slice1]. f_equal.
    change (Z.of_nat 5) with 5. change (Z.of_nat 4) with 4.
    change (Z.of_nat 3) with 3. change (Z.of_nat 2) with 2.
    change (Z.of_nat 1) with 1. change (Z.of_nat 0) with 0.
    change (16 ^ 5) with 1048576. change (16 ^ 4) with 65536.
    change (16 ^ 3) with 4096. change (16 ^ 2) with 256.
    change (16 ^ 1) with 16. change (16 ^ 0) with 1.
    rewrite (hex_digit_at (16777216 + n) 1048576 1 r1 (65536 * r0 + 256 * g + b))
      by (unfold n; lia).
    rewrite (hex_digit_at (16777216 + n) 65536 (16 + r1) r0 (256 * g + b))
      by (unfold n; lia).
    rewrite (hex_digit_at (16777216 + n) 4096 (256 + r) g1 (256 * g0 + b))
      by (unfold n; lia).
    rewrite (hex_digit_at (16777216 + n) 256 (4096 + 16 * r + g1) g0 b)
      by (unfold n; lia).
    rewrite (hex_digit_at (16777216 + n) 16 (65536 + 256 * r + g) b1 b0)
      by (unfold n; lia).
    rewrite (hex_digit_at (16777216 + n) 1 (1048576 + 4096 * r + 16 * g + b1) b0 0)
      by (unfold n; lia).
    rewrite (hex_digit_at n 1048576 0 r1 (65536 * r0 + 256 * g + b))
      by (unfold n; lia).
    rewrite (hex_digit_at n 65536 r1 r0 (256 * g + b)) by (unfold n; lia).
    rewrite (hex_digit_at n 4096 r g1 (256 * g0 + b)) by (unfold n; lia).
    rewrite (hex_digit_at n 256 (16 * r + g1) g0 b) by (unfold n; lia).
    rewrite (hex_digit_at n 16 (256 * r + g) b1 b0) by (unfold n; lia).
    rewrite (hex_digit_at n 1 (4096 * r + 16 * g + b1) b0 0) by (unfold n; lia).
    reflexivity. }
  split; [exact Hhex|]. split.
  - rewrite Hhex. cbn [ColorUtils.hexDigits].
    change (Z.of_nat 5) with 5. change (Z.of_nat 4) with 4.
    change (Z.of_nat 3) with 3. change (Z.of_nat 2) with 2.
    change (Z.of_nat 1) with 1. change (Z.of_nat 0) with 0.
    change (16 ^ 5) with 1048576. change (16 ^ 4) with 65536.
    change (16 ^ 3) with 4096. change (16 ^ 2) with 256.
    change (16 ^ 1) with 16. change (16 ^ 0) with 1.
    rewrite (hex_digit_at n 1048576 0 r1 (65536 * r0 + 256 * g + b))
      by (unfold n; lia).
    rewrite (hex_digit_at n 65536 r1 r0 (256 * g + b)) by (unfold n; lia).
    rewrite (hex_digit_at n 4096 r g1 (256 * g0 + b)) by (unfold n; lia).
    rewrite (hex_digit_at n 256 (16 * r + g1) g0 b) by (unfold n; lia).
    rewrite (hex_digit_at n 16 (256 * r + g) b1 b0) by (unfold n; lia).
    rewrite (hex_digit_at n 1 (4096 * r + 16 * g + b1) b0 0) by (unfold n; lia).
    unfold ColorUtils.hexToRgb, ColorUtils.parseHexPair.
    rewrite !hexValue_hexDigit by assumption.
    rewrite Er, Eg, Eb. reflexivity.
  - intros hex r' g' b'. unfold ColorUtils.hexToRgb.
    set (digits := match hex with String "#" rest => rest | _ => hex end).
    destruct digits as [|c1 [|c2 [|c3 [|c4 [|c5 [|c6 [|c7 rest]]]]]]]; try discriminate.
    destruct (ColorUtils.parseHexPair c1 c2) as [vr|] eqn:Hvr; [|discriminate].
    destruct (ColorUtils.parseHexPair c3 c4) as [vg|] eqn:Hvg; [|discriminate].
    destruct (ColorUtils.parseHexPair c5 c6) as [vb|] eqn:Hvb; [|discriminate].
    intros Heq. injection Heq as <- <- <-.
    apply parseHexPair_range in Hvr, Hvg, Hvb. auto.
Qed.

Lemma rgbToHex_hexToRgb_round_trip_witness :
  ColorUtils.rgbToHex 243 75 125 = "#f34b7d"
  /\ ColorUtils.hexToRgb "#f34b7d" = Some (243, 75, 125).
Proof.
  destruct (rgbToHex_hexToRgb_round_trip 243 75 125) as (H1 & H2 & _); try lia.
  split; [rewrite H1; reflexivity | reflexivity].
Defined.

Lemma own_In (entries : list (string * string)) (key value : string) :
  JsObject.own entries key = Some value -> In (key, value) entries.
Proof.
  induction entries as [|[k v] entries IH]; [discriminate|]. simpl.
  destruct (JsObject.own entries key) as [v'|].
  - intros Heq. right. apply IH. exact Heq.
  - destruct (String.eqb_spec k key) as [->|]; [|discriminate].
    intros Heq. injection Heq as <-. left. reflexivity.
Qed.

Lemma appLanguageColors_checked :
  forallb (fun entry =>
             match JsObject.own ColorUtils.languageColors entry.1 with
             | Some v => String.eqb v entry.2
             | None => false
             end && Js.truthy entry.2 && isHexColor entry.2)
          appLanguageColors
  = true.
Proof. vm_compute. reflexivity. Qed.

Lemma languageColors_checked :
  forallb (fun entry => Js.truthy entry.2 && isHexColor entry.2)
          ColorUtils.languageColors
  = true.
Proof. vm_compute. reflexivity. Qed.

Lemma prototypeKeys_not_own :
  forallb (fun key =>
             match JsObject.own appLanguageColors key,
                   JsObject.own ColorUtils.languageColors key with
             | None, None => true
             | _, _ => false
             end)
          JsObject.prototypeKeys
  = true.
Proof. vm_compute. reflexivity. Qed.

(** X22: the two colour tables.  Every colour the application's
    [getLanguageColor] returns is a colour [ColorUtils.hexToRgb] can read,
    and it is either the grey fallback or the colour
    [ColorUtils.getLanguageColor] returns for the same language: the larger
    table only adds colours.  Every colour [ColorUtils.getLanguageColor]
    returns can be read by [hexToRgb] too.  Both functions return
    something that is not a string exactly for the twelve property names of
    [Object.prototype], which no table lists and [||] lets through. *)
Theorem language_colour_tables_agree (language : string) :
  (forall colour,
     getLanguageColor language = JsObject.Own colour ->
     isHexColor colour = true
     /\ (colour = "#6c757d"
         \/ ColorUtils.getLanguageColor language = JsObject.Own colour))
  /\ (forall colour,
        ColorUtils.getLanguageColor language = JsObject.Own colour ->
        isHexColor colour = true)
  /\ (In language JsObject.prototypeKeys <->
      getLanguageColor language = JsObject.Inherited language)
  /\ (In language JsObject.prototypeKeys <->
      ColorUtils.getLanguageColor language = JsObject.Inherited language).
Proof.
  pose proof appLanguageColors_checked as Happ.
  pose proof languageColors_checked as Hutils.
  pose proof prototypeKeys_not_own as Hproto.
  rewrite forallb_forall in Happ, Hutils, Hproto.
  assert (Hex : existsb (String.eqb language) JsObject.prototypeKeys = true
                <-> In language JsObject.prototypeKeys).
  { rewrite existsb_exists. split.
    - intros (k & Hin & Hk). apply String.eqb_eq in Hk. subst. exact Hin.
    - intros Hin. exists language. split; [exact Hin | apply String.eqb_refl]. }
  split; [|split; [|split]].
  - intros colour. unfold getLanguageColor, JsObject.readOr, JsObject.read.
    destruct (JsObject.own appLanguageColors language) as [v|] eqn:Hown.
    + apply own_In, Happ in Hown. cbn [fst snd] in Hown.
      apply andb_true_iff in Hown as [Hown Hhex].
      apply andb_true_iff in Hown as [Hown Htruthy].
      rewrite Htruthy. intros Heq. injection Heq as <-.
      split; [exact Hhex|]. right.
      unfold ColorUtils.getLanguageColor, JsObject.readOr, JsObject.read.
      destruct (JsObject.own ColorUtils.languageColors language) as [v'|];
        [|discriminate].
      apply String.eqb_eq in Hown. subst v'. rewrite Htruthy. reflexivity.
    + destruct (existsb _ _); [discriminate|].
      intros Heq. injection Heq as <-. split; [reflexivity | left; reflexivity].
  - intros colour. unfold ColorUtils.getLanguageColor, JsObject.readOr, JsObject.read.
    destruct (JsObject.own ColorUtils.languageColors language) as [v|] eqn:Hown.
    + apply own_In, Hutils in Hown. cbn [snd] in Hown.
      apply andb_true_iff in Hown as [Htruthy Hhex].
      rewrite Htruthy. intros Heq. injection Heq as <-. exact Hhex.
    + destruct (existsb _ _); [discriminate|].
      intros Heq. injection Heq as <-. reflexivity.
  - unfold getLanguageColor, JsObject.readOr, JsObject.read. split.
    + intros Hin. specialize (Hproto _ Hin). cbv beta in Hproto.
      destruct (JsObject.own appLanguageColors language); [discriminate|].
      apply Hex in Hin. rewrite Hin. reflexivity.
    + destruct (JsObject.own appLanguageColors language) as [v|].
      * destruct (Js.truthy v); discriminate.
      * destruct (existsb _ _) eqn:He; [|discriminate].
        intros _. apply Hex. reflexivity.
  - unfold ColorUtils.getLanguageColor, JsObject.readOr, JsObject.read. split.
    + intros Hin. specialize (Hproto _ Hin). cbv beta in Hproto.
      destruct (JsObject.own appLanguageColors language); [discriminate|].
      destruct (JsObject.own ColorUtils.languageColors language); [discriminate|].
      apply Hex in Hin. rewrite Hin. reflexivity.
    + destruct (JsObject.own ColorUtils.languageColors language) as [v|].
      * destruct (Js.truthy v); discriminate.
      * destruct (existsb _ _) eqn:He; [|discriminate].
        intros _. apply Hex. reflexivity.
Qed.

(** ** Keyboard navigation *)

Section KeyboardFacts.
Import KeyboardNavigation.

Lemma map_plain (cards : list CardStyle) :
  map (fun _ => plain) cards = replicate (length cards) plain.
Proof. induction cards as [|c cards IH]; [reflexivity|]. simpl. rewrite IH. reflexivity. Qed.

Lemma navigateProjects_run (direction : Z) (this : t) :
  projectCards this <> [] ->
  let len := Z.of_nat (length (projectCards this)) in
  let target := if 0 <? direction then 0 else len - 1 in
  navigateProjects direction this
  = Some (mk target
             (<[Z.to_nat target := selected]>
                (replicate (length (projectCards this)) plain)),
          [ScrollIntoView target]).
Proof.
  intros Hne len target. unfold navigateProjects.
  assert (Hlen : 0 < len).
  { unfold len. destruct (projectCards this); [contradiction | simpl; lia]. }
  fold len. destruct (Z.eqb_spec len 0) as [Hz|_]; [lia|].
  cbn [clearSelection currentIndex projectCards]. cbv zeta.
  rewrite length_map. fold len. cbn [Z.eqb Pos.eqb]. fold target.
  assert (Hrange : 0 <= target < len) by (unfold target; destruct (0 <? direction); lia).
  destruct (Z.leb_spec 0 target); [|lia].
  destruct (Z.ltb_spec target len); [|lia].
  cbn [andb]. rewrite map_plain. reflexivity.
Qed.

Lemma handleKeydown_invariant (cards : list CardStyle) (key : Key) (this : t) :
  keyboard_invariant cards this ->
  exists this' w,
    handleKeydown key this = Some (this', w)
    /\ keyboard_invariant cards this'
    /\ forall i, In (Click i) w -> i = 0 \/ i = Z.of_nat (length cards) - 1.
Proof.
  intros [Hlen Hidx].
  assert (Hnav : forall direction,
    exists this' w,
      navigateProjects direction this = Some (this', w)
      /\ keyboard_invariant cards this'
      /\ forall i, ~ In (Click i) w).
  { intros direction. destruct (projectCards this) as [|c cs] eqn:Hcards.
    - exists this, []. unfold navigateProjects. rewrite Hcards.
      split; [reflexivity|]. split; [|intros i []].
      split; [rewrite Hcards; exact Hlen|].
      destruct Hidx as [Hidx|[Hne _]]; [left; exact Hidx|].
      destruct cards; [contradiction | discriminate Hlen].
    - rewrite <- Hcards in *.
      assert (Hne : projectCards this <> []) by (rewrite Hcards; discriminate).
      rewrite (navigateProjects_run direction this Hne). cbv zeta.
      eexists _, _. split; [reflexivity|]. split.
      + split.
        * cbn [projectCards]. rewrite length_insert, length_replicate. exact Hlen.
        * right. split.
          -- intros ->. rewrite Hcards in Hlen. discriminate Hlen.
          -- cbn [currentIndex]. rewrite Hlen.
             destruct (0 <? direction); [left | right]; reflexivity.
      + intros i [Hin|[]]. discriminate Hin. }
  destruct key.
  - destruct (Hnav 1) as (this' & w & Hrun & Hinv & Hclick).
    exists this', (PreventDefault :: w). unfold handleKeydown. rewrite Hrun.
    split; [reflexivity|]. split; [exact Hinv|].
    intros i [Hin|Hin]; [discriminate Hin | destruct (Hclick i Hin)].
  - destruct (Hnav (-1)) as (this' & w & Hrun & Hinv & Hclick).
    exists this', (PreventDefault :: w). unfold handleKeydown. rewrite Hrun.
    split; [reflexivity|]. split; [exact Hinv|].
    intros i [Hin|Hin]; [discriminate Hin | destruct (Hclick i Hin)].
  - unfold handleKeydown.
    destruct (Z.leb_spec 0 (currentIndex this)) as [Hge|Hlt].
    + destruct Hidx as [Hidx|[Hne Hidx]]; [lia|].
      assert (Hpos : 0 < Z.of_nat (length cards)).
      { destruct cards; [contradiction | simpl; lia]. }
      rewrite Hlen.
      destruct (Z.ltb_spec (currentIndex this) (Z.of_nat (length cards))); [|lia].
      eexists _, _. split; [reflexivity|]. split; [split; auto|].
      intros i [Hin|[Hin|[]]]; [discriminate Hin|]. injection Hin as <-. exact Hidx.
    + exists this, []. split; [reflexivity|]. split; [split; auto|]. intros i [].
  - exists (clearSelection this), []. split; [reflexivity|]. split; [|intros i []].
    split; [cbn [clearSelection projectCards]; rewrite length_map; exact Hlen|].
    left. reflexivity.
  - exists this, []. split; [reflexivity|]. split; [split; auto|]. intros i [].
Qed.

Lemma handleKeys_invariant (cards : list CardStyle) (keys : list Key) (this : t) :
  keyboard_invariant cards this ->
  exists this' w,
    handleKeys keys this = Some (this', w)
    /\ keyboard_invariant cards this'
    /\ forall i, In (Click i) w -> i = 0 \/ i = Z.of_nat (length cards) - 1.
Proof.
  revert this. induction keys as [|key keys IH]; intros this Hinv.
  - exists this, []. split; [reflexivity|]. split; [exact Hinv | intros i []].
  - destruct (handleKeydown_invariant cards key this Hinv)
      as (this1 & w1 & Hrun1 & Hinv1 & Hclick1).
    destruct (IH this1 Hinv1) as (this2 & w2 & Hrun2 & Hinv2 & Hclick2).
    exists this2, (w1 ++ w2)%list. cbn [handleKeys]. rewrite Hrun1. cbn.
    rewrite Hrun2. cbn. split; [reflexivity|]. split; [exact Hinv2|].
    intros i Hin. apply in_app_iff in Hin as [Hin|Hin]; auto.
Qed.

(** X23: the arrow keys reach only the first and the last card.
    [navigateProjects] clears the selection, and with it the current
    index, before it computes the new index, so the branch that steps from
    the current card is never taken: with cards on the page, a positive
    direction selects the first card and any other direction the last one,
    whatever was selected before, and exactly that card is outlined.
    Pressing the same arrow again changes nothing.  In any sequence of key
    presses no key handler fails, and Enter only ever clicks the first or
    the last card. *)
Theorem arrow_keys_reach_only_the_first_and_last_card (this : t) (direction : Z) :
  projectCards this <> [] ->
  let count := length (projectCards this) in
  let target := if 0 <? direction then 0 else Z.of_nat count - 1 in
  let this' := mk target (<[Z.to_nat target := selected]> (replicate count plain)) in
  navigateProjects direction this = Some (this', [ScrollIntoView target])
  /\ navigateProjects direction this' = Some (this', [ScrollIntoView target])
  /\ (forall cards keys,
        exists final w,
          handleKeys keys (updateProjectCards cards constructed) = Some (final, w)
          /\ forall i, In (Click i) w -> i = 0 \/ i = Z.of_nat (length cards) - 1).
Proof.
  intros Hne count target this'.
  pose proof (navigateProjects_run direction this Hne) as Hrun. cbv zeta in Hrun.
  split; [exact Hrun|]. split.
  - assert (Hcount : length (projectCards this') = count).
    { unfold this'. cbn [projectCards]. rewrite length_insert, length_replicate.
      reflexivity. }
    assert (Hne' : projectCards this' <> []).
    { intros Hnil. rewrite Hnil in Hcount. unfold count in Hcount.
      destruct (projectCards this); [contradiction | discriminate Hcount]. }
    rewrite (navigateProjects_run direction this' Hne'). cbv zeta.
    rewrite Hcount. reflexivity.
  - intros cards keys.
    destruct (handleKeys_invariant cards keys (updateProjectCards cards constructed))
      as (final & w & Hkeys & _ & Hclick).
    + split; [reflexivity | left; reflexivity].
    + exists final, w. split; assumption.
Qed.

End KeyboardFacts.

Lemma arrow_keys_reach_only_the_first_and_last_card_witness :
  KeyboardNavigation.projectCards
    (KeyboardNavigation.mk 1
       [KeyboardNavigation.plain; KeyboardNavigation.selected; KeyboardNavigation.plain])
  <> []
  /\ KeyboardNavigation.navigateProjects 1
       (KeyboardNavigation.mk 1
          [KeyboardNavigation.plain; KeyboardNavigation.selected;
           KeyboardNavigation.plain])
     = Some (KeyboardNavigation.mk 0
               [KeyboardNavigation.selected; KeyboardNavigation.plain;
                KeyboardNavigation.plain],
             [KeyboardNavigation.ScrollIntoView 0]).
Proof.
  split; [discriminate|].
  destruct (arrow_keys_reach_only_the_first_and_last_card
              (KeyboardNavigation.mk 1
                 [KeyboardNavigation.plain; KeyboardNavigation.selected;
                  KeyboardNavigation.plain]) 1) as [Hrun _]; [discriminate|].
  exact Hrun.
Defined.

(** ** The collector scripts: validation *)

Lemma append_nil_inv (a b : string) :
  String.append a b = "" -> a = "" /\ b = "".
Proof. destruct a; [auto | discriminate]. Qed.

Lemma append_nil_r (a : string) : String.append a "" = a.
Proof. induction a as [|c a IH]; [reflexivity|]. rewrite append_String, IH. reflexivity. Qed.

Lemma append_cons_inv (a b : string) (c : ascii) (s : string) :
  String.append a b = String c s ->
  (a = "" /\ b = String c s) \/ (exists a', a = String c a' /\ s = String.append a' b).
Proof.
  destruct a as [|d a']; [left; auto|].
  rewrite append_String. intros Heq. injection Heq as -> <-.
  right. exists a'. auto.
Qed.

Section RegexFacts.
Import Regex.

Lemma Matches_nullable (r : t) (s : string) :
  Matches r s -> s = "" -> nullable r = true.
Proof.
  induction 1 as [|test c Hc|r1 r2 s1 s2 _ IH1 _ IH2|r1 r2 s _ IH|r1 r2 s _ IH
                  |r|r s1 s2 _ _ _ _]; intros Hs; simpl.
  - reflexivity.
  - discriminate Hs.
  - apply append_nil_inv in Hs as [-> ->]. rewrite IH1, IH2; reflexivity.
  - rewrite IH by exact Hs. reflexivity.
  - rewrite IH by exact Hs. apply orb_true_r.
  - reflexivity.
  - reflexivity.
Qed.

Lemma nullable_Matches (r : t) : nullable r = true <-> Matches r "".
Proof.
  split; [|intros Hm; apply (Matches_nullable r "" Hm eq_refl)].
  induction r as [| |test|r1 IH1 r2 IH2|r1 IH1 r2 IH2|r IH]; simpl; intros Hn.
  - discriminate.
  - constructor.
  - discriminate.
  - apply andb_true_iff in Hn as [H1 H2].
    apply (Matches_Seq r1 r2 "" ""); auto.
  - apply orb_true_iff in Hn as [Hn|Hn]; [apply Matches_Alt_l | apply Matches_Alt_r]; auto.
  - constructor.
Qed.

Lemma derive_sound (c : ascii) (r : t) (s : string) :
  Matches (derive c r) s -> Matches r (String c s).
Proof.
  revert s. induction r as [| |test|r1 IH1 r2 IH2|r1 IH1 r2 IH2|r IH];
    simpl; intros s Hm.
  - inversion Hm.
  - inversion Hm.
  - destruct (test c) eqn:Hc; inversion Hm; subst. constructor. exact Hc.
  - assert (Hleft : forall s, Matches (Seq (derive c r1) r2) s ->
                              Matches (Seq r1 r2) (String c s)).
    { intros s' Hs. inversion Hs as [| |? ? s1 s2 H1 H2| | | |]; subst.
      rewrite <- append_String. constructor; auto. }
    destruct (nullable r1) eqn:Hn.
    + inversion Hm as [| | |? ? ? Hl|? ? ? Hr| |]; subst.
      * apply Hleft, Hl.
      * apply (Matches_Seq r1 r2 "" (String c s)); [|auto].
        apply nullable_Matches, Hn.
    + apply Hleft, Hm.
  - inversion Hm; subst; [apply Matches_Alt_l | apply Matches_Alt_r]; auto.
  - inversion Hm as [| |? ? s1 s2 H1 H2| | | |]; subst.
    rewrite <- append_String. constructor; auto.
Qed.

Lemma derive_complete (c : ascii) (r : t) (s : string) :
  Matches r (String c s) -> Matches (derive c r) s.
Proof.
  intros Hm. remember (String c s) as whole eqn:Hw. revert c s Hw.
  induction Hm as [|test d Hd|r1 r2 s1 s2 H1 IH1 H2 IH2|r1 r2 s0 _ IH|r1 r2 s0 _ IH
                   |r|r s1 s2 H1 IH1 H2 IH2]; intros c s Hw; simpl.
  - discriminate Hw.
  - injection Hw as -> <-. rewrite Hd. constructor.
  - apply append_cons_inv in Hw as [[-> ->]|(s1' & -> & ->)].
    + rewrite (Matches_nullable r1 "" H1 eq_refl).
      apply Matches_Alt_r. apply IH2. reflexivity.
    + destruct (nullable r1); [apply Matches_Alt_l|];
        constructor; auto.
  - apply Matches_Alt_l. auto.
  - apply Matches_Alt_r. auto.
  - discriminate Hw.
  - apply append_cons_inv in Hw as [[-> ->]|(s1' & -> & ->)].
    + apply (IH2 c s eq_refl).
    + constructor; auto.
Qed.

Lemma test_Matches (r : t) (s : string) : test r s = true <-> Matches r s.
Proof.
  revert r. induction s as [|c s IH]; intros r; simpl.
  - apply nullable_Matches.
  - rewrite IH. split; [apply derive_sound | apply derive_complete].
Qed.

Lemma Matches_Star_Class (cl : ascii -> bool) (s : string) :
  Matches (Star (Class cl)) s <-> JsString.all cl s = true.
Proof.
  split.
  - intros Hm. remember (Star (Class cl)) as r eqn:Hr.
    induction Hm as [| | | | | |r' s1 s2 H1 _ _ IH2]; try discriminate Hr.
    + reflexivity.
    + injection Hr as ->. inversion H1; subst.
      rewrite append_String. change (String.append "" s2) with s2. simpl.
      rewrite IH2 by reflexivity. rewrite andb_true_r. assumption.
  - induction s as [|c s IH]; simpl; intros Hall; [constructor|].
    apply andb_true_iff in Hall as [Hc Hs].
    apply (Matches_Star_app (Class cl) (String c "") s); [constructor; exact Hc | auto].
Qed.

Lemma Matches_Plus_Class (cl : ascii -> bool) (s : string) :
  Matches (Plus (Class cl)) s <-> s <> "" /\ JsString.all cl s = true.
Proof.
  unfold Plus. split.
  - intros Hm. inversion Hm as [| |? ? s1 s2 H1 H2| | | |]; subst.
    inversion H1; subst. apply Matches_Star_Class in H2.
    rewrite append_String. change (String.append "" s2) with s2.
    split; [discriminate|]. simpl. rewrite H2, andb_true_r. assumption.
  - intros [Hne Hall]. destruct s as [|c s]; [contradiction|].
    simpl in Hall. apply andb_true_iff in Hall as [Hc Hs].
    apply (Matches_Seq (Class cl) (Star (Class cl)) (String c "") s).
    + constructor. exact Hc.
    + apply Matches_Star_Class, Hs.
Qed.

Lemma Matches_dot (s : string) :
  Matches (Class (Ascii.eqb ".")) s <-> s = ".".
Proof.
  split.
  - intros Hm. inversion Hm as [|? c Hc| | | | |]; subst.
    apply Ascii.eqb_eq in Hc. subst. reflexivity.
  - intros ->. constructor. reflexivity.
Qed.

End RegexFacts.

(** X24: the firmware version format.  [isValidFirmwareFormat] accepts
    exactly the strings made of three non-empty groups of decimal digits
    with a dot between them, and nothing before, between or after: the
    derivative matcher on the expression [^\d+\.\d+\.\d+$] agrees with the
    expression's language. *)
Theorem isValidFirmwareFormat_three_numbers (firmware : string) :
  (isValidFirmwareFormat firmware = true
   <-> exists major minor patch,
         isNumber major /\ isNumber minor /\ isNumber patch
         /\ firmware
            = String.append major
                (String.append "." (String.append minor (String.append "." patch))))
  /\ (isValidFirmwareFormat firmware = true <-> Regex.Matches firmwareRegex firmware).
Proof.
  assert (Hlang : isValidFirmwareFormat firmware = true
                  <-> Regex.Matches firmwareRegex firmware)
    by apply test_Matches.
  split; [|exact Hlang].
  rewrite Hlang. unfold firmwareRegex. cbv zeta. split.
  - intros Hm.
    inversion Hm as [| |? ? major s1 Hmajor H1| | | |]; subst.
    inversion H1 as [| |? ? dot1 s2 Hdot1 H2| | | |]; subst.
    inversion H2 as [| |? ? minor s3 Hminor H3| | | |]; subst.
    inversion H3 as [| |? ? dot2 patch Hdot2 Hpatch| | | |]; subst.
    apply Matches_Plus_Class in Hmajor, Hminor, Hpatch.
    apply Matches_dot in Hdot1, Hdot2. subst.
    exists major, minor, patch. repeat split; try apply Hmajor; try apply Hminor;
      try apply Hpatch.
  - intros (major & minor & patch & Hmajor & Hminor & Hpatch & ->).
    repeat (constructor; try (apply Matches_Plus_Class; assumption);
            try (apply Matches_dot; reflexivity)).
Qed.

Lemma isValidFirmwareFormat_three_numbers_witness :
  map isValidFirmwareFormat ["20.2.0"; "1.2"; "1.2.3.4"; "v1.2.3"; "1..3"; " 1.2.3"; "01.002.3"]
  = [true; false; false; false; false; false; true]
  /\ Regex.Matches firmwareRegex "20.2.0".
Proof.
  split; [reflexivity|].
  destruct (isValidFirmwareFormat_three_numbers "20.2.0") as [_ Hlang].
  apply Hlang. reflexivity.
Defined.

Section SplitFacts.
Import JsSplit.

Lemma split_nonempty (sep : ascii) (s : string) : split sep s <> [].
Proof.
  destruct s as [|c s]; simpl; [discriminate|].
  destruct (Ascii.eqb c sep); [discriminate|].
  destruct (split sep s); discriminate.
Qed.

Lemma split_free (sep : ascii) (s : string) :
  free sep s = true <-> split sep s = [s].
Proof.
  induction s as [|c s IH]; simpl; [split; reflexivity|].
  destruct (Ascii.eqb c sep) eqn:Hc; simpl.
  - split; [discriminate|]. intros Heq. injection Heq as Heq _. discriminate Heq.
  - rewrite IH. pose proof (split_nonempty sep s) as Hne.
    destruct (split sep s) as [|piece pieces]; [contradiction|]. split.
    + intros Heq. injection Heq as -> ->. reflexivity.
    + intros Heq. injection Heq as -> ->. reflexivity.
Qed.

Lemma split_app (sep : ascii) (a b : string) :
  free sep a = true ->
  split sep (String.append a (String sep b)) = a :: split sep b.
Proof.
  induction a as [|c a IH]; intros Ha.
  - simpl. rewrite Ascii.eqb_refl. reflexivity.
  - simpl in Ha. apply andb_true_iff in Ha as [Hc Ha]. apply negb_true_iff in Hc.
    simpl. rewrite Hc, (IH Ha). reflexivity.
Qed.

Lemma split_cons_inv (sep : ascii) (s piece : string) (pieces : list string) :
  split sep s = piece :: pieces ->
  free sep piece = true
  /\ (pieces = [] -> s = piece)
  /\ (pieces <> [] ->
      exists rest, s = String.append piece (String sep rest) /\ split sep rest = pieces).
Proof.
  revert piece pieces. induction s as [|c s IH]; simpl; intros piece pieces Heq.
  - injection Heq as <- <-. split; [reflexivity|]. split.
    + intros _. reflexivity.
    + intros Hne. destruct (Hne eq_refl).
  - destruct (Ascii.eqb c sep) eqn:Hc.
    + injection Heq as <- <-. apply Ascii.eqb_eq in Hc. subst c.
      split; [reflexivity|]. split.
      * intros Hnil. destruct (split_nonempty sep s Hnil).
      * intros _. exists s. split; reflexivity.
    + pose proof (split_nonempty sep s) as Hne.
      destruct (split sep s) as [|p ps] eqn:Hsplit; [contradiction|].
      injection Heq as <- <-.
      destruct (IH p ps eq_refl) as (Hfree & Hnil & Hcons).
      split; [simpl; rewrite Hc, Hfree; reflexivity|]. split.
      * intros Hps. rewrite (Hnil Hps). reflexivity.
      * intros Hps. destruct (Hcons Hps) as (rest & -> & Hrest).
        exists rest. split; [reflexivity | exact Hrest].
Qed.

Lemma includes_slash (sep : ascii) (s : string) :
  Js.includes s (String sep "") = negb (free sep s).
Proof.
  induction s as [|c s IH]; [reflexivity|].
  rewrite includes_unfold. simpl.
  destruct (ascii_dec sep c) as [->|Hne].
  - rewrite Ascii.eqb_refl. destruct s; reflexivity.
  - assert (Hc : Ascii.eqb c sep = false) by (apply Ascii.eqb_neq; congruence).
    rewrite Hc. simpl. exact IH.
Qed.

End SplitFacts.

Lemma parseRepoString_split (s o r : string) :
  parseRepoString s = Normal (o, r) <-> JsSplit.split "/" s = [o; r].
Proof.
  unfold parseRepoString.
  destruct (JsSplit.split "/" s) as [|p [|q [|x xs]]]; split; intros Heq;
    try discriminate Heq.
  - injection Heq as -> ->. reflexivity.
  - injection Heq as -> ->. reflexivity.
Qed.

Lemma parseRepoString_Normal (s owner repo : string) :
  parseRepoString s = Normal (owner, repo)
  <-> s = String.append owner (String "/" repo)
      /\ JsSplit.free "/" owner = true /\ JsSplit.free "/" repo = true.
Proof.
  rewrite parseRepoString_split. split.
  - intros Hsplit.
    destruct (split_cons_inv "/" s owner [repo] Hsplit) as (Hfo & _ & Hcons).
    destruct (Hcons ltac:(discriminate)) as (rest & -> & Hrest).
    destruct (split_cons_inv "/" rest repo [] Hrest) as (Hfr & Hnil & _).
    rewrite (Hnil eq_refl). auto.
  - intros (-> & Hfo & Hfr). rewrite split_app by exact Hfo.
    apply split_free in Hfr. rewrite Hfr. reflexivity.
Qed.

Lemma isValidRepoFormat_length (s : string) :
  isValidRepoFormat s = (Z.of_nat (length (JsSplit.split "/" s)) =? 2).
Proof.
  unfold isValidRepoFormat. rewrite includes_slash.
  destruct (JsSplit.free "/" s) eqn:Hfree; [|reflexivity].
  apply split_free in Hfree. rewrite Hfree. reflexivity.
Qed.

Lemma isValidRepoFormat_parses (s : string) :
  isValidRepoFormat s = true <-> exists o r, parseRepoString s = Normal (o, r).
Proof.
  rewrite isValidRepoFormat_length. split.
  - intros Hlen. apply Z.eqb_eq in Hlen.
    destruct (JsSplit.split "/" s) as [|p [|q [|x xs]]] eqn:Hsplit;
      try (simpl in Hlen; lia).
    exists p, q. apply parseRepoString_split. exact Hsplit.
  - intros (o & r & Hor). apply parseRepoString_split in Hor. rewrite Hor. reflexivity.
Qed.

(** X25: repository strings.  [parseRepoString] returns [owner] and [repo]
    exactly for the strings [owner/repo] with a single slash, and the two
    parts put together with a slash are the string again; either part may
    be empty, so ["/"] is accepted.  [isValidRepoFormat] of the add-project
    script accepts exactly the strings [parseRepoString] parses, its first
    test being implied by the second. *)
Theorem parseRepoString_accepts_exactly_one_slash (s owner repo : string) :
  (parseRepoString s = Normal (owner, repo)
   <-> s = String.append owner (String "/" repo)
       /\ JsSplit.free "/" owner = true /\ JsSplit.free "/" repo = true)
  /\ (isValidRepoFormat s = true <-> exists o r, parseRepoString s = Normal (o, r))
  /\ (isValidRepoFormat s = (Z.of_nat (length (JsSplit.split "/" s)) =? 2))
  /\ parseRepoString "/" = Normal ("", "").
Proof.
  split; [apply parseRepoString_Normal|].
  split; [apply isValidRepoFormat_parses|].
  split; [apply isValidRepoFormat_length | reflexivity].
Qed.

(** ** The tracker script *)

Section TrackerFacts.
Import Tracker.

Lemma fetchRepositoryInfo_Some (env : Env) (o r : string)
    (info : GitHub.Repository.t) (w : list Log) :
  fetchRepositoryInfo env o r = (Some info, w)
  <-> w = []
      /\ exists status,
           repositoryApi env o r = GitHub.Status status (GitHub.Json info)
           /\ 200 <= status <= 299.
Proof.
  unfold fetchRepositoryInfo, GitHub.ok.
  destruct (repositoryApi env o r) as [|status body].
  - split; [discriminate | intros (_ & s & Hs & _); discriminate Hs].
  - destruct (Z.leb_spec 200 status), (Z.leb_spec status 299); simpl;
      try (destruct (status =? 404);
           (split; [discriminate | intros (_ & s & Hs & Hr); injection Hs as <- _; lia])).
    destruct body as [| |data].
    + split; [discriminate | intros (_ & s & Hs & _); discriminate Hs].
    + split; [discriminate | intros (_ & s & Hs & _); discriminate Hs].
    + split.
      * intros Heq. injection Heq as <- <-. split; [reflexivity|].
        exists status. split; [reflexivity | lia].
      * intros (-> & s & Hs & _). injection Hs as <- <-. reflexivity.
Qed.

Lemma fetchRepositoryInfo_log (env : Env) (o r : string) (rp : option string) :
  ~ In (ProcessingError rp) (fetchRepositoryInfo env o r).2.
Proof.
  unfold fetchRepositoryInfo.
  destruct (repositoryApi env o r) as [|status body]; simpl.
  - intros [Hin|[]]. discriminate Hin.
  - destruct (negb _); [destruct (status =? 404)|destruct body]; simpl;
      intros Hin; repeat destruct Hin as [Hin|Hin]; try discriminate Hin; auto.
Qed.

Lemma fetchLatestRelease_log (env : Env) (o r : string) (rp : option string) :
  ~ In (ProcessingError rp) (fetchLatestRelease env o r).2.
Proof.
  unfold fetchLatestRelease.
  destruct (releaseApi env o r) as [|status body]; simpl.
  - intros [Hin|[]]. discriminate Hin.
  - destruct (negb _); [destruct (status =? 404)|destruct body]; simpl;
      intros Hin; repeat destruct Hin as [Hin|Hin]; try discriminate Hin; auto.
Qed.

Lemma truthy_or_empty (v : option string) :
  match v with
  | Some s => if Js.truthy s then s else ""
  | None => ""
  end = default "" v.
Proof. destruct v as [[|c s]|]; reflexivity. Qed.

(** The record and the log of a project that is kept. *)
Lemma processProject_Some (env : Env) (project : ProjectConfig)
    (data : ProjectData) (w : list Log) :
  processProject env project = (Some data, w) ->
  exists o r status info repoOwner,
    repo project = Some (String.append o (String "/" r))
    /\ JsSplit.free "/" o = true /\ JsSplit.free "/" r = true
    /\ repositoryApi env o r = GitHub.Status status (GitHub.Json info)
    /\ 200 <= status <= 299
    /\ GitHub.Repository.owner info = Some repoOwner
    /\ data
       = {| name := GitHub.Repository.name info;
            author := GitHub.Owner.login repoOwner;
            authorAvatar := GitHub.Owner.avatar_url repoOwner;
            authorUrl := GitHub.Owner.html_url repoOwner;
            projectUrl := String.append o (String "/" r);
            projectFullUrl := GitHub.Repository.html_url info;
            description := default "" (GitHub.Repository.description info);
            language := default "" (GitHub.Repository.language info);
            stars := GitHub.Repository.stargazers_count info;
            forks := GitHub.Repository.forks_count info;
            lastUpdated := GitHub.Repository.updated_at info;
            createdAt := GitHub.Repository.created_at info;
            latestVersion :=
              rel ← (fetchLatestRelease env o r).1; GitHub.Release.tag_name rel;
            latestReleaseUrl :=
              rel ← (fetchLatestRelease env o r).1; GitHub.Release.html_url rel;
            latestReleaseDate :=
              rel ← (fetchLatestRelease env o r).1; GitHub.Release.published_at rel;
            requiredFirmware :=
              getFirmwareRequirement env (GitHub.Repository.name info) |}
    /\ w = (Processing o r :: (fetchLatestRelease env o r).2
            ++ [Added (name data) (requiredFirmware data) (author data)])%list.
Proof.
  unfold processProject.
  destruct (repo project) as [s|] eqn:Hrepo; [|discriminate].
  destruct (parseRepoString s) as [[o r]|e] eqn:Hparse; [|discriminate].
  apply parseRepoString_Normal in Hparse as (-> & Hfo & Hfr).
  destruct (fetchRepositoryInfo env o r) as [[info|] w1] eqn:Hinfo; [|discriminate].
  apply fetchRepositoryInfo_Some in Hinfo as (-> & status & Hapi & Hstatus).
  destruct (fetchLatestRelease env o r) as [rel w2] eqn:Hrel.
  destruct (GitHub.Repository.owner info) as [repoOwner|] eqn:Howner; [|discriminate].
  intros Heq. injection Heq as <- <-.
  exists o, r, status, info, repoOwner.
  rewrite !truthy_or_empty, Hrel. cbn [fst snd app].
  repeat split; try assumption; try lia.
Qed.

(** X26: the record [processProject] builds.  A project is kept exactly
    when its [repo] is a string [owner/repo] with a single slash, the
    repository request for it is answered with a status from 200 to 299
    and a JSON document, and the document names an owner; the release
    request and the firmware table have no say in it.  The record of a
    kept project carries the configured string as [projectUrl], the
    repository's own name, counts and dates, an empty string for a
    description or language that is [null], the firmware requirement
    looked up under the repository's name, and [null] for all three release
    fields when no release was obtained; its log ends with the "Added"
    line and has no error of [processProject] itself. *)
Theorem processProject_record (env : Env) (project : ProjectConfig) :
  (is_Some (processProject env project).1
   <-> exists o r status info,
         repo project = Some (String.append o (String "/" r))
         /\ JsSplit.free "/" o = true /\ JsSplit.free "/" r = true
         /\ repositoryApi env o r = GitHub.Status status (GitHub.Json info)
         /\ 200 <= status <= 299
         /\ is_Some (GitHub.Repository.owner info))
  /\ (forall data w,
        processProject env project = (Some data, w) ->
        repo project = Some (projectUrl data)
        /\ (exists o r status info,
              projectUrl data = String.append o (String "/" r)
              /\ repositoryApi env o r = GitHub.Status status (GitHub.Json info)
              /\ name data = GitHub.Repository.name info
              /\ stars data = GitHub.Repository.stargazers_count info
              /\ forks data = GitHub.Repository.forks_count info
              /\ lastUpdated data = GitHub.Repository.updated_at info
              /\ createdAt data = GitHub.Repository.created_at info
              /\ description data = default "" (GitHub.Repository.description info)
              /\ language data = default "" (GitHub.Repository.language info)
              /\ requiredFirmware data
                 = JsObject.readOr (firmwareMapping env) (GitHub.Repository.name info)
                     (defaultFirmware env)
              /\ ((fetchLatestRelease env o r).1 = None ->
                  latestVersion data = None /\ latestReleaseUrl data = None
                  /\ latestReleaseDate data = None))
        /\ last w = Some (Added (name data) (requiredFirmware data) (author data))
        /\ (forall rp, ~ In (ProcessingError rp) w)).
Proof.
  split.
  - split.
    + intros [data Hdata].
      destruct (processProject env project) as [result w] eqn:Hrun.
      cbn [fst] in Hdata. subst result.
      apply processProject_Some in Hrun
        as (o & r & status & info & repoOwner & H1 & H2 & H3 & H4 & H5 & H6 & _).
      exists o, r, status, info. rewrite H6. repeat split; try assumption; try lia.
      eexists. reflexivity.
    + intros (o & r & status & info & Hrepo & Hfo & Hfr & Hapi & Hstatus & [ow How]).
      unfold processProject. rewrite Hrepo.
      assert (Hparse : parseRepoString (String.append o (String "/" r)) = Normal (o, r))
        by (apply parseRepoString_Normal; auto).
      rewrite Hparse.
      assert (Hinfo : fetchRepositoryInfo env o r = (Some info, []))
        by (apply fetchRepositoryInfo_Some; eauto).
      rewrite Hinfo. destruct (fetchLatestRelease env o r) as [rel w2].
      rewrite How. cbn [fst]. eexists. reflexivity.
  - intros data w Hrun.
    apply processProject_Some in Hrun
      as (o & r & status & info & repoOwner & H1 & H2 & H3 & H4 & H5 & H6 & -> & ->).
    cbn [projectUrl name stars forks lastUpdated createdAt description language
         requiredFirmware latestVersion latestReleaseUrl latestReleaseDate author].
    split; [exact H1|]. split; [|split].
    + exists o, r, status, info.
      split; [reflexivity|]. split; [exact H4|].
      do 8 (split; [reflexivity|]).
      intros Hnone. rewrite Hnone. repeat split.
    + rewrite app_comm_cons, last_snoc. reflexivity.
    + intros rp [Hin|Hin]; [discriminate Hin|].
      apply in_app_iff in Hin as [Hin|[Hin|[]]]; [|discriminate Hin].
      exact (fetchLatestRelease_log env o r rp Hin).
Qed.



End TrackerFacts.

Lemma processProject_record_witness :
  option_map Tracker.projectUrl
    (Tracker.processProject sampleEnv
       {| Tracker.repo := Some "Atmosphere-NX/Atmosphere" |}).1
  = Some "Atmosphere-NX/Atmosphere"
  /\ is_Some (Tracker.processProject sampleEnv
                {| Tracker.repo := Some "Atmosphere-NX/Atmosphere" |}).1.
Proof.
  split; [reflexivity|].
  destruct (processProject_record sampleEnv
              {| Tracker.repo := Some "Atmosphere-NX/Atmosphere" |}) as [[_ Hkept] _].
  apply Hkept. exists "Atmosphere-NX", "Atmosphere", 200, sampleRepository.
  repeat split; try reflexivity; try lia. eexists. reflexivity.
Defined.


(** ** The add-project script *)

Section AddProjectFacts.
Import AddProject.

Lemma own_app (l1 l2 : list (string * string)) (key : string) :
  JsObject.own (l1 ++ l2) key
  = match JsObject.own l2 key with
    | Some v => Some v
    | None => JsObject.own l1 key
    end.
Proof.
  induction l1 as [|[k v] l1 IH]; simpl.
  - destruct (JsObject.own l2 key); reflexivity.
  - rewrite IH. destruct (JsObject.own l2 key); reflexivity.
Qed.

Lemma own_without (entries : list (string * string)) (key other : string) :
  JsObject.own (List.filter (fun entry => negb (String.eqb entry.1 key)) entries) other
  = if String.eqb other key then None else JsObject.own entries other.
Proof.
  induction entries as [|[k v] entries IH]; simpl.
  - destruct (String.eqb other key); reflexivity.
  - destruct (String.eqb k key) eqn:Hk; simpl.
    + rewrite IH. apply String.eqb_eq in Hk. subst k.
      destruct (String.eqb other key) eqn:Ho; [reflexivity|].
      destruct (JsObject.own entries other); [reflexivity|].
      rewrite String.eqb_sym, Ho. reflexivity.
    + rewrite IH. destruct (String.eqb other key) eqn:Ho; [|reflexivity].
      apply String.eqb_eq in Ho. subst other. rewrite Hk. reflexivity.
Qed.

Lemma own_assign (entries : list (string * string)) (key value other : string) :
  JsObject.own (assign entries key value) other
  = if String.eqb other key then Some value else JsObject.own entries other.
Proof.
  unfold assign. rewrite own_app, own_without. simpl.
  rewrite (String.eqb_sym key other).
  destruct (String.eqb other key); reflexivity.
Qed.

Lemma read_assign_other (entries : list (string * string)) (key value other : string) :
  other <> key ->
  JsObject.read (assign entries key value) other = JsObject.read entries other.
Proof.
  intros Hne. unfold JsObject.read. rewrite own_assign.
  apply String.eqb_neq in Hne. rewrite Hne. reflexivity.
Qed.

Lemma read_assign_same (entries : list (string * string)) (key value : string) :
  JsObject.read (assign entries key value) key = JsObject.Own value.
Proof.
  unfold JsObject.read. rewrite own_assign, String.eqb_refl. reflexivity.
Qed.

Lemma isValidFirmwareFormat_truthy (firmware : string) :
  isValidFirmwareFormat firmware = true -> Js.truthy firmware = true.
Proof. destruct firmware; [discriminate | reflexivity]. Qed.

Lemma addToProjectsConfig_Some (repo : string) (files files1 : Files)
    (added : bool) (w1 : list Log) :
  addToProjectsConfig repo files = (Some added, files1, w1) ->
  exists projects,
    projectsFile files = Some projects
    /\ existsb (hasRepo repo) projects = negb added
    /\ files1
       = (if added
          then setProjectsFile (projects ++ [{| Tracker.repo := Some repo |}])%list files
          else files).
Proof.
  unfold addToProjectsConfig.
  destruct (projectsFile files) as [projects|]; [|discriminate].
  destruct (existsb (hasRepo repo) projects) eqn:Hex.
  - intros Heq. injection Heq as <- <- _. exists projects. auto.
  - destruct (projectsWritable files); [|discriminate].
    intros Heq. injection Heq as <- <- _. exists projects. auto.
Qed.

Lemma addToFirmwareConfig_Some (projectName firmware : string) (files files2 : Files)
    (added : bool) (w2 : list Log) :
  addToFirmwareConfig projectName firmware files = (Some added, files2, w2) ->
  exists config,
    firmwareFile files = Some config
    /\ truthyRead (JsObject.read (firmware_requirements config) projectName)
       = negb added
    /\ files2
       = (if added
          then setFirmwareFile
                 {| firmware_requirements :=
                      assign (firmware_requirements config) projectName firmware;
                    default_firmware := default_firmware config |} files
          else files).
Proof.
  unfold addToFirmwareConfig.
  destruct (firmwareFile files) as [config|]; [|discriminate]. cbv zeta.
  destruct (truthyRead _) eqn:Htruthy.
  - intros Heq. injection Heq as <- <- _. exists config. auto.
  - destruct (firmwareWritable files); [|discriminate].
    intros Heq. injection Heq as <- <- _. exists config. auto.
Qed.

Lemma addProject_valid (repo firmware : string) (files : Files) :
  isValidRepoFormat repo = true ->
  isValidFirmwareFormat firmware = true ->
  addProject repo firmware files
  = match addToProjectsConfig repo files with
    | (None, files, w1) =>
        (Exited 1, files, (Adding repo firmware :: w1 ++ [ErrorAdding])%list)
    | (Some projectsAdded, files, w1) =>
        match addToFirmwareConfig (nth 1 (JsSplit.split "/" repo) "") firmware files with
        | (None, files, w2) =>
            (Exited 1, files, (Adding repo firmware :: w1 ++ w2 ++ [ErrorAdding])%list)
        | (Some firmwareAdded, files, w2) =>
            (Completed, files,
             (Adding repo firmware :: w1 ++ w2
              ++ [Summary projectsAdded firmwareAdded; CompletedSuccessfully])%list)
        end
    end.
Proof. intros Hrepo Hfirmware. unfold addProject. rewrite Hrepo, Hfirmware. reflexivity. Qed.

(** X28: [addProject] checks before it writes, but does not write all or
    nothing.  With a repository string or a firmware version that fails
    its format check the script exits with status 1 and leaves both files
    as they were.  It ends in one of two ways only, normally or with status
    1, and it ends normally only if both checks passed and both files could
    be read.  But when projects.yml has been extended and firmware.yml then
    cannot be read, the script exits with status 1 with projects.yml
    already changed. *)
Theorem addProject_validates_before_it_writes (repo firmware : string) (files : Files) :
  (isValidRepoFormat repo = false \/ isValidFirmwareFormat firmware = false ->
   addProject repo firmware files
   = (Exited 1, files, [Adding repo firmware; ErrorAdding]))
  /\ (forall exit files' w,
        addProject repo firmware files = (exit, files', w) ->
        (exit = Completed \/ exit = Exited 1)
        /\ (exit = Completed ->
            isValidRepoFormat repo = true /\ isValidFirmwareFormat firmware = true
            /\ is_Some (projectsFile files) /\ is_Some (firmwareFile files)))
  /\ (forall projects,
        isValidRepoFormat repo = true ->
        isValidFirmwareFormat firmware = true ->
        projectsFile files = Some projects ->
        existsb (hasRepo repo) projects = false ->
        projectsWritable files = true ->
        firmwareFile files = None ->
        addProject repo firmware files
        = (Exited 1,
           setProjectsFile (projects ++ [{| Tracker.repo := Some repo |}])%list files,
           [Adding repo firmware; AddedToProjects repo; ErrorAdding])).
Proof.
  split; [|split].
  - intros [Hrepo|Hfirmware]; unfold addProject.
    + rewrite Hrepo. reflexivity.
    + rewrite Hfirmware. destruct (isValidRepoFormat repo); reflexivity.
  - intros exit files' w.
    destruct (isValidRepoFormat repo) eqn:Hrepo;
      [|unfold addProject; rewrite Hrepo; intros Heq; injection Heq as <- _ _;
        split; [auto | discriminate]].
    destruct (isValidFirmwareFormat firmware) eqn:Hfirmware;
      [|unfold addProject; rewrite Hrepo, Hfirmware; intros Heq;
        injection Heq as <- _ _; split; [auto | discriminate]].
    rewrite (addProject_valid repo firmware files Hrepo Hfirmware).
    destruct (addToProjectsConfig repo files) as [[[projectsAdded|] files1] w1] eqn:H1;
      [|intros Heq; injection Heq as <- _ _; split; [auto | discriminate]].
    destruct (addToFirmwareConfig _ firmware files1) as [[[firmwareAdded|] files2] w2]
      eqn:H2;
      [|intros Heq; injection Heq as <- _ _; split; [auto | discriminate]].
    intros Heq. injection Heq as <- _ _. split; [auto|]. intros _.
    apply addToProjectsConfig_Some in H1 as (projects & Hprojects & _ & Hfiles1).
    apply addToFirmwareConfig_Some in H2 as (config & Hconfig & _ & _).
    repeat split.
    + rewrite Hprojects. eexists. reflexivity.
    + subst files1. destruct projectsAdded; cbn [firmwareFile setProjectsFile] in Hconfig;
        rewrite Hconfig; eexists; reflexivity.
  - intros projects Hrepo Hfirmware Hprojects Hnew Hwritable Hnone.
    rewrite (addProject_valid repo firmware files Hrepo Hfirmware).
    unfold addToProjectsConfig. rewrite Hprojects, Hnew, Hwritable.
    unfold addToFirmwareConfig. cbn [firmwareFile setProjectsFile].
    rewrite Hnone. reflexivity.
Qed.

(** X29: [addProject] adds once and never overwrites.  When the script
    ends normally, projects.yml lists the repository afterwards, an
    existing entry having been left alone and a missing one added at the
    end; the firmware requirement filed under the project's name is the
    one found there before if that was truthy, and the new one otherwise;
    no other requirement and not the default firmware have changed.
    Running the script again for the same repository, with whatever valid
    firmware version, ends normally and changes neither file. *)
Theorem addProject_adds_once_and_never_overwrites
    (repo firmware : string) (files files' : Files) (w : list Log) :
  addProject repo firmware files = (Completed, files', w) ->
  let projectName := nth 1 (JsSplit.split "/" repo) "" in
  (exists projects projects' config config',
     projectsFile files = Some projects /\ projectsFile files' = Some projects'
     /\ firmwareFile files = Some config /\ firmwareFile files' = Some config'
     /\ existsb (hasRepo repo) projects' = true
     /\ projects'
        = (if existsb (hasRepo repo) projects then projects
           else (projects ++ [{| Tracker.repo := Some repo |}])%list)
     /\ JsObject.read (firmware_requirements config') projectName
        = (if truthyRead (JsObject.read (firmware_requirements config) projectName)
           then JsObject.read (firmware_requirements config) projectName
           else JsObject.Own firmware)
     /\ (forall other, other <> projectName ->
           JsObject.read (firmware_requirements config') other
           = JsObject.read (firmware_requirements config) other)
     /\ default_firmware config' = default_firmware config)
  /\ (forall firmware',
        isValidFirmwareFormat firmware' = true ->
        exists w', addProject repo firmware' files' = (Completed, files', w')).
Proof.
  intros Hrun projectName.
  assert (Hrepo : isValidRepoFormat repo = true).
  { destruct (isValidRepoFormat repo) eqn:Hrepo; [reflexivity|].
    unfold addProject in Hrun. rewrite Hrepo in Hrun. discriminate Hrun. }
  assert (Hfirmware : isValidFirmwareFormat firmware = true).
  { destruct (isValidFirmwareFormat firmware) eqn:Hfirmware; [reflexivity|].
    unfold addProject in Hrun. rewrite Hrepo, Hfirmware in Hrun. discriminate Hrun. }
  rewrite (addProject_valid repo firmware files Hrepo Hfirmware) in Hrun.
  fold projectName in Hrun.
  destruct (addToProjectsConfig repo files) as [[[projectsAdded|] files1] w1] eqn:H1;
    [|discriminate Hrun].
  destruct (addToFirmwareConfig projectName firmware files1)
    as [[[firmwareAdded|] files2] w2] eqn:H2; [|discriminate Hrun].
  injection Hrun as <- _.
  apply addToProjectsConfig_Some in H1 as (projects & Hprojects & Hex & ->).
  apply addToFirmwareConfig_Some in H2 as (config & Hconfig & Htruthy & ->).
  assert (Hconfig0 : firmwareFile files = Some config).
  { destruct projectsAdded; exact Hconfig. }
  set (projects' := if existsb (hasRepo repo) projects then projects
                    else (projects ++ [{| Tracker.repo := Some repo |}])%list).
  set (config' := if firmwareAdded
                  then {| firmware_requirements :=
                            assign (firmware_requirements config) projectName firmware;
                          default_firmware := default_firmware config |}
                  else config).
  assert (Hprojects' :
    projectsFile
      (if firmwareAdded
       then setFirmwareFile
              {| firmware_requirements :=
                   assign (firmware_requirements config) projectName firmware;
                 default_firmware := default_firmware config |}
              (if projectsAdded
               then setProjectsFile
                      (projects ++ [{| Tracker.repo := Some repo |}])%list files
               else files)
       else if projectsAdded
            then setProjectsFile
                   (projects ++ [{| Tracker.repo := Some repo |}])%list files
            else files)
    = Some projects').
  { unfold projects'. rewrite Hex.
    destruct firmwareAdded, projectsAdded; simpl; try reflexivity; exact Hprojects. }
  assert (Hconfig' :
    firmwareFile
      (if firmwareAdded
       then setFirmwareFile
              {| firmware_requirements :=
                   assign (firmware_requirements config) projectName firmware;
                 default_firmware := default_firmware config |}
              (if projectsAdded
               then setProjectsFile
                      (projects ++ [{| Tracker.repo := Some repo |}])%list files
               else files)
       else if projectsAdded
            then setProjectsFile
                   (projects ++ [{| Tracker.repo := Some repo |}])%list files
            else files)
    = Some config').
  { unfold config'. destruct firmwareAdded, projectsAdded; simpl; try reflexivity;
      exact Hconfig0. }
  assert (Hlisted : existsb (hasRepo repo) projects' = true).
  { unfold projects'. destruct (existsb (hasRepo repo) projects) eqn:Hold;
      [exact Hold|].
    rewrite existsb_app. simpl. unfold hasRepo at 2. simpl.
    rewrite String.eqb_refl. apply orb_true_r. }
  assert (Hread :
    JsObject.read (firmware_requirements config') projectName
    = (if truthyRead (JsObject.read (firmware_requirements config) projectName)
       then JsObject.read (firmware_requirements config) projectName
       else JsObject.Own firmware)).
  { unfold config'. rewrite Htruthy. destruct firmwareAdded; simpl; [|reflexivity].
    apply read_assign_same. }
  split.
  - exists projects, projects', config, config'.
    split; [exact Hprojects|]. split; [exact Hprojects'|].
    split; [exact Hconfig0|]. split; [exact Hconfig'|].
    split; [exact Hlisted|]. split; [reflexivity|]. split; [exact Hread|]. split.
    + intros other Hother. unfold config'. destruct firmwareAdded; [|reflexivity].
      simpl. apply read_assign_other, Hother.
    + unfold config'. destruct firmwareAdded; reflexivity.
  - intros firmware' Hfirmware'.
    rewrite (addProject_valid repo firmware' _ Hrepo Hfirmware').
    fold projectName.
    unfold addToProjectsConfig. rewrite Hprojects', Hlisted.
    unfold addToFirmwareConfig. rewrite Hconfig'. cbv zeta.
    assert (Hnow : truthyRead (JsObject.read (firmware_requirements config') projectName)
                   = true).
    { rewrite Hread.
      destruct (truthyRead (JsObject.read (firmware_requirements config) projectName))
        eqn:Hold; [exact Hold|].
      simpl. apply isValidFirmwareFormat_truthy, Hfirmware. }
    rewrite Hnow. eexists. reflexivity.
Qed.

End AddProjectFacts.

Lemma addProject_validates_before_it_writes_witness :
  AddProject.addProject "Atmosphere-NX/Atmosphere" "20" sampleFiles
  = (AddProject.Exited 1, sampleFiles,
     [AddProject.Adding "Atmosphere-NX/Atmosphere" "20"; AddProject.ErrorAdding])
  /\ (AddProject.addProject "Atmosphere-NX/Atmosphere" "20.1.0" brokenFirmwareFiles).1.1
     = AddProject.Exited 1
  /\ AddProject.projectsFile
       (AddProject.addProject "Atmosphere-NX/Atmosphere" "20.1.0" brokenFirmwareFiles).1.2
     = Some [ {| Tracker.repo := Some "CTCaer/hekate" |};
              {| Tracker.repo := Some "Atmosphere-NX/Atmosphere" |} ].
Proof.
  destruct (addProject_validates_before_it_writes "Atmosphere-NX/Atmosphere" "20"
              sampleFiles) as [Hinvalid _].
  split; [apply Hinvalid; right; reflexivity|].
  split; reflexivity.
Defined.

Lemma addProject_adds_once_and_never_overwrites_witness :
  AddProject.addProject "CTCaer/hekate" "20.2.0" sampleFiles
  = (AddProject.Completed, sampleFiles,
     [AddProject.Adding "CTCaer/hekate" "20.2.0";
      AddProject.AlreadyInProjects "CTCaer/hekate";
      AddProject.FirmwareExists "hekate" (JsObject.Own "19.0.1");
      AddProject.Summary false false; AddProject.CompletedSuccessfully])
  /\ exists w',
       AddProject.addProject "CTCaer/hekate" "21.0.0" sampleFiles
       = (AddProject.Completed, sampleFiles, w').
Proof.
  split; [reflexivity|].
  destruct (addProject_adds_once_and_never_overwrites "CTCaer/hekate" "20.2.0"
              sampleFiles sampleFiles _ eq_refl) as [_ Hagain].
  apply Hagain. reflexivity.
Defined.

(** ** The firmware requirement *)


